(** * Verification of the image-build helper scripts

    Shallow embedding of [ros_base_imgs/build.py],
    [ros_base_imgs/create_docker_files.py] and [sensor_imgs/build.py]:
    the image-reference validator, the manifest-driven context stager, the
    construction of the build command line, the log filter and the exit-code
    bookkeeping. *)

From stdpp Require Import base list strings gmap sorting.
From Stdlib Require Import Ascii String ZArith Lia.

Local Open Scope string_scope.
Local Open Scope list_scope.

(* ===================================================================== *)
(** * Regular expressions, as used through Python's [re] module          *)
(* ===================================================================== *)

Module Regex.

(** Members of a bracket expression such as [[a-z0-9.-]]. *)
Inductive item : Type :=
| Chr (c : ascii)
| Rng (lo hi : ascii).

(** One-character atoms. *)
Inductive atom : Type :=
| Lit (c : ascii)            (* a literal, escaped or not: [\.], [_], [/] *)
| Class (items : list item)  (* [[...]] *)
| Digit.                     (* [\d] *)

Inductive regex : Type :=
| Void
| Eps
| Sym (a : atom)
| Cat (r1 r2 : regex)
| Alt (r1 r2 : regex)
| Star (r : regex).

(** [r+], [r?], [r{n}] and [r{1,2}] are the usual abbreviations. *)
Definition Plus (r : regex) : regex := Cat r (Star r).
Definition Opt (r : regex) : regex := Alt r Eps.
Fixpoint Rep (n : nat) (r : regex) : regex :=
  match n with
  | O => Eps
  | S n' => Cat r (Rep n' r)
  end.
Definition Rep12 (r : regex) : regex := Cat r (Opt r).

Definition item_mem (c : ascii) (i : item) : bool :=
  match i with
  | Chr d => Ascii.eqb c d
  | Rng lo hi => Ascii.leb lo c && Ascii.leb c hi
  end.

(** The class [[0-9]] over 8-bit characters. *)
Definition is_digit (c : ascii) : bool :=
  Ascii.leb "0" c && Ascii.leb c "9".

(** A pattern is applied to a sequence of characters; what the engine needs
    of the characters is the test of a one-character atom. *)
Class Symbol (char : Type) : Type := accepts : atom → char → bool.

(** The 8-bit characters of the Standard Library, for the names handed to
    the validator: these are the code points below 256, among which the
    decimal digits are [0]..[9]. *)
#[export] Instance ascii_symbol : Symbol ascii := λ a c,
  match a with
  | Lit d => Ascii.eqb c d
  | Class items => existsb (item_mem c) items
  | Digit => is_digit c
  end.

Fixpoint nullable (r : regex) : bool :=
  match r with
  | Void => false
  | Eps => true
  | Sym _ => false
  | Cat r1 r2 => nullable r1 && nullable r2
  | Alt r1 r2 => nullable r1 || nullable r2
  | Star _ => true
  end.

Section Engine.

Context {char : Type} `{!Symbol char}.

Fixpoint der (c : char) (r : regex) : regex :=
  match r with
  | Void => Void
  | Eps => Void
  | Sym a => if accepts a c then Eps else Void
  | Cat r1 r2 =>
      if nullable r1 then Alt (Cat (der c r1) r2) (der c r2)
      else Cat (der c r1) r2
  | Alt r1 r2 => Alt (der c r1) (der c r2)
  | Star r1 => Cat (der c r1) (Star r1)
  end.

(** The whole of [s] is in the language of [r]. *)
Fixpoint fullmatch (r : regex) (s : list char) : bool :=
  match s with
  | [] => nullable r
  | c :: s' => fullmatch (der c r) s'
  end.

(** Some prefix of [s] is in the language of [r]. *)
Fixpoint prefix_match (r : regex) (s : list char) : bool :=
  nullable r ||
  match s with
  | [] => false
  | c :: s' => prefix_match (der c r) s'
  end.

(** [re.compile(r).search(s)]: the pattern matches at some offset of [s]. *)
Fixpoint search (r : regex) (s : list char) : bool :=
  prefix_match r s ||
  match s with
  | [] => false
  | _ :: s' => search r s'
  end.

(** Declarative meaning of a pattern. *)
Inductive Matches : regex → list char → Prop :=
| MEps : Matches Eps []
| MSym a c : accepts a c = true → Matches (Sym a) [c]
| MCat r1 r2 s1 s2 :
    Matches r1 s1 → Matches r2 s2 → Matches (Cat r1 r2) (s1 ++ s2)
| MAltL r1 r2 s : Matches r1 s → Matches (Alt r1 r2) s
| MAltR r1 r2 s : Matches r2 s → Matches (Alt r1 r2) s
| MStar0 r : Matches (Star r) []
| MStarS r s1 s2 :
    Matches r s1 → Matches (Star r) s2 → Matches (Star r) (s1 ++ s2).

End Engine.

Definition newline : ascii := "010"%char.

(** [re.compile("^" + r + "$").match(s)]: without the MULTILINE flag [$]
    holds at the end of the string and also just before a newline that is
    the last character of the string. *)
Definition match_anchored (r : regex) (s : list ascii) : bool :=
  fullmatch r s ||
  match reverse s with
  | c :: t => Ascii.eqb c newline && fullmatch r (reverse t)
  | [] => false
  end.

End Regex.

(* ===================================================================== *)
(** * The image-reference validator                                      *)
(* ===================================================================== *)

Module ImageName.
Import Regex.

(** [host_and_port_prefix = r"([a-z0-9.-]+(:[0-9]+)?/)?"] *)
Definition host_and_port_prefix : regex :=
  Opt (Cat (Cat (Plus (Sym (Class [Rng "a" "z"; Rng "0" "9"; Chr "."; Chr "-"])))
                (Opt (Cat (Sym (Lit ":")) (Plus (Sym (Class [Rng "0" "9"]))))))
           (Sym (Lit "/"))).

(** [path_separator = r"(?:\.|_{1,2}|-+)"] *)
Definition path_separator : regex :=
  Alt (Sym (Lit ".")) (Alt (Rep12 (Sym (Lit "_"))) (Plus (Sym (Lit "-")))).

(** [path_component = rf"[a-z0-9]+(?:{path_separator}[a-z0-9]+)*"] *)
Definition path_component : regex :=
  Cat (Plus (Sym (Class [Rng "a" "z"; Rng "0" "9"])))
      (Star (Cat path_separator (Plus (Sym (Class [Rng "a" "z"; Rng "0" "9"]))))).

(** [path_re = rf"{path_component}(/{path_component})*"] *)
Definition path_re : regex :=
  Cat path_component (Star (Cat (Sym (Lit "/")) path_component)).

(** [tag_re = r"(:[a-zA-Z0-9_.-]+)?"] *)
Definition tag_re : regex :=
  Opt (Cat (Sym (Lit ":"))
           (Plus (Sym (Class [Rng "a" "z"; Rng "A" "Z"; Rng "0" "9";
                              Chr "_"; Chr "."; Chr "-"])))).

(** [full_re = re.compile(rf"^{host_and_port_prefix}{path_re}{tag_re}$")];
    the two anchors are accounted for by [match_anchored]. *)
Definition full_re : regex :=
  Cat host_and_port_prefix (Cat path_re tag_re).

(** [return bool(full_re.match(name))] *)
Definition is_valid_docker_img_name (name : string) : bool :=
  match_anchored full_re (list_ascii_of_string name).

End ImageName.

(* ===================================================================== *)
(** * Text, as the interpreter reads it from a file or a pipe            *)
(* ===================================================================== *)

Module Unicode.
Import Regex.

(** A character of a Python [str]: a code point. *)
Abbreviation codepoint := N.

(** The code points of the category of decimal digits, in runs
    [(first, last)]: the characters that [\d] accepts in a [str] pattern.
    This is the table of Unicode 14.0.0, the data base of the interpreter
    the scripts are run with; beside [0]..[9] it holds, among others, the
    Arabic-Indic, the Devanagari and the full-width digits. *)
Definition decimal_digits : list (codepoint * codepoint) :=
  [(48, 57); (1632, 1641); (1776, 1785); (1984, 1993); (2406, 2415);
   (2534, 2543); (2662, 2671); (2790, 2799); (2918, 2927); (3046, 3055);
   (3174, 3183); (3302, 3311); (3430, 3439); (3558, 3567); (3664, 3673);
   (3792, 3801); (3872, 3881); (4160, 4169); (4240, 4249); (6112, 6121);
   (6160, 6169); (6470, 6479); (6608, 6617); (6784, 6793); (6800, 6809);
   (6992, 7001); (7088, 7097); (7232, 7241); (7248, 7257); (42528, 42537);
   (43216, 43225); (43264, 43273); (43472, 43481); (43504, 43513);
   (43600, 43609); (44016, 44025); (65296, 65305); (66720, 66729);
   (68912, 68921); (69734, 69743); (69872, 69881); (69942, 69951);
   (70096, 70105); (70384, 70393); (70736, 70745); (70864, 70873);
   (71248, 71257); (71360, 71369); (71472, 71481); (71904, 71913);
   (72016, 72025); (72784, 72793); (73040, 73049); (73120, 73129);
   (92768, 92777); (92864, 92873); (93008, 93017); (120782, 120831);
   (123200, 123209); (123632, 123641); (125264, 125273); (130032, 130041)]%N.

Definition between (lo hi x : N) : bool := ((lo <=? x) && (x <=? hi))%N.

(** [\d] on a character of a [str]. *)
Definition is_decimal (c : codepoint) : bool :=
  existsb (λ run, between (fst run) (snd run) c) decimal_digits.

Definition item_mem (c : codepoint) (i : item) : bool :=
  match i with
  | Chr d => (c =? N_of_ascii d)%N
  | Rng lo hi => between (N_of_ascii lo) (N_of_ascii hi) c
  end.

(** The test of a one-character atom on a code point. *)
#[export] Instance codepoint_symbol : Symbol codepoint := λ a c,
  match a with
  | Lit d => (c =? N_of_ascii d)%N
  | Class items => existsb (item_mem c) items
  | Digit => is_decimal c
  end.

(** A continuation byte, and the second byte that may follow the lead
    byte [b0] of a sequence of three or four bytes (no overlong form, no
    surrogate, nothing above U+10FFFF). *)
Definition continuation (b : N) : bool := between 128 191 b.

Definition second_byte (b0 b1 : N) : bool :=
  if (b0 =? 224)%N then between 160 191 b1
  else if (b0 =? 237)%N then between 128 159 b1
  else if (b0 =? 240)%N then between 144 191 b1
  else if (b0 =? 244)%N then between 128 143 b1
  else continuation b1.

(** The UTF-8 decoder in its strict mode: a sequence of bytes that is not
    well formed has no decoding. *)
Fixpoint decode_bytes (bs : list N) : option (list codepoint) :=
  match bs with
  | [] => Some []
  | b0 :: bs1 =>
      if (b0 <? 128)%N then option_map (cons b0) (decode_bytes bs1)
      else if between 194 223 b0 then
        match bs1 with
        | b1 :: bs2 =>
            if continuation b1
            then option_map (cons ((b0 - 192) * 64 + (b1 - 128))%N)
                            (decode_bytes bs2)
            else None
        | [] => None
        end
      else if between 224 239 b0 then
        match bs1 with
        | b1 :: b2 :: bs3 =>
            if second_byte b0 b1 && continuation b2
            then option_map
                   (cons ((b0 - 224) * 4096 + (b1 - 128) * 64 + (b2 - 128))%N)
                   (decode_bytes bs3)
            else None
        | _ => None
        end
      else if between 240 244 b0 then
        match bs1 with
        | b1 :: b2 :: b3 :: bs4 =>
            if second_byte b0 b1 && continuation b2 && continuation b3
            then option_map
                   (cons ((b0 - 240) * 262144 + (b1 - 128) * 4096
                          + (b2 - 128) * 64 + (b3 - 128))%N)
                   (decode_bytes bs4)
            else None
        | _ => None
        end
      else None
  end.

(** The characters of a line read in text mode ([open(p, "r")],
    [Popen(..., text=True)]), the encoding of the locale being UTF-8. A
    file holds bytes; a line that is not well-formed UTF-8 has no text, and
    reading it raises [UnicodeDecodeError]. *)
Definition decode (line : string) : option (list codepoint) :=
  decode_bytes (N_of_ascii <$> list_ascii_of_string line).

(** The bytes of a text, for writing samples down by their code units. *)
Definition of_bytes (bs : list N) : string :=
  string_of_list_ascii (ascii_of_N <$> bs).

End Unicode.

(* ===================================================================== *)
(** * The marker that selects lines for the specific log                 *)
(* ===================================================================== *)

Module LogPattern.
Import Regex Unicode.

(** [specific_log_pattern =
     re.compile(r"(\[\d{4}-\d{2}-\d{2}_\d{2}-\d{2}-\d{2}\])")] *)
Definition specific_log_pattern : regex :=
  Cat (Sym (Lit "["))
 (Cat (Rep 4 (Sym Digit))
 (Cat (Sym (Lit "-"))
 (Cat (Rep 2 (Sym Digit))
 (Cat (Sym (Lit "-"))
 (Cat (Rep 2 (Sym Digit))
 (Cat (Sym (Lit "_"))
 (Cat (Rep 2 (Sym Digit))
 (Cat (Sym (Lit "-"))
 (Cat (Rep 2 (Sym Digit))
 (Cat (Sym (Lit "-"))
 (Cat (Rep 2 (Sym Digit))
      (Sym (Lit "]"))))))))))))).

(** [specific_log_pattern.search(line)] as a truth value. The line is a
    [str]: the pattern is applied to its code points, so that [\d] accepts
    every decimal digit of Unicode. The complete log is written by the
    script itself, from text; bytes that are not the encoding of a text
    are no line of it, and are not selected. *)
Definition selected (line : string) : bool :=
  match decode line with
  | Some text => search specific_log_pattern text
  | None => false
  end.

(** A pattern that is a plain sequence of one-character atoms. *)
Fixpoint atoms_of (r : regex) : option (list atom) :=
  match r with
  | Eps => Some []
  | Sym a => Some [a]
  | Cat r1 r2 =>
      match atoms_of r1, atoms_of r2 with
      | Some l1, Some l2 => Some (l1 ++ l2)
      | _, _ => None
      end
  | _ => None
  end.

Definition fits (a : atom) (c : codepoint) : Prop := accepts a c = true.

(** The marker as the words describe it: an opening bracket, 4 digits, a
    dash, 2 digits, a dash, 2 digits, an underscore, then 2 digits three
    times with dashes between, and the closing bracket. *)
Definition marker_shape : list atom :=
  [Lit "["; Digit; Digit; Digit; Digit; Lit "-"; Digit; Digit; Lit "-";
   Digit; Digit; Lit "_"; Digit; Digit; Lit "-"; Digit; Digit; Lit "-";
   Digit; Digit; Lit "]"].

Definition is_marker (m : list codepoint) : Prop := Forall2 fits marker_shape m.

(** A line whose marker is written with Arabic-Indic digits,
    [[٢٠٢٤-٠١-٠١_٠٠-٠٠-٠٥] done], and one whose year is written with the
    superscript digit [²], which is a digit but not a decimal one. *)
Definition arabic_indic_line : string :=
  of_bytes [91; 217; 162; 217; 160; 217; 162; 217; 164; 45;
            217; 160; 217; 161; 45; 217; 160; 217; 161; 95;
            217; 160; 217; 160; 45; 217; 160; 217; 160; 45;
            217; 160; 217; 165; 93; 32; 100; 111; 110; 101]%N.

Definition superscript_line : string :=
  of_bytes [91; 194; 178; 48; 50; 52; 45; 48; 49; 45; 48; 49; 95;
            48; 48; 45; 48; 48; 45; 48; 53; 93]%N.

End LogPattern.

(* ===================================================================== *)
(** * Python values, paths, the file system and the effect monad         *)
(* ===================================================================== *)

Module Py.

(** Values found in a template context: [str] and [bool]. *)
Inductive scalar : Type :=
| VStr (s : string)
| VBool (b : bool).

(** [dict[str, str | bool]], in insertion order. *)
Definition dict : Type := list (string * scalar).

(** The elements of a manifest item, [list[str | dict[str, str] | bool]],
    and [None]. *)
Inductive pyval : Type :=
| PNone
| PBool (b : bool)
| PStr (s : string)
| PDict (d : dict).

(** Truth value of an object in an [if]. *)
Definition truthy (v : pyval) : bool :=
  match v with
  | PNone => false
  | PBool b => b
  | PStr s => negb (String.eqb s "")
  | PDict d => negb (bool_decide (d = []))
  end.

Inductive exn : Type :=
| KeyboardInterrupt
| Exception (class : string).

Definition is_Exception (e : exn) : bool :=
  match e with
  | KeyboardInterrupt => false
  | Exception _ => true
  end.

(** [str(x)] for a scalar, as [{{ x }}] prints it. *)
Definition str_of_scalar (v : scalar) : string :=
  match v with
  | VStr s => s
  | VBool true => "True"
  | VBool false => "False"
  end.

(** [dict(x)], which [Template.render(x)] applies to its argument: a
    mapping is copied, an empty string is an empty sequence of pairs, a
    non-empty string has elements of length 1, and [None] and booleans are
    not iterable. *)
Definition py_dict (v : pyval) : dict + exn :=
  match v with
  | PDict d => inl d
  | PStr s => if String.eqb s "" then inl [] else inr (Exception "ValueError")
  | PBool _ => inr (Exception "TypeError")
  | PNone => inr (Exception "TypeError")
  end.

Definition isinstance_dict (v : pyval) : bool :=
  match v with
  | PDict _ => true
  | _ => false
  end.

Definition is_None (v : pyval) : bool :=
  match v with
  | PNone => true
  | _ => false
  end.

End Py.

Module Fs.
Import Py.

(** An absolute path, as the list of its components. *)
Definition path : Type := list string.

Fixpoint split_slash (s : string) : list string :=
  match s with
  | EmptyString => [EmptyString]
  | String c s' =>
      if Ascii.eqb c "/" then EmptyString :: split_slash s'
      else match split_slash s' with
           | x :: xs => String c x :: xs
           | [] => [String c EmptyString]
           end
  end.

(** The components of a path string: empty components and [.] are dropped,
    as [pathlib] does. *)
Definition parts (s : string) : list string :=
  filter (λ c, c ≠ "" ∧ c ≠ ".") (split_slash s).

Definition is_absolute (s : string) : bool :=
  match s with
  | String c _ => Ascii.eqb c "/"
  | EmptyString => false
  end.

(** [Path(s)] for an absolute [s]. *)
Definition Path (s : string) : path := parts s.

(** [base.joinpath(s)]: an absolute [s] replaces [base]. *)
Definition joinpath (base : path) (s : string) : path :=
  if is_absolute s then Path s else base ++ parts s.

(** [p.parent]; the root is its own parent. *)
Definition parent (p : path) : path := removelast p.

(** [p.name] *)
Definition name (p : path) : string := List.last p "".

(** [str(p)] *)
Definition str (p : path) : string :=
  match p with
  | [] => "/"
  | _ => String.concat "" (map (λ c, "/" +:+ c) p)
  end.

Inductive node : Type :=
| File (content : string) (mode : Z)
| Dir (mode : Z).

(** Permission bits written in octal: [octal [7;7;5]] is [0o775]. *)
Definition octal (digits : list Z) : Z :=
  fold_left (λ acc d, 8 * acc + d)%Z digits 0%Z.


Abbreviation tree := (gmap path node).

(** The root directory always exists. *)
Definition lookup (fs : tree) (p : path) : option node :=
  if decide (p = []) then Some (Dir (octal [7; 5; 5]%Z)) else fs !! p.

Definition exists_ (fs : tree) (p : path) : bool :=
  match lookup fs p with Some _ => true | None => false end.

Definition is_file (fs : tree) (p : path) : bool :=
  match lookup fs p with Some (File _ _) => true | _ => false end.

Definition is_dir (fs : tree) (p : path) : bool :=
  match lookup fs p with Some (Dir _) => true | _ => false end.

(** [p.relative_to(d)], when [p] is [d] or lies below it. *)
Fixpoint relative_to (d p : path) : option path :=
  match d, p with
  | [], _ => Some p
  | x :: d', y :: p' => if decide (x = y) then relative_to d' p' else None
  | _ :: _, [] => None
  end.

(** [p] is [d] or lies below it. *)
Definition under (d p : path) : Prop := d `prefix_of` p.

(** Nothing is stored at [d] or below it. *)
Definition clear (d : path) (t : tree) : Prop :=
  map_Forall (λ p _, ¬ under d p) t.

(** [d] is on disk. *)
Definition stays (d : path) (t : tree) : Prop := exists_ t d = true.

(** [shutil.rmtree(d)]: [d] and everything below it disappear. *)
Definition rmtree (d : path) (fs : tree) : tree :=
  filter (λ kv, ¬ under d kv.1) fs.

End Fs.

Module Eff.
Import Py Fs.

Inductive stream : Type := Stdout | Stderr.

#[export] Instance stream_eq_dec : EqDecision stream.
Proof. solve_decision. Defined.

(** What a script run can change: the file system, the console, and the
    script's own variable [exit_code]; the process umask is read only. *)
Record state : Type := mkState {
  fs : tree;
  console : list (stream * string);
  umask : Z;
  exit_code : Z;
}.

Definition set_fs (f : tree) (st : state) : state :=
  mkState f (console st) (umask st) (exit_code st).
Definition add_console (x : stream * string) (st : state) : state :=
  mkState (fs st) (console st ++ [x]) (umask st) (exit_code st).
Definition set_exit_code (c : Z) (st : state) : state :=
  mkState (fs st) (console st) (umask st) c.

(** Ways a statement ends: normally, by [sys.exit(code)], or by raising. *)
Inductive res (A : Type) : Type :=
| Ret (a : A)
| Exit (code : Z)
| Raise (e : exn).
Arguments Ret {A} a.
Arguments Exit {A} code.
Arguments Raise {A} e.

Definition M (A : Type) : Type := state → res A * state.

Definition ret {A} (a : A) : M A := λ st, (Ret a, st).

Definition bind {A B} (m : M A) (k : A → M B) : M B :=
  λ st, match m st with
        | (Ret a, st') => k a st'
        | (Exit c, st') => (Exit c, st')
        | (Raise e, st') => (Raise e, st')
        end.

Declare Scope eff_scope.
Delimit Scope eff_scope with eff.
Bind Scope eff_scope with M.
Notation "x ← y ; z" := (bind y (λ x, z))
  (at level 20, y at level 100, z at level 200, only parsing) : eff_scope.
Notation "y ;; z" := (bind y (λ _, z))
  (at level 100, z at level 200, only parsing, right associativity) : eff_scope.

Definition sys_exit {A} (code : Z) : M A := λ st, (Exit code, st).
Definition raise {A} (e : exn) : M A := λ st, (Raise e, st).
Definition print (s : string) : M unit := λ st, (Ret tt, add_console (Stdout, s) st).
Definition eprint (s : string) : M unit := λ st, (Ret tt, add_console (Stderr, s) st).
Definition assign_exit_code (c : Z) : M unit := λ st, (Ret tt, set_exit_code c st).
Definition read_exit_code : M Z := λ st, (Ret (exit_code st), st).

(** [if b: body] *)
Definition when (b : bool) (body : M unit) : M unit :=
  if b then body else ret tt.

(** [for x in xs: body(x)] *)
Fixpoint for_each {A} (xs : list A) (body : A → M unit) : M unit :=
  match xs with
  | [] => ret tt
  | x :: xs' => bind (body x) (λ _, for_each xs' body)
  end.

(** [m] keeps a property of the file system, however it ends. *)
Definition preserves {A : Type} (P : tree → Prop) (m : M A) : Prop :=
  ∀ st, P (fs st) → P (fs (snd (m st))).

(** [m] leaves the file system as it is. *)
Definition reads_only {A : Type} (m : M A) : Prop :=
  ∀ st, fs (snd (m st)) = fs st.

(** When [m] ends normally, the file system satisfies [Q]. *)
Definition ensures {A : Type} (m : M A) (Q : tree → Prop) : Prop :=
  ∀ st, match m st with
        | (Ret _, st') => Q (fs st')
        | _ => True
        end.

(** ** File-system primitives *)

Definition default_file_mode (um : Z) : Z := Z.land (octal [6; 6; 6]%Z) (Z.lnot um).
Definition default_dir_mode (um : Z) : Z := Z.land (octal [7; 7; 7]%Z) (Z.lnot um).

Definition path_exists (p : path) : M bool := λ st, (Ret (exists_ (fs st) p), st).
Definition path_is_file (p : path) : M bool := λ st, (Ret (is_file (fs st) p), st).
Definition path_is_dir (p : path) : M bool := λ st, (Ret (is_dir (fs st) p), st).

(** Directories [done ++ [c1]], [done ++ [c1; c2]], ... are created when
    missing; the last one has to be new. *)
Fixpoint mkdir_prefixes (done : path) (todo : list string) (um : Z) (t : tree)
  : tree + exn :=
  match todo with
  | [] => inl t
  | c :: rest =>
      let p := done ++ [c] in
      match lookup t p, rest with
      | Some (Dir _), [] => inr (Exception "FileExistsError")
      | Some (Dir _), _ => mkdir_prefixes p rest um t
      | Some (File _ _), [] => inr (Exception "FileExistsError")
      | Some (File _ _), _ => inr (Exception "NotADirectoryError")
      | None, _ => mkdir_prefixes p rest um (<[p := Dir (default_dir_mode um)]> t)
      end
  end.

(** [p.mkdir(parents=True)] *)
Definition mkdir_parents (p : path) : M unit := λ st,
  match p with
  | [] => (Raise (Exception "FileExistsError"), st)
  | _ => match mkdir_prefixes [] p (umask st) (fs st) with
         | inl t => (Ret tt, set_fs t st)
         | inr e => (Raise e, st)
         end
  end.

(** Opening [p] for writing and storing [text]: the parent has to be a
    directory and [p] must not be one; a new file gets the default mode. *)
Definition write_text (p : path) (text : string) : M unit := λ st,
  match lookup (fs st) (parent p) with
  | Some (Dir _) =>
      match lookup (fs st) p with
      | Some (Dir _) => (Raise (Exception "IsADirectoryError"), st)
      | Some (File _ m) => (Ret tt, set_fs (<[p := File text m]> (fs st)) st)
      | None =>
          (Ret tt, set_fs (<[p := File text (default_file_mode (umask st))]> (fs st)) st)
      end
  | Some (File _ _) => (Raise (Exception "NotADirectoryError"), st)
  | None => (Raise (Exception "FileNotFoundError"), st)
  end.

(** Reading the text of a regular file. *)
Definition read_text (p : path) : M string := λ st,
  match lookup (fs st) p with
  | Some (File c _) => (Ret c, st)
  | Some (Dir _) => (Raise (Exception "IsADirectoryError"), st)
  | None => (Raise (Exception "FileNotFoundError"), st)
  end.

(** [p.chmod(mode)] *)
Definition chmod (p : path) (mode : Z) : M unit := λ st,
  match lookup (fs st) p with
  | Some (File c _) => (Ret tt, set_fs (<[p := File c mode]> (fs st)) st)
  | Some (Dir _) =>
      match p with
      | [] => (Raise (Exception "PermissionError"), st)
      | _ => (Ret tt, set_fs (<[p := Dir mode]> (fs st)) st)
      end
  | None => (Raise (Exception "FileNotFoundError"), st)
  end.

(** [shutil.copy2(src, dst)]: the content and the permission bits of [src]
    are copied; a [dst] that is a directory receives the file under the
    name of [src]. *)
Definition copy2 (src dst : path) : M unit := λ st,
  match lookup (fs st) src with
  | Some (File c m) =>
      let target := if is_dir (fs st) dst then dst ++ [name src] else dst in
      if decide (target = src) then (Raise (Exception "SameFileError"), st)
      else match write_text target c st with
           | (Ret _, st') => chmod target m st'
           | other => other
           end
  | Some (Dir _) => (Raise (Exception "IsADirectoryError"), st)
  | None => (Raise (Exception "FileNotFoundError"), st)
  end.

(** [p.touch()]: an existing object is kept as it is. *)
Definition touch (p : path) : M unit := λ st,
  match lookup (fs st) p with
  | Some _ => (Ret tt, st)
  | None => write_text p "" st
  end.

(** [shutil.copytree(src, dst, copy_function=shutil.copy2)]: [dst] has to
    be new; every object at or below [src] is reproduced, with its
    permission bits, at the same place relative to [dst]. *)
Definition graft (src dst : path) (t : tree) : tree :=
  map_fold (λ p n acc,
              match relative_to src p with
              | Some rel => <[dst ++ rel := n]> acc
              | None => acc
              end) t t.

Definition copytree (src dst : path) : M unit := λ st,
  if exists_ (fs st) dst then (Raise (Exception "FileExistsError"), st)
  else match lookup (fs st) (parent dst) with
       | Some (Dir _) => (Ret tt, set_fs (graft src dst (fs st)) st)
       | Some (File _ _) => (Raise (Exception "NotADirectoryError"), st)
       | None => (Raise (Exception "FileNotFoundError"), st)
       end.

End Eff.

(* ===================================================================== *)
(** * The template engine                                                *)
(* ===================================================================== *)

Module Jinja2.
Import Py.

(** What the engine does with a name that the context does not define. *)
Inductive undefined_policy : Type :=
| Undefined          (* the default: prints as the empty string *)
| StrictUndefined.   (* raises [UndefinedError] *)

(** [Environment(loader=..., trim_blocks=..., lstrip_blocks=...,
    undefined=...)]; the last argument defaults to [Undefined]. *)
Record Environment : Type := mkEnvironment {
  trim_blocks : bool;
  lstrip_blocks : bool;
  undefined : undefined_policy;
}.

Definition default_undefined : undefined_policy := Undefined.

Definition is_ident_char (c : ascii) : bool :=
  (Ascii.leb "a" c && Ascii.leb c "z") || (Ascii.leb "A" c && Ascii.leb c "Z")
  || (Ascii.leb "0" c && Ascii.leb c "9") || Ascii.eqb c "_".

Fixpoint all_chars (p : ascii → bool) (s : string) : bool :=
  match s with
  | EmptyString => true
  | String c s' => p c && all_chars p s'
  end.

Fixpoint drop_spaces (s : string) : string :=
  match s with
  | String " " s' => drop_spaces s'
  | _ => s
  end.

Definition trim (s : string) : string :=
  String.rev (drop_spaces (String.rev (drop_spaces s))).

Definition is_name (s : string) : bool :=
  match s with
  | EmptyString => false
  | String c _ =>
      negb (Ascii.leb "0" c && Ascii.leb c "9") && all_chars is_ident_char s
      && negb (bool_decide (s ∈ ["true"; "false"; "none"; "True"; "False"; "None"]))
  end.

Definition get (d : dict) (k : string) : option scalar :=
  snd <$> List.find (λ kv, String.eqb (fst kv) k) d.

Definition prepend (s : string) (r : string + exn) : string + exn :=
  match r with
  | inl t => inl (s +:+ t)
  | inr e => inr e
  end.

(** The fragment of the template language that is modelled: literal text
    and [{{ name }}]. Statements, comments and other expressions are
    reported as ["Unsupported"]. [cur] holds the text read since an
    opening [{{]. *)
Fixpoint expand (pol : undefined_policy) (ctx : dict) (cur : option string)
    (s : string) : string + exn :=
  match s with
  | EmptyString =>
      match cur with
      | None => inl EmptyString
      | Some _ => inr (Exception "TemplateSyntaxError")
      end
  | String c s' =>
      match cur with
      | None =>
          match c, s' with
          | "{"%char, String "{" s'' => expand pol ctx (Some EmptyString) s''
          | "{"%char, String "%" _ => inr (Exception "Unsupported")
          | "{"%char, String "#" _ => inr (Exception "Unsupported")
          | _, _ => prepend (String c EmptyString) (expand pol ctx None s')
          end
      | Some acc =>
          match c, s' with
          | "}"%char, String "}" s'' =>
              let n := trim acc in
              if is_name n then
                match get ctx n, pol with
                | Some v, _ => prepend (str_of_scalar v) (expand pol ctx None s'')
                | None, Undefined => expand pol ctx None s''
                | None, StrictUndefined => inr (Exception "UndefinedError")
                end
              else inr (Exception "Unsupported")
          | _, _ => expand pol ctx (Some (acc +:+ String c EmptyString)) s'
          end
      end
  end.

(** A single newline at the end of the template is dropped
    ([keep_trailing_newline] is off by default). *)
Definition drop_final_newline (s : string) : string :=
  match String.rev s with
  | String "010" r => String.rev r
  | _ => s
  end.

(** [env.get_template(...).render(context)] on the text of the template. *)
Definition render (env : Environment) (source : string) (context : dict)
  : string + exn :=
  expand (undefined env) context None (drop_final_newline source).

End Jinja2.

(* ===================================================================== *)
(** * The context stagers                                                *)
(* ===================================================================== *)

Module Stager.
Import Py Fs Eff.
Local Open Scope eff_scope.

(** A manifest: a Python [dict] from destination names to items, in
    insertion order. *)
Definition manifest : Type := list (string * list pyval).

Definition keys (items : manifest) : list string := fst <$> items.

(** [sorted(items.keys())]: strings are compared character by character. *)
Definition sorted_keys (items : manifest) : list string :=
  merge_sort String.le (keys items).

(** [items[key]] *)
Definition getitem (items : manifest) (key : string) : M (list pyval) :=
  match List.find (λ kv, String.eqb (fst kv) key) items with
  | Some kv => ret (snd kv)
  | None => raise (Exception "KeyError")
  end.

(** [item[i]] *)
Definition index (item : list pyval) (i : nat) : M pyval :=
  match item !! i with
  | Some v => ret v
  | None => raise (Exception "IndexError")
  end.

Definition quote (p : path) : string := "'" +:+ str p +:+ "'".

Section WithEngine.

(** The template engine, as configured by the scripts, maps the text of a
    template and a context to the rendered text or to an exception. *)
Variable engine : string → dict → string + exn.

(** The directory of the script. *)
Variable root_path : path.

(** [jinja2_env.get_template(src_path.name).render(context)], the loader
    being rooted at [src_path.parent]. *)
Definition render_template (src_path : path) (context : pyval) : M string :=
  source ← read_text src_path;
  match py_dict context with
  | inr e => raise e
  | inl d =>
      match engine source d with
      | inl text => ret text
      | inr e => raise e
      end
  end.

(** [if not p.exists(): p.mkdir(parents=True)] *)
Definition mkdir_if_missing (p : path) : M unit :=
  p_exists ← path_exists p;
  when (negb p_exists) (mkdir_parents p).

(** [if flag: dst_path.chmod(0o775) else: dst_path.chmod(0o664)] *)
Definition chmod_by_flag (dst_path : path) (flag : pyval) : M unit :=
  if truthy flag then chmod dst_path (octal [7; 7; 5]%Z)
  else chmod dst_path (octal [6; 6; 4]%Z).

(** ** [ros_base_imgs/build.py], the body of the staging loop *)

Definition build_stage_entry (context_dir : path) (items_to_use : manifest)
    (key : string) : M unit :=
  let dst_path := joinpath context_dir key in
  item ← getitem items_to_use key;
  item0 ← index item 0;
  src_path ← match item0 with
              | PStr s => ret (if is_absolute s then Path s else joinpath root_path s)
              | _ => raise (Exception "AttributeError")
              end;
  src_exists ← path_exists src_path;
  when (negb src_exists)
    (print ("Required resource " +:+ quote src_path +:+ " does not exist.");;
     sys_exit 1);;
  src_is_file ← path_is_file src_path;
  when (negb src_is_file)
    (print ("Required resource " +:+ quote src_path +:+ " is not a file.");;
     sys_exit 1);;
  mkdir_if_missing (parent dst_path);;
  print ("Creating file " +:+ quote dst_path +:+ ".");;
  if (List.length item =? 2)%nat then
    copy2 src_path dst_path;;
    item1 ← index item 1;
    chmod_by_flag dst_path item1
  else if (List.length item =? 3)%nat then
    context ← index item 1;
    when (is_None context)
      (print ("Context for Jinja2 rendering can't be None for element "
              +:+ quote dst_path +:+ ".");;
       sys_exit 1);;
    when (negb (isinstance_dict context))
      (print ("Context for Jinja2 rendering must be a dictionary for element "
              +:+ quote dst_path +:+ ".");;
       sys_exit 1);;
    mkdir_if_missing (parent dst_path);;
    rendered_text ← render_template src_path context;
    write_text dst_path rendered_text;;
    item2 ← index item 2;
    chmod_by_flag dst_path item2
  else ret tt.

(** [for key in sorted(items_to_use.keys()): ...] *)
Definition build_stage (context_dir : path) (items_to_use : manifest) : M unit :=
  for_each (sorted_keys items_to_use) (build_stage_entry context_dir items_to_use).

(** ** [ros_base_imgs/create_docker_files.py], [install_items] *)

Definition install_entry (context_dir : path) (items_to_install : manifest)
    (key : string) : M unit :=
  let dst_path := joinpath context_dir key in
  item ← getitem items_to_install key;
  item0 ← index item 0;
  src_path ← (if is_None item0 then ret None
               else match item0 with
                    | PStr s =>
                        let src_path := joinpath root_path s in
                        src_exists ← path_exists src_path;
                        when (negb src_exists)
                          (print ("Required resource " +:+ quote src_path
                                  +:+ " does not exist.");;
                           sys_exit 1);;
                        ret (Some src_path)
                    | _ => raise (Exception "TypeError")
                    end);
  if (List.length item =? 1)%nat then
    print ("Creating directory " +:+ quote dst_path);;
    match src_path with
    | Some src_path =>
        src_is_dir ← path_is_dir src_path;
        when (negb src_is_dir)
          (print ("Required resource " +:+ quote src_path +:+ " is not a directory.");;
           sys_exit 1);;
        mkdir_if_missing (parent dst_path);;
        copytree src_path dst_path;;
        chmod dst_path (octal [7; 7; 5]%Z)
    | None => mkdir_parents dst_path
    end
  else if (List.length item =? 2)%nat then
    print ("Creating file " +:+ quote dst_path);;
    match src_path with
    | Some src_path =>
        src_is_file ← path_is_file src_path;
        when (negb src_is_file)
          (print ("Required resource " +:+ quote src_path +:+ " is not a file.");;
           sys_exit 1);;
        mkdir_if_missing (parent dst_path);;
        copy2 src_path dst_path
    | None => touch dst_path
    end;;
    item1 ← index item 1;
    chmod_by_flag dst_path item1
  else if (List.length item =? 3)%nat then
    print ("Creating file " +:+ quote dst_path);;
    match src_path with
    | None =>
        print ("Relative source path can't be empty for element "
               +:+ quote dst_path +:+ ".");;
        sys_exit 1
    | Some src_path =>
        src_is_file ← path_is_file src_path;
        when (negb src_is_file)
          (print ("Required resource " +:+ quote src_path +:+ " is not a file.");;
           sys_exit 1);;
        context ← index item 1;
        when (is_None context)
          (print ("Context for Jinja2 rendering can't be None for element "
                  +:+ quote dst_path +:+ "."));;
        when (negb (isinstance_dict context))
          (print ("Context for Jinja2 rendering must be a dictionary for element "
                  +:+ quote dst_path +:+ "."));;
        mkdir_if_missing (parent dst_path);;
        rendered_text ← render_template src_path context;
        write_text dst_path rendered_text;;
        item2 ← index item 2;
        chmod_by_flag dst_path item2
    end
  else ret tt.

(** [for key in sorted(items_to_install.keys()): ...] *)
Definition install_items (items_to_install : manifest) (context_dir : path)
  : M unit :=
  for_each (sorted_keys items_to_install)
           (install_entry context_dir items_to_install).

End WithEngine.

End Stager.

(* ===================================================================== *)
(** * String helpers of the scripts                                      *)
(* ===================================================================== *)

Module Str.

Definition is_space (c : ascii) : bool :=
  let n := N_of_ascii c in
  ((9 <=? n) && (n <=? 13) || (28 <=? n) && (n <=? 32)
   || (n =? 133) || (n =? 160))%N.

Fixpoint lstrip (s : string) : string :=
  match s with
  | String c s' => if is_space c then lstrip s' else s
  | EmptyString => s
  end.

(** [s.strip()] *)
Definition strip (s : string) : string :=
  String.rev (lstrip (String.rev (lstrip s))).

Definition lower_char (c : ascii) : ascii :=
  let n := N_of_ascii c in
  if ((65 <=? n) && (n <=? 90)
      || (192 <=? n) && (n <=? 222) && negb (n =? 215))%N
  then ascii_of_N (n + 32) else c.

(** [s.lower()] *)
Fixpoint lower (s : string) : string :=
  match s with
  | String c s' => String (lower_char c) (lower s')
  | EmptyString => EmptyString
  end.

(** [s.replace(a, b)] for one-character [a] and [b]. *)
Fixpoint replace (a b : ascii) (s : string) : string :=
  match s with
  | String c s' => String (if Ascii.eqb c a then b else c) (replace a b s')
  | EmptyString => EmptyString
  end.

(** [c in s] for a character [c]. *)
Fixpoint contains (c : ascii) (s : string) : bool :=
  match s with
  | String d s' => Ascii.eqb c d || contains c s'
  | EmptyString => false
  end.

(** The lines of a text as iterating over an open text file yields them:
    each line keeps its final newline. *)
Fixpoint lines_from (cur : string) (s : string) : list string :=
  match s with
  | EmptyString =>
      match cur with
      | EmptyString => []
      | _ => [String.rev cur]
      end
  | String c s' =>
      if Ascii.eqb c Regex.newline
      then String.rev (String c cur) :: lines_from EmptyString s'
      else lines_from (String c cur) s'
  end.

Definition lines (s : string) : list string := lines_from EmptyString s.

(** Text streams are read with universal newlines: a carriage return,
    alone or before a newline, is read as a newline. *)
Fixpoint universal_newlines (s : string) : string :=
  match s with
  | EmptyString => EmptyString
  | String c s' =>
      if Ascii.eqb c "013" then
        match s' with
        | String d s'' =>
            if Ascii.eqb d Regex.newline
            then String Regex.newline (universal_newlines s'')
            else String Regex.newline (universal_newlines s')
        | EmptyString => String Regex.newline EmptyString
        end
      else String c (universal_newlines s')
  end.

(** [for line in f], [f] a text stream over [raw]. *)
Definition read_lines (raw : string) : list string :=
  lines (universal_newlines raw).

(** [" ".join(xs)] *)
Definition join (sep : string) (xs : list string) : string := String.concat sep xs.

End Str.

(* ===================================================================== *)
(** * The environment of a run                                           *)
(* ===================================================================== *)

Module World.
Import Py Fs Eff.
Local Open Scope eff_scope.

(** What [docker image inspect img] does: the program cannot be started,
    and [subprocess.run] raises, or it ends with a return code. *)
Inductive inspect_run : Type :=
| InspectFails (e : exn)
| InspectExited (returncode : Z).

(** What the external build engine does once the command is issued. *)
Inductive engine_run : Type :=
| LaunchFails (e : exn)                    (* [subprocess.Popen] raises *)
| Interrupted (output : string)            (* Ctrl-C while the output is read *)
| Exited (output : string) (returncode : Z).

Record world : Type := mkWorld {
  (** the fresh name picked by [tempfile] after the prefix *)
  tmp_suffix : string;
  (** [datetime.now(timezone.utc)] as [strftime] and [isoformat] print it *)
  now_stamp : string;
  now_iso : string;
  (** behaviour of [docker image inspect img] *)
  inspect : string → inspect_run;
  (** behaviour of [docker build] *)
  build_run : engine_run;
  (** whether [unlink] on a path raises [OSError] *)
  unlink_fails : path → bool;
  (** the working directory, against which [resolve()] completes a path *)
  cwd : path;
  (** [os.getuid()] and [os.getgid()], printed *)
  uid : string;
  gid : string;
}.

(** [Path(s).expanduser().resolve()] *)
Definition resolve (w : world) (s : string) : path := joinpath (cwd w) s.

(** [run_command(cmd, capture=True, check=False).returncode == 0] for
    [cmd = ["docker", "image", "inspect", img]]: with [check=False] a
    return code other than 0 does not raise; a program that cannot be
    started raises all the same. *)
Definition img_exists_locally (w : world) (img : string) : M bool :=
  match inspect w img with
  | InspectFails e => raise e
  | InspectExited returncode => ret (returncode =? 0)%Z
  end.

(** The name of the temporary context directory of a run. *)
Definition context_of (w : world) : path := ["tmp"; "context_" +:+ tmp_suffix w].

(** [tempfile.mkdtemp(prefix="context_", dir="/tmp")]: a new directory,
    readable and writable by the owner only. *)
Definition mkdtemp (w : world) : M path := λ st,
  let d := context_of w in
  match lookup (fs st) ["tmp"], lookup (fs st) d with
  | Some (Dir _), None =>
      (Ret d, set_fs (<[d := Dir (octal [7; 0; 0]%Z)]> (fs st)) st)
  | Some (Dir _), Some _ => (Raise (Exception "FileExistsError"), st)
  | Some (File _ _), _ => (Raise (Exception "NotADirectoryError"), st)
  | None, _ => (Raise (Exception "FileNotFoundError"), st)
  end.

(** [with tempfile.TemporaryDirectory(prefix="context_", dir="/tmp") as d:
    body]: the directory is removed, with all it holds, however the body
    ends. *)
Definition with_TemporaryDirectory {A} (w : world) (body : path → M A) : M A :=
  λ st,
  match mkdtemp w st with
  | (Ret d, st1) =>
      let '(r, st2) := body d st1 in
      (r, set_fs (rmtree d (fs st2)) st2)
  | (Exit c, st1) => (Exit c, st1)
  | (Raise e, st1) => (Raise e, st1)
  end.

(** [p.unlink()] and [p.unlink(missing_ok=True)] *)
Definition unlink (w : world) (missing_ok : bool) (p : path) : M unit := λ st,
  if unlink_fails w p then (Raise (Exception "OSError"), st)
  else match lookup (fs st) p with
       | Some (File _ _) => (Ret tt, set_fs (delete p (fs st)) st)
       | Some (Dir _) => (Raise (Exception "OSError"), st)
       | None => if missing_ok then (Ret tt, st)
                 else (Raise (Exception "OSError"), st)
       end.

(** The classes below [OSError] that the model raises. *)
Definition is_OSError (e : exn) : bool :=
  match e with
  | KeyboardInterrupt => false
  | Exception cls =>
      bool_decide (cls ∈ ["OSError"; "FileNotFoundError"; "FileExistsError";
                          "NotADirectoryError"; "IsADirectoryError";
                          "PermissionError"; "SameFileError"])
  end.

(** [try: body except OSError as e: handler] *)
Definition try_except_OSError (body handler : M unit) : M unit := λ st,
  match body st with
  | (Raise e, st') => if is_OSError e then handler st' else (Raise e, st')
  | other => other
  end.

(** The frame around the pipeline:
    [try: body
     except KeyboardInterrupt: print("Aborted by user (Ctrl-C)")
     except Exception as e: print(f"Error: {e}")
     finally: sys.exit(exit_code)]
    The message of an exception is rendered by its class name. *)
Definition try_finally_exit (body : M unit) : M unit := λ st,
  let '(r, st1) := body st in
  let st2 :=
    match r with
    | Raise KeyboardInterrupt => add_console (Stdout, "Aborted by user (Ctrl-C)") st1
    | Raise (Exception cls) => add_console (Stdout, "Error: " +:+ cls) st1
    | _ => st1
    end in
  (Exit (exit_code st2), st2).

End World.

(* ===================================================================== *)
(** * Running the build and keeping its logs                             *)
(* ===================================================================== *)

Module Logs.
Import Py Fs Eff World.
Local Open Scope eff_scope.

(** [f.write(line)] on a file opened before. *)
Definition append_text (p : path) (line : string) : M unit := λ st,
  match lookup (fs st) p with
  | Some (File c m) => (Ret tt, set_fs (<[p := File (c +:+ line) m]> (fs st)) st)
  | _ => (Raise (Exception "OSError"), st)
  end.

(** [p.stat().st_size] *)
Definition stat_size (p : path) : M nat := λ st,
  match lookup (fs st) p with
  | Some (File c _) => (Ret (String.length c), st)
  | Some (Dir _) => (Ret 4096%nat, st)
  | None => (Raise (Exception "FileNotFoundError"), st)
  end.

(** [for line in fin: if specific_log_pattern.search(line):
       fout.write(line); matches += 1] *)
Fixpoint copy_matching (ls : list string) (fout : path) (matches : nat) : M nat :=
  match ls with
  | [] => ret matches
  | line :: rest =>
      if LogPattern.selected line
      then append_text fout line;; copy_matching rest fout (S matches)
      else copy_matching rest fout matches
  end.

(** [exit_code = exit_code if exit_code != 0 else 1], after the report. *)
Definition report_unlink_error : M unit :=
  eprint "Error: Could not remove log file";;
  c ← read_exit_code;
  assign_exit_code (if (c =? 0)%Z then 1%Z else c).

(** The block that starts at [if complete_log_file.exists():]. *)
Definition filter_logs (w : world) (complete_log_file specific_log_file : path)
  : M unit :=
  complete_exists ← path_exists complete_log_file;
  if complete_exists then
    size ← stat_size complete_log_file;
    if (0 <? size)%nat then
      print ("Log file " +:+ Stager.quote complete_log_file +:+ " is ready");;
      content ← read_text complete_log_file;
      write_text specific_log_file "";;
      matches ← copy_matching (Str.read_lines content) specific_log_file 0;
      if (matches =? 0)%nat then
        print "No matching specific log lines found.";;
        try_except_OSError (unlink w false specific_log_file) report_unlink_error
      else
        print ("Specific log file " +:+ Stager.quote specific_log_file +:+ " is ready.")
    else
      try_except_OSError (unlink w true complete_log_file) report_unlink_error
  else
    print ("Log file " +:+ Stager.quote complete_log_file +:+ " does not exist.").

(** [for line in process.stdout: print(line, end="", flush=True);
     full_log.write(line)] *)
Definition tee (output : string) (complete_log_file : path) : M unit :=
  for_each (Str.read_lines output)
           (λ line, print line;; append_text complete_log_file line).

(** The block [with subprocess.Popen(cmd, stdout=PIPE, stderr=STDOUT, ...)
    as process, open(complete_log_file, "w") as full_log: ...].
    Since [stderr] is redirected into [stdout], [process.stderr] is [None]
    and the report of a failure, which calls [process.stderr.strip()],
    raises [AttributeError]. *)
Definition run_and_log (w : world) (img_id_to_build : string)
    (complete_log_file specific_log_file : path) : M unit :=
  match build_run w with
  | LaunchFails e => raise e
  | Interrupted output =>
      write_text complete_log_file "";;
      tee output complete_log_file;;
      raise KeyboardInterrupt
  | Exited output returncode =>
      write_text complete_log_file "";;
      tee output complete_log_file;;
      assign_exit_code returncode;;
      (if (returncode =? 0)%Z then
         print ("Docker build process ended with SUCCESS for the image '"
                +:+ img_id_to_build +:+ "'")
       else raise (Exception "AttributeError"));;
      filter_logs w complete_log_file specific_log_file
  end.

(** The names of the two logs. *)
Definition log_prefix (w : world) (img_id_to_build : string) : string :=
  let img_id_sanitized := Str.replace "/" "_" (Str.replace ":" "_" img_id_to_build) in
  "build_img_" +:+ img_id_sanitized +:+ "_" +:+ now_stamp w.

Definition log_dir : path := Path "/tmp".

Definition complete_log (w : world) (img_id_to_build : string) : path :=
  joinpath log_dir (log_prefix w img_id_to_build +:+ "_complete.log").

Definition specific_log (w : world) (img_id_to_build : string) : path :=
  joinpath log_dir (log_prefix w img_id_to_build +:+ "_specific.log").

End Logs.

(* ===================================================================== *)
(** * [ros_base_imgs/build.py]                                           *)
(* ===================================================================== *)

Module RosBaseBuild.
Import Py Fs Eff World Stager Logs.
Local Open Scope eff_scope.

(** The parsed command line. *)
Record args : Type := mkArgs {
  cache : bool;
  pull : bool;
  base_img : option string;
  img_user : string;
  ros_distro : string;
  img_id : string;
  use_base_img_entrypoint : bool;
  entrypoint : option string;
  no_environment : bool;
  environment : option string;
  meta_title : string;
  meta_desc : string;
  meta_authors : string;
}.

(** [ROS_DISTROS], each value already split at its colon into the ROS
    version and the Ubuntu version. *)
Definition ROS_DISTROS : list (string * (string * string)) :=
  [("noetic", ("1", "20.04")); ("humble", ("2", "22.04")); ("jazzy", ("2", "24.04"))].

Definition distro (name : string) : option (string * string) :=
  snd <$> List.find (λ kv, String.eqb (fst kv) name) ROS_DISTROS.

(** [items[key] = item] *)
Fixpoint setitem (items : manifest) (key : string) (item : list pyval) : manifest :=
  match items with
  | [] => [(key, item)]
  | (k, v) :: rest =>
      if String.eqb k key then (k, item) :: rest
      else (k, v) :: setitem rest key item
  end.

(** Whether a custom script given on the command line can be used. *)
Definition usable_file (p : path) : M bool :=
  is_f ← path_is_file p;
  if is_f then size ← stat_size p; ret (negb (size =? 0)%nat) else ret false.

Section WithScript.

Variable engine : string → dict → string + exn.
Variable root_path : path.

(** The manifest [items_to_use]. *)
Definition make_items_to_use (w : world) (a : args)
    (ros_distro ros_version : string) (use_environment : bool)
    (ros_packages extra_ros_env_vars : string) : M manifest :=
  let items_to_use : manifest :=
    [("Dockerfile",
      [PStr "Dockerfile.j2";
       PDict [("use_base_img_entrypoint", VBool (use_base_img_entrypoint a));
              ("use_environment", VBool use_environment);
              ("extra_ros_env_vars", VStr extra_ros_env_vars)];
       PBool false]);
     ("deduplicate_path.sh", [PStr "deduplicate_path.sh"; PBool true]);
     ("dot_bash_aliases", [PStr "dot_bash_aliases"; PBool true]);
     ("install_base_system.sh", [PStr "install_base_system.sh"; PBool true]);
     ("install_ros.sh",
      [PStr "install_ros.j2";
       PDict [("use_environment", VBool use_environment);
              ("ros_packages", VStr ros_packages)];
       PBool true]);
     ("rosbuild.sh", [PStr ("ros" +:+ ros_version +:+ "build.sh"); PBool true]);
     ("rosdep_init_update.sh", [PStr "rosdep_init_update.sh"; PBool true])] in
  let items_to_use :=
    if String.eqb ros_version "2" then
      setitem
        (setitem items_to_use "colcon_mixin_metadata.sh"
                 [PStr "colcon_mixin_metadata.sh"; PBool true])
        "rosdep_ignored_keys.yaml" [PStr "rosdep_ignored_keys_ros2.yaml"; PBool false]
    else items_to_use in
  items_to_use ←
    (if negb (use_base_img_entrypoint a) then
       match entrypoint a with
       | Some e =>
           let entrypoint := resolve w e in
           ok ← usable_file entrypoint;
           when (negb ok)
             (print ("Custom entrypoint file " +:+ quote entrypoint +:+ " not found.");;
              sys_exit 1);;
           ret (setitem items_to_use "entrypoint.sh" [PStr (str entrypoint); PBool true])
       | None =>
           ret (setitem items_to_use "entrypoint.sh" [PStr "entrypoint.sh"; PBool true])
       end
     else ret items_to_use);
  if use_environment then
    match environment a with
    | Some e =>
        let environment := resolve w e in
        ok ← usable_file environment;
        when (negb ok)
          (print ("Custom environment file " +:+ quote environment +:+ " not found.");;
           sys_exit 1);;
        ret (setitem items_to_use "environment.sh" [PStr (str environment); PBool true])
    | None =>
        ret (setitem items_to_use "environment.sh"
               [PStr ("environment_ros" +:+ ros_version +:+ ".j2");
                PDict [("ros_distro", VStr ros_distro)];
                PBool true])
    end
  else ret items_to_use.

(** The three notices of the branch on [args.pull]. *)
Definition missing_notice (base_img : string) : string :=
  "Base image '" +:+ base_img
  +:+ "' not found locally. Docker build will attempt to pull it".

Definition pull_notice (base_img : string) : string :=
  "--pull specified. Docker build will attempt to pull/update base image '"
  +:+ base_img +:+ "'".

Definition local_notice (base_img : string) : string :=
  "Using local base image '" +:+ base_img +:+ "'".

(** The three-way branch on [args.pull]. In
    [not args.pull and not img_exists_locally(base_img)] the right operand
    is evaluated, and the inspect query issued, only when no pull was
    asked for. *)
Definition pull_branch (w : world) (pull : bool) (base_img : string)
    (cmd : list string) : M (list string) :=
  absent ← (if negb pull
            then found ← img_exists_locally w base_img; ret (negb found)
            else ret false);
  if absent then
    print (missing_notice base_img);;
    ret cmd
  else if pull then
    print (pull_notice base_img);;
    ret (cmd ++ ["--pull"])
  else
    print (local_notice base_img);;
    ret cmd.

(** [for k, v in d.items(): cmd += [flag, f"{k}={v}"]] *)
Definition flags (flag : string) (d : list (string * string)) : list string :=
  flat_map (λ kv, [flag; fst kv +:+ "=" +:+ snd kv]) d.

(** The dictionary [build_args], in the order it is written. *)
Definition build_args (base_img requested_user requested_user_home
                       ros_distro ros_version : string) : list (string * string) :=
  [("BASE_IMG", base_img);
   ("REQUESTED_USER", requested_user);
   ("REQUESTED_USER_HOME", requested_user_home);
   ("ROS_DISTRO", ros_distro);
   ("ROS_VERSION", ros_version)].

(** The dictionary [labels], in the order it is written. *)
Definition labels (w : world) (a : args) : list (string * string) :=
  [("org.opencontainers.image.created", now_iso w);
   ("org.opencontainers.image.title", Str.strip (meta_title a));
   ("org.opencontainers.image.authors", Str.strip (meta_authors a));
   ("org.opencontainers.image.description", Str.strip (meta_desc a))].

(** The command line, from [cmd = [...]] to [cmd.append(str(context_dir))]. *)
Definition make_cmd (w : world) (a : args) (context_dir : path)
    (base_img requested_user requested_user_home ros_distro ros_version
     img_id_to_build : string) : M (list string) :=
  let cmd := ["docker"; "build"; "--file"; str (joinpath context_dir "Dockerfile");
              "--progress=plain"] in
  cmd ← pull_branch w (pull a) base_img cmd;
  let cmd := if negb (cache a) then cmd ++ ["--no-cache"] else cmd in
  let cmd := cmd ++ flags "--build-arg"
                      (build_args base_img requested_user requested_user_home
                                  ros_distro ros_version) in
  let cmd := cmd ++ flags "--label" (labels w a) in
  let cmd := cmd ++ ["--tag"; img_id_to_build] in
  ret (cmd ++ [str context_dir]).

(** The body of [with tempfile.TemporaryDirectory(...) as tmp_dir:]. *)
Definition pipeline (w : world) (a : args) (items_to_use : manifest)
    (base_img requested_user requested_user_home ros_distro ros_version
     img_id_to_build : string) (context_dir : path) : M unit :=
  print ("Created temporary context directory " +:+ quote context_dir +:+ ".");;
  build_stage engine root_path context_dir items_to_use;;
  cmd ← make_cmd w a context_dir base_img requested_user requested_user_home
                 ros_distro ros_version img_id_to_build;
  let complete_log_file := complete_log w img_id_to_build in
  let specific_log_file := specific_log w img_id_to_build in
  print ("Building the Docker image '" +:+ img_id_to_build
         +:+ "', using the base image '" +:+ base_img
         +:+ "', with active user '" +:+ requested_user
         +:+ "' and 'ROS" +:+ ros_version +:+ "-" +:+ ros_distro +:+ "'");;
  print "Executing command:";;
  print (Str.join " " cmd);;
  run_and_log w img_id_to_build complete_log_file specific_log_file.

(** A text file that has to exist and to hold more than white space. *)
Definition read_required (p : path) : M string :=
  is_f ← path_is_file p;
  when (negb is_f) (print ("File " +:+ quote p +:+ " not found.");; sys_exit 1);;
  text ← read_text p;
  when (String.eqb (Str.strip text) "")
    (print ("File " +:+ quote p +:+ " is empty.");; sys_exit 1);;
  ret text.

(** The script from [args = parser.parse_args()] to its end. *)
Definition main (w : world) (a : args) : M unit :=
  let base_img := match base_img a with Some s => Str.strip s | None => "" end in
  let requested_user := Str.strip (img_user a) in
  let requested_user_home :=
    if String.eqb requested_user "root" then "/root" else "/home/" +:+ requested_user in
  let ros_distro := Str.lower (ros_distro a) in
  let img_id_to_build := Str.strip (img_id a) in
  let use_environment := negb (no_environment a) in
  match distro ros_distro with
  | None =>
      (* the list of the allowed distros follows in the message *)
      print ("Error: Invalid ROS distro '" +:+ ros_distro +:+ "'. Allowed: ");;
      sys_exit 1
  | Some (ros_version, ubuntu_version) =>
      base_img ←
        (if String.eqb base_img "" then
           let base_img := "ubuntu:" +:+ ubuntu_version in
           when (negb (ImageName.is_valid_docker_img_name base_img))
             (eprint ("Error: Default base image '" +:+ base_img +:+ "' is invalid.");;
              sys_exit 1);;
           print ("No base image specified, defaulting to '" +:+ base_img
                  +:+ "' for 'ROS" +:+ ros_version +:+ "-" +:+ ros_distro +:+ "'");;
           ret base_img
         else
           when (negb (ImageName.is_valid_docker_img_name base_img))
             (eprint ("Error: Invalid Docker base image name: '" +:+ base_img +:+ "'");;
              sys_exit 1);;
           ret base_img);
      when (negb (ImageName.is_valid_docker_img_name img_id_to_build))
        (eprint ("Error: Invalid Docker image name: '" +:+ img_id_to_build +:+ "'");;
         sys_exit 1);;
      when (String.eqb requested_user "" || Str.contains " " requested_user)
        (eprint ("Error: Invalid user '" +:+ requested_user
                 +:+ "'. No whitepaces allowed");;
         sys_exit 1);;
      ros_packages ←
        read_required (joinpath root_path ("packages_ros" +:+ ros_version +:+ ".txt"));
      extra_ros_env_vars ←
        read_required (joinpath root_path ("env_vars_ros" +:+ ros_version +:+ ".txt"));
      items_to_use ← make_items_to_use w a ros_distro ros_version use_environment
                                       ros_packages extra_ros_env_vars;
      assign_exit_code 1;;
      try_finally_exit
        (with_TemporaryDirectory w
           (pipeline w a items_to_use base_img requested_user requested_user_home
                     ros_distro ros_version img_id_to_build))
  end.

End WithScript.

End RosBaseBuild.

(* ===================================================================== *)
(** * [sensor_imgs/build.py]                                             *)
(* ===================================================================== *)

Module SensorBuild.
Import Py Fs Eff World Stager Logs.
Local Open Scope eff_scope.

Record args : Type := mkArgs {
  cache : bool;
  pull : bool;
  ros_distro : string;
  dockerfile : string;
  img_id : string;
  meta_title : string;
  meta_desc : string;
  meta_authors : string;
}.

(** An entry of [ros_distros.yaml]. *)
Record distro_info : Type := mkDistro {
  ros_version : string;
  ubuntu_version : string;
}.

Section WithScript.

(** [yaml.safe_load] on the text of [ros_distros.yaml]: the table of the
    distros, or a [YAMLError]. *)
Variable yaml_safe_load : string → option (list (string * distro_info)).
Variable root_dir : path.

Definition flags := RosBaseBuild.flags.

(** The dictionary [arguments], in the order it is written. *)
Definition arguments (ubuntu_version ros_distro ros_version : string)
  : list (string * string) :=
  [("UBUNTU_VERSION", ubuntu_version);
   ("ROS_DISTRO", ros_distro);
   ("ROS_VERSION", ros_version)].

(** The dictionary [labels], in the order it is written. *)
Definition labels (w : world) (meta_title meta_desc meta_authors : string)
  : list (string * string) :=
  [("org.opencontainers.image.created", now_iso w);
   ("org.opencontainers.image.title", meta_title);
   ("org.opencontainers.image.description", meta_desc);
   ("org.opencontainers.image.authors", meta_authors)].

(** [if args.pull: print(f"... '{base_img}'"); cmd.append("--pull")]: the
    script defines no variable [base_img], so that the message cannot be
    formatted. *)
Definition pull_branch (pull : bool) (cmd : list string) : M (list string) :=
  if pull then
    (raise (Exception "NameError") : M unit);;
    ret (cmd ++ ["--pull"])
  else ret cmd.

(** The command line, from [cmd = [...]] to [cmd.append(str(context_dir))]. *)
Definition make_cmd (w : world) (a : args) (dockerfile : path)
    (ubuntu_version ros_distro ros_version img_id_to_build
     meta_title meta_desc meta_authors : string) : M (list string) :=
  let cmd := ["docker"; "build"; "--file"; str dockerfile; "--progress=plain"] in
  cmd ← pull_branch (pull a) cmd;
  let cmd := if negb (cache a) then cmd ++ ["--no-cache"] else cmd in
  let cmd := cmd ++ flags "--build-arg" (arguments ubuntu_version ros_distro ros_version) in
  let cmd := cmd ++ flags "--label" (labels w meta_title meta_desc meta_authors) in
  let cmd := cmd ++ ["--tag"; img_id_to_build] in
  let context_dir := parent dockerfile in
  ret (cmd ++ [str context_dir]).

(** The script from the check of [ros_distros.yaml] to its end. The help
    text, [get_ros_distros_str(ros_distros)], which is computed while the
    parser is built and printed again after the report of an invalid
    distro, is not part of [main]; it is the subject of [SensorHelp]. *)
Definition main (w : world) (a : args) : M unit :=
  let ros_distros_yaml_file := joinpath root_dir "ros_distros.yaml" in
  is_f ← path_is_file ros_distros_yaml_file;
  when (negb is_f)
    (print ("Error: File " +:+ quote ros_distros_yaml_file +:+ " is required");;
     sys_exit 1);;
  text ← read_text ros_distros_yaml_file;
  match yaml_safe_load text with
  | None =>
      eprint ("Error: Could not read or parse the file "
              +:+ quote ros_distros_yaml_file);;
      sys_exit 1
  | Some ros_distros =>
      let ros_distro := ros_distro a in
      let dockerfile := resolve w (Str.strip (dockerfile a)) in
      let img_id_to_build := Str.strip (img_id a) in
      let meta_title := Str.strip (meta_title a) in
      let meta_desc := Str.strip (meta_desc a) in
      let meta_authors := Str.strip (meta_authors a) in
      match snd <$> List.find (λ kv, String.eqb (fst kv) ros_distro) ros_distros with
      | None =>
          eprint ("Error: Invalid ROS distro '" +:+ ros_distro +:+ "'.");;
          sys_exit 1
      | Some info =>
          let ros_version := ros_version info in
          let ubuntu_version := ubuntu_version info in
          dockerfile_is_file ← path_is_file dockerfile;
          when (negb dockerfile_is_file)
            (eprint ("Error: Dockerfile " +:+ quote dockerfile
                     +:+ " does not exist or is not a file");;
             sys_exit 1);;
          when (negb (ImageName.is_valid_docker_img_name img_id_to_build))
            (eprint ("Error: Invalid Docker image name: '" +:+ img_id_to_build +:+ "'");;
             sys_exit 1);;
          cmd ← make_cmd w a dockerfile ubuntu_version ros_distro ros_version
                         img_id_to_build meta_title meta_desc meta_authors;
          let complete_log_file := complete_log w img_id_to_build in
          let specific_log_file := specific_log w img_id_to_build in
          print ("Building the Docker image '" +:+ img_id_to_build
                 +:+ "' with Ubuntu '" +:+ ubuntu_version
                 +:+ "' and 'ROS" +:+ ros_version +:+ "-" +:+ ros_distro +:+ "'");;
          assign_exit_code 0;;
          try_finally_exit
            (print "Executing command:";;
             print (Str.join " " cmd);;
             run_and_log w img_id_to_build complete_log_file specific_log_file)
      end
  end.

End WithScript.

End SensorBuild.

(* ===================================================================== *)
(** * [ros_base_imgs/create_docker_files.py]                             *)
(* ===================================================================== *)

Module CreateDockerFiles.
Import Py Fs Eff World Stager.
Local Open Scope eff_scope.

Record args : Type := mkArgs {
  base_img : option string;
  img_user : string;
  ros_distro : string;
  img_id : string;
  use_base_img_entrypoint : bool;
  no_environment : bool;
  use_host_nvidia_driver : bool;
}.

Section WithScript.

Variable engine : string → dict → string + exn.
Variable root_path : path.

Definition setitem := RosBaseBuild.setitem.
Definition read_required := RosBaseBuild.read_required.

(** [create_items_to_install]; the last three tests read the command line
    ([args]) rather than the parameters. *)
Definition create_items_to_install (w : world) (a : args)
    (base_img img_user ros_distro ros_version img_id_to_build : string)
    (use_base_img_entrypoint use_environment use_host_nvidia_driver : bool)
    (ros_packages_file extra_ros_env_vars_file : path) : M manifest :=
  ros_packages ← read_required ros_packages_file;
  extra_ros_env_vars ← read_required extra_ros_env_vars_file;
  let items_to_install : manifest :=
    [("Dockerfile",
      [PStr "Dockerfile.j2";
       PDict [("base_img", VStr base_img);
              ("img_user", VStr img_user);
              ("ros_distro", VStr ros_distro);
              ("ros_version", VStr ros_version);
              ("use_base_img_entrypoint", VBool use_base_img_entrypoint);
              ("use_environment", VBool use_environment);
              ("extra_ros_env_vars", VStr extra_ros_env_vars)];
       PBool false]);
     ("build.py",
      [PStr "build.j2";
       PDict [("base_img", VStr base_img);
              ("img_id", VStr img_id_to_build);
              ("img_user", VStr img_user);
              ("ros_distro", VStr ros_distro);
              ("ros_version", VStr ros_version)];
       PBool true]);
     ("deduplicate_path.sh", [PStr "deduplicate_path.sh"; PBool true]);
     ("docker-compose.yaml",
      [PStr "docker-compose.j2";
       PDict [("service",
               VStr (Str.replace "/" "_" (Str.replace ":" "_" img_id_to_build) +:+ "_cont"));
              ("img_id", VStr img_id_to_build);
              ("img_workspace_dir", VStr ("/home/" +:+ img_user +:+ "/workspace"));
              ("img_datasets_dir", VStr ("/home/" +:+ img_user +:+ "/datasets"));
              ("img_ssh_dir", VStr ("/home/" +:+ img_user +:+ "/.ssh"));
              ("img_gitconfig_file", VStr ("/home/" +:+ img_user +:+ "/.gitconfig"));
              ("use_host_nvidia_driver", VBool use_host_nvidia_driver);
              ("ext_uid", VStr (uid w));
              ("ext_upgid", VStr (gid w))];
       PBool false]);
     ("dot_bash_aliases", [PStr "dot_bash_aliases"; PBool true]);
     ("install_base_system.sh", [PStr "install_base_system.sh"; PBool true]);
     ("install_ros.sh",
      [PStr "install_ros.j2";
       PDict [("use_environment", VBool use_environment);
              ("ros_packages", VStr ros_packages)];
       PBool true]);
     ("rosbuild.sh", [PStr ("ros" +:+ ros_version +:+ "build.sh"); PBool true]);
     ("rosdep_init_update.sh", [PStr "rosdep_init_update.sh"; PBool true])] in
  let items_to_install :=
    if String.eqb ros_version "2" then
      setitem
        (setitem items_to_install "colcon_mixin_metadata.sh"
                 [PStr "colcon_mixin_metadata.sh"; PBool true])
        "rosdep_ignored_keys.yaml" [PStr "rosdep_ignored_keys_ros2.yaml"; PBool false]
    else items_to_install in
  let items_to_install :=
    if negb (CreateDockerFiles.use_base_img_entrypoint a)
    then setitem items_to_install "entrypoint.sh" [PStr "entrypoint.sh"; PBool true]
    else items_to_install in
  let items_to_install :=
    if use_environment
    then setitem items_to_install "environment.sh"
           [PStr ("environment_ros" +:+ ros_version +:+ ".j2");
            PDict [("ros_distro", VStr ros_distro)];
            PBool true]
    else items_to_install in
  let items_to_install :=
    if negb (CreateDockerFiles.use_host_nvidia_driver a)
    then setitem items_to_install "install_mesa_packages.sh"
           [PStr "install_default_mesa_packages.sh"; PBool true]
    else items_to_install in
  ret items_to_install.

(** The script from [args = parser.parse_args()] to its end. The context
    directory is made with [tempfile.mkdtemp]; nothing removes it. *)
Definition main (w : world) (a : args) : M unit :=
  let base_img := match base_img a with Some s => Str.strip s | None => "" end in
  let img_user := Str.strip (img_user a) in
  let ros_distro := Str.lower (ros_distro a) in
  let img_id_to_build := Str.strip (img_id a) in
  let use_environment := negb (no_environment a) in
  match RosBaseBuild.distro ros_distro with
  | None =>
      (* the list of the allowed distros follows in the message *)
      print ("Error: Invalid ROS distro '" +:+ ros_distro +:+ "'. Allowed: ");;
      sys_exit 1
  | Some (ros_version, ubuntu_version) =>
      base_img ←
        (if String.eqb base_img "" then
           let base_img := "ubuntu:" +:+ ubuntu_version in
           when (negb (ImageName.is_valid_docker_img_name base_img))
             (eprint ("Error: Default base image '" +:+ base_img +:+ "' is invalid.");;
              sys_exit 1);;
           print ("No base image specified, defaulting to '" +:+ base_img
                  +:+ "' for 'ROS" +:+ ros_version +:+ "-" +:+ ros_distro +:+ "'");;
           ret base_img
         else
           when (negb (ImageName.is_valid_docker_img_name base_img))
             (eprint ("Error: Invalid Docker base image name: '" +:+ base_img +:+ "'");;
              sys_exit 1);;
           ret base_img);
      when (negb (ImageName.is_valid_docker_img_name img_id_to_build))
        (eprint ("Error: Invalid Docker image name: '" +:+ img_id_to_build +:+ "'");;
         sys_exit 1);;
      when (String.eqb img_user "" || Str.contains " " img_user)
        (eprint ("Error: Invalid user '" +:+ img_user +:+ "'. No whitepaces allowed");;
         sys_exit 1);;
      let ros_packages_file :=
        joinpath root_path ("packages_ros" +:+ ros_version +:+ ".txt") in
      let extra_ros_env_vars_file :=
        joinpath root_path ("env_vars_ros" +:+ ros_version +:+ ".txt") in
      context_dir ← mkdtemp w;
      print ("Created temporary directory " +:+ quote context_dir +:+ ".");;
      items ← create_items_to_install w a base_img img_user ros_distro ros_version
                img_id_to_build (CreateDockerFiles.use_base_img_entrypoint a)
                use_environment (CreateDockerFiles.use_host_nvidia_driver a)
                ros_packages_file extra_ros_env_vars_file;
      install_items engine root_path items context_dir
  end.

End WithScript.

End CreateDockerFiles.

(* ===================================================================== *)
(** * The scripts' engine configuration and sample runs                  *)
(* ===================================================================== *)

Module Script.
Import Py Fs Eff Stager.

(** [Environment(loader=FileSystemLoader(src_path.parent),
    trim_blocks=True, lstrip_blocks=True)]: no [undefined] argument is
    given, at any of the call sites. *)
Definition jinja2_env : Jinja2.Environment :=
  Jinja2.mkEnvironment true true Jinja2.default_undefined.

Definition engine : string → dict → string + exn := Jinja2.render jinja2_env.

(** The same engine, had it been configured to be strict. *)
Definition strict_engine : string → dict → string + exn :=
  Jinja2.render (Jinja2.mkEnvironment true true Jinja2.StrictUndefined).

End Script.

Module Sample.
Import Py Fs Eff Stager World.

(** A name followed by a newline, as a line read from a file would be. *)
Definition with_newline (s : string) : string :=
  s +:+ String Regex.newline EmptyString.

Definition root_path : path := ["repo"].
Definition context_dir : path := ["tmp"; "context_ab12"].

(** A script directory with a template and a shell script, and a fresh
    context directory. *)
Definition tree0 : tree :=
  <[ ["repo"; "greeting.j2"] := File "Hello {{ name }}!" (octal [6; 4; 4]%Z) ]>
  (<[ ["repo"; "plain.j2"] := File "FROM ubuntu" (octal [6; 4; 4]%Z) ]>
  (<[ ["repo"; "run.sh"] := File "#!/bin/sh" (octal [6; 4; 4]%Z) ]>
  (<[ ["repo"] := Dir (octal [7; 5; 5]%Z) ]>
  (<[ ["tmp"] := Dir (octal [7; 7; 7]%Z) ]>
  (<[ context_dir := Dir (octal [7; 0; 0]%Z) ]> ∅))))).

Definition state0 : state := mkState tree0 [] (octal [0; 2; 2]%Z) 1.

(** Two insertion orders of one manifest. *)
Definition manifest_za : manifest :=
  [("z.sh", [PStr "run.sh"; PBool true]);
   ("a.txt", [PStr "greeting.j2"; PDict [("name", VStr "world")]; PBool false])].

Definition manifest_az : manifest :=
  [("a.txt", [PStr "greeting.j2"; PDict [("name", VStr "world")]; PBool false]);
   ("z.sh", [PStr "run.sh"; PBool true])].

(** A template entry whose context lacks the variable of the template. *)
Definition manifest_missing_variable : manifest :=
  [("a.txt", [PStr "greeting.j2"; PDict []; PBool false])].

(** A template entry whose context is a string, not a dictionary, followed
    by a later entry. *)
Definition manifest_bad_context : manifest :=
  [("a.txt", [PStr "plain.j2"; PStr ""; PBool false]);
   ("z.sh", [PStr "run.sh"; PBool true])].


(** A script directory that holds every file the manifests name for a
    ROS 2 distro, a Dockerfile of a sensor image, and an empty [/tmp]. *)
Definition repo_files : list (path * node) :=
  (λ nc, (["repo"; fst nc], File (snd nc) (octal [6; 4; 4]%Z))) <$>
  [("Dockerfile.j2", "FROM {{ base_img }}");
   ("build.j2", "IMG = '{{ img_id }}'");
   ("deduplicate_path.sh", "#!/bin/sh");
   ("docker-compose.j2", "services: {{ service }}");
   ("dot_bash_aliases", "alias ll='ls -l'");
   ("install_base_system.sh", "#!/bin/sh");
   ("install_ros.j2", "apt install {{ ros_packages }}");
   ("ros2build.sh", "#!/bin/sh");
   ("rosdep_init_update.sh", "#!/bin/sh");
   ("colcon_mixin_metadata.sh", "#!/bin/sh");
   ("rosdep_ignored_keys_ros2.yaml", "keys: []");
   ("entrypoint.sh", "#!/bin/sh");
   ("environment_ros2.j2", "source /opt/ros/{{ ros_distro }}/setup.sh");
   ("install_default_mesa_packages.sh", "#!/bin/sh");
   ("packages_ros2.txt", "ros-base");
   ("env_vars_ros2.txt", "ROS_DOMAIN_ID=0");
   ("ros_distros.yaml", "humble: {ros_version: 2, ubuntu_version: 22.04}")].

Definition repo_tree : tree :=
  list_to_map (repo_files
               ++ [(["repo"], Dir (octal [7; 5; 5]%Z));
                   (["tmp"], Dir (octal [7; 7; 7]%Z));
                   (["work"], Dir (octal [7; 5; 5]%Z));
                   (["work"; "Dockerfile"], File "FROM ubuntu:22.04" (octal [6; 4; 4]%Z))]).

Definition repo_state : state := mkState repo_tree [] (octal [0; 2; 2]%Z) 0.

(** No image is present locally: the inspect query ends with 1. *)
Definition image_missing : string → inspect_run := λ _, InspectExited 1.

Definition world_with (run : engine_run) : world :=
  mkWorld "ab12" "2024-01-01_00-00-00" "2024-01-01T00:00:00+00:00"
          image_missing run (λ _, false) ["work"] "1000" "1000".

Definition nl : string := String Regex.newline EmptyString.

(** The engine prints two marked lines around a plain one and succeeds. *)
Definition world_success : world :=
  world_with (Exited ("[2024-01-01_00-00-00] start" +:+ nl +:+ "noise" +:+ nl
                      +:+ "[2024-01-01_00-00-05] done" +:+ nl) 0).

(** The engine prints a marked line and fails. *)
Definition world_failure : world :=
  world_with (Exited ("[2024-01-01_00-00-00] start" +:+ nl) 1).

(** The engine fails without printing anything. *)
Definition world_silent_failure : world := world_with (Exited "" 1).

(** The user interrupts the build after its first line. *)
Definition world_interrupt : world := world_with (Interrupted ("Step 1/9" +:+ nl)).

(** The engine cannot be started, for the inspect query or for the
    build. *)
Definition world_no_engine : world :=
  mkWorld "ab12" "2024-01-01_00-00-00" "2024-01-01T00:00:00+00:00"
          (λ _, InspectFails (Exception "FileNotFoundError"))
          (LaunchFails (Exception "FileNotFoundError"))
          (λ _, false) ["work"] "1000" "1000".

Definition base_args : RosBaseBuild.args :=
  RosBaseBuild.mkArgs false false None "dev" "humble" "myrepo/ros2-humble:1.0"
                      false None false None "title" "description" "me".

Definition base_args_pull : RosBaseBuild.args :=
  RosBaseBuild.mkArgs false true None "dev" "humble" "myrepo/ros2-humble:1.0"
                      false None false None "title" "description" "me".

Definition sensor_args : SensorBuild.args :=
  SensorBuild.mkArgs false false "humble" "Dockerfile" "myrepo/lidar:1.0"
                     "title" "description" "me".

Definition sensor_args_pull : SensorBuild.args :=
  SensorBuild.mkArgs false true "humble" "Dockerfile" "myrepo/lidar:1.0"
                     "title" "description" "me".

(** The one table the sample [ros_distros.yaml] stands for. *)
Definition yaml_safe_load (text : string)
  : option (list (string * SensorBuild.distro_info)) :=
  if String.eqb text "humble: {ros_version: 2, ubuntu_version: 22.04}"
  then Some [("humble", SensorBuild.mkDistro "2" "22.04")]
  else None.

Definition files_args : CreateDockerFiles.args :=
  CreateDockerFiles.mkArgs None "dev" "humble" "myrepo/ros2-humble:1.0"
                           false false false.

Definition sample_context : path := ["tmp"; "context_ab12"].
Definition sample_complete_log : path :=
  ["tmp"; "build_img_myrepo_ros2-humble_1.0_2024-01-01_00-00-00_complete.log"].
Definition sample_specific_log : path :=
  ["tmp"; "build_img_myrepo_ros2-humble_1.0_2024-01-01_00-00-00_specific.log"].
Definition sensor_complete_log : path :=
  ["tmp"; "build_img_myrepo_lidar_1.0_2024-01-01_00-00-00_complete.log"].
Definition sensor_specific_log : path :=
  ["tmp"; "build_img_myrepo_lidar_1.0_2024-01-01_00-00-00_specific.log"].

End Sample.

(* ===================================================================== *)
(** * The grammar of image references, as a data type                    *)
(* ===================================================================== *)

Module ImageGrammar.
Import Regex.

(** The characters a pattern can ever consume. *)
Fixpoint alphabet (r : regex) (c : ascii) : bool :=
  match r with
  | Void => false
  | Eps => false
  | Sym a => accepts a c
  | Cat r1 r2 => alphabet r1 c || alphabet r2 c
  | Alt r1 r2 => alphabet r1 c || alphabet r2 c
  | Star r1 => alphabet r1 c
  end.

Definition is_lower (c : ascii) : bool := Ascii.leb "a" c && Ascii.leb c "z".
Definition is_upper (c : ascii) : bool := Ascii.leb "A" c && Ascii.leb c "Z".

(** [[a-z0-9]] *)
Definition is_lower_alnum (c : ascii) : bool := is_lower c || is_digit c.

(** [[a-z0-9.-]] *)
Definition is_host_char (c : ascii) : bool :=
  is_lower_alnum c || Ascii.eqb c "." || Ascii.eqb c "-".

(** [[a-zA-Z0-9_.-]] *)
Definition is_tag_char (c : ascii) : bool :=
  is_lower c || is_upper c || is_digit c
  || Ascii.eqb c "_" || Ascii.eqb c "." || Ascii.eqb c "-".

(** Every character that can occur in an accepted reference. *)
Definition is_name_char (c : ascii) : bool :=
  is_tag_char c || Ascii.eqb c ":" || Ascii.eqb c "/".

(** A separator inside a path component: a single dot, one or two
    underscores, or [S n] dashes. *)
Inductive separator : Type :=
| SepDot
| SepUnderscore
| SepUnderscores
| SepDashes (n : nat).

Definition separator_chars (s : separator) : list ascii :=
  match s with
  | SepDot => ["."%char]
  | SepUnderscore => ["_"%char]
  | SepUnderscores => ["_"%char; "_"%char]
  | SepDashes n => replicate (S n) "-"%char
  end.

(** A path component: a run of [[a-z0-9]], then separators each followed
    by a further run. *)
Record component : Type := mkComponent {
  first_run : list ascii;
  more_runs : list (separator * list ascii);
}.

Definition run_ok (r : list ascii) : Prop :=
  r ≠ [] ∧ Forall (λ c, is_lower_alnum c = true) r.

Definition component_ok (p : component) : Prop :=
  run_ok (first_run p) ∧ Forall (λ sr, run_ok (snd sr)) (more_runs p).

Definition component_chars (p : component) : list ascii :=
  first_run p
  ++ List.concat ((λ sr, separator_chars (fst sr) ++ snd sr) <$> more_runs p).

(** A reference: an optional host with an optional port, one or more path
    components, and an optional tag. *)
Record reference : Type := mkReference {
  ref_host : option (list ascii * option (list ascii));
  ref_first : component;
  ref_rest : list component;
  ref_tag : option (list ascii);
}.

Definition host_ok (h : list ascii * option (list ascii)) : Prop :=
  (fst h ≠ [] ∧ Forall (λ c, is_host_char c = true) (fst h))
  ∧ match snd h with
    | Some port => port ≠ [] ∧ Forall (λ c, is_digit c = true) port
    | None => True
    end.

Definition tag_ok (t : list ascii) : Prop :=
  t ≠ [] ∧ Forall (λ c, is_tag_char c = true) t.

Definition reference_ok (r : reference) : Prop :=
  match ref_host r with Some h => host_ok h | None => True end
  ∧ component_ok (ref_first r)
  ∧ Forall component_ok (ref_rest r)
  ∧ match ref_tag r with Some t => tag_ok t | None => True end.

Definition host_chars (h : list ascii * option (list ascii)) : list ascii :=
  fst h
  ++ match snd h with Some port => ":"%char :: port | None => [] end
  ++ ["/"%char].

Definition reference_chars (r : reference) : list ascii :=
  match ref_host r with Some h => host_chars h | None => [] end
  ++ (component_chars (ref_first r)
      ++ List.concat ((λ p, "/"%char :: component_chars p) <$> ref_rest r))
  ++ match ref_tag r with Some t => ":"%char :: t | None => [] end.

(** The reference as the string handed to the validator. *)
Definition reference_string (r : reference) : string :=
  string_of_list_ascii (reference_chars r).

(** Reading a string from the left: [fresh] tells that a path component
    has to start here (at the beginning, or right after a slash); the
    result tells that no component of the string is empty. *)
Fixpoint components_nonempty (fresh : bool) (s : list ascii) : bool :=
  match s with
  | [] => negb fresh
  | c :: s' =>
      if Ascii.eqb c "/" then negb fresh && components_nonempty true s'
      else components_nonempty false s'
  end.

(** No slash occurs in [s]. *)
Definition no_slash (s : list ascii) : Prop := Forall (λ c, c ≠ "/"%char) s.

End ImageGrammar.

(* ===================================================================== *)
(** * What the log filter is to produce, and sample logs                 *)
(* ===================================================================== *)

Module LogSample.
Import Py Fs Eff World.

(** The lines of the complete log that carry the marker, in their order. *)
Definition marked_lines (content : string) : list string :=
  filter (λ l, LogPattern.selected l = true) (Str.read_lines content).

Definition sample_log : path := ["tmp"; "build_complete.log"].
Definition sample_specific : path := ["tmp"; "build_specific.log"].

(** The output of an engine that prints the lines [a], [b] and [c]. *)
Definition abc_output : string :=
  "a" +:+ Sample.nl +:+ "b" +:+ Sample.nl +:+ "c" +:+ Sample.nl.

(** Two marked lines around a plain one. *)
Definition marked_output : string :=
  "[2024-01-01_00-00-00] start" +:+ Sample.nl +:+ "noise" +:+ Sample.nl
  +:+ "[2024-01-01_00-00-05] done" +:+ Sample.nl.

(** A complete log that was just opened, and one that holds
    [marked_output]. *)
Definition log_state : state :=
  mkState (<[sample_log := File "" (octal [6; 4; 4]%Z)]> Sample.repo_tree)
          [] (octal [0; 2; 2]%Z) 0.

Definition marked_state : state :=
  mkState (<[sample_log := File marked_output (octal [6; 4; 4]%Z)]> Sample.repo_tree)
          [] (octal [0; 2; 2]%Z) 0.

End LogSample.

(* ===================================================================== *)
(** * What the stagers are to produce                                    *)
(* ===================================================================== *)

Module StageSpec.
Import Py Fs Eff Stager.

(** The permission bits of a staged file: [0o775] for a true flag,
    [0o664] otherwise. *)
Definition mode_of_flag (flag : pyval) : Z :=
  if truthy flag then octal [7; 7; 5]%Z else octal [6; 6; 4]%Z.

(** The report of a source that does not exist. *)
Definition missing_message (p : path) : string :=
  "Required resource " +:+ quote p +:+ " does not exist.".

(** A manifest whose second entry, in sorted order, names a source that
    does not exist. *)
Definition manifest_missing_source : manifest :=
  [("z.sh", [PStr "run.sh"; PBool true]);
   ("m.sh", [PStr "absent.sh"; PBool true]);
   ("a.txt", [PStr "greeting.j2"; PDict [("name", VStr "world")]; PBool false])].

(** A copy item [[src, flag]] or a template item [[src, context, flag]]
    with a dictionary as context. *)
Definition well_formed_item (item : list pyval) : Prop :=
  match item with
  | [PStr _; PBool _] => True
  | [PStr _; PDict _; PBool _] => True
  | _ => False
  end.

(** A destination name that stays below the context directory: it is
    relative, names at least one component and never steps upwards. *)
Definition relative_name (key : string) : Prop :=
  is_absolute key = false ∧ parts key ≠ [] ∧ ".." ∉ parts key.

(** A manifest as the stagers expect it: destination names that differ
    from each other and stay below the context directory, a [Dockerfile]
    among them, and well-formed items. *)
Definition well_formed_manifest (items : manifest) : Prop :=
  NoDup (keys items)
  ∧ "Dockerfile" ∈ keys items
  ∧ Forall relative_name (keys items)
  ∧ Forall well_formed_item (snd <$> items).

(** Whenever [m] ends normally, its result satisfies [Q]. *)
Definition returns {A : Type} (m : M A) (Q : A → Prop) : Prop :=
  ∀ st, match m st with
        | (Ret a, _) => Q a
        | _ => True
        end.

(** The directory [d] and the directories above it are on disk. *)
Definition anchored (d : path) (t : tree) : Prop :=
  ∀ r, r `prefix_of` d → stays r t.

(** [m] changes nothing outside the directory [d]: when [d] is anchored,
    it stays so and the object at [q] is as before. *)
Definition confined {A : Type} (d q : path) (m : M A) : Prop :=
  ∀ st, anchored d (fs st) →
        anchored d (fs (snd (m st)))
        ∧ lookup (fs (snd (m st))) q = lookup (fs st) q.

End StageSpec.

(* ===================================================================== *)
(** * What a whole script run is to keep                                 *)
(* ===================================================================== *)

Module ScriptSpec.
Import Py Fs Eff World.

(** Every status that [m] hands to [sys.exit] satisfies [I]. *)
Definition exits_within {A : Type} (I : Z → Prop) (m : M A) : Prop :=
  ∀ st c, fst (m st) = Exit c → I c.

(** [m] keeps the variable [exit_code] within [I]. *)
Definition keeps_status {A : Type} (I : Z → Prop) (m : M A) : Prop :=
  ∀ st, I (exit_code st) → I (exit_code (snd (m st))).

(** A status other than that of a successful build: 1, or the return
    code of the engine. *)
Definition build_status (w : world) (c : Z) : Prop :=
  c = 1%Z ∨ ∃ output, build_run w = Exited output c.

(** The object at [q] is left as it is. *)
Definition leaves {A : Type} (q : path) (m : M A) : Prop :=
  ∀ st, lookup (fs (snd (m st))) q = lookup (fs st) q.

(** The command lines that the two scripts of [ros_base_imgs] turn down:
    an unknown distro, a base image or an image name that the validator
    refuses, a user name that is empty or holds a blank. *)
Definition rejected (ros_distro : string) (base_img : option string)
    (img_id img_user : string) : bool :=
  match RosBaseBuild.distro (Str.lower ros_distro) with
  | None => true
  | Some _ =>
      let base_img := match base_img with Some s => Str.strip s | None => "" end in
      negb (String.eqb base_img "")
        && negb (ImageName.is_valid_docker_img_name base_img)
      || negb (ImageName.is_valid_docker_img_name (Str.strip img_id))
      || String.eqb (Str.strip img_user) ""
      || Str.contains " " (Str.strip img_user)
  end.

(** A command line with an image name that holds a blank. *)
Definition bad_name_args : RosBaseBuild.args :=
  RosBaseBuild.mkArgs false false None "dev" "humble" "my image" false None
                      false None "t" "d" "a".

Definition bad_name_files_args : CreateDockerFiles.args :=
  CreateDockerFiles.mkArgs None "dev" "humble" "my image" false false false.

End ScriptSpec.

(* ===================================================================== *)
(** * The help text of [sensor_imgs/build.py]                            *)
(* ===================================================================== *)

Module SensorHelp.
Import Py.

(** A value of the mapping read from [ros_distros.yaml], with the three
    keys the help text reads; [ros_version] is held as it prints. *)
Record variant : Type := mkVariant {
  ros_distro : string;
  ros_version : string;
  ubuntu_version : string;
}.

Definition spaces (n : nat) : string := String.concat "" (repeat " " n).

(** [f"{s:<{width}}"]: blanks are added on the right up to [width]. *)
Definition ljust (width : nat) (s : string) : string :=
  s +:+ spaces (width - String.length s).

(** [max(xs)], which raises [ValueError] on an empty sequence. *)
Definition py_max (xs : list nat) : nat + exn :=
  match xs with
  | [] => inr (Exception "ValueError")
  | x :: xs' => inl (fold_left Nat.max xs' x)
  end.

Definition header : string := "Available ROS distros:".

Definition help_line (width : nat) (v : variant) : string :=
  ljust width (ros_distro v) +:+ ": ros" +:+ ros_version v
  +:+ ", ubuntu_" +:+ ubuntu_version v.

(** [get_ros_distros_str(ros_distros)] *)
Definition get_ros_distros_str (ros_distros : list (string * variant))
  : string + exn :=
  match py_max ((λ kv, String.length (ros_distro (snd kv))) <$> ros_distros) with
  | inr e => inr e
  | inl width =>
      let lines := (λ kv, help_line width (snd kv)) <$> ros_distros in
      inl (Str.join Sample.nl (header :: lines))
  end.

(** The mapping of the repository's [ros_distros.yaml]. *)
Definition sample_distros : list (string * variant) :=
  [("noetic", mkVariant "noetic" "1" "20.04");
   ("humble", mkVariant "humble" "2" "22.04");
   ("jazzy", mkVariant "jazzy" "2" "24.04")].

End SensorHelp.


(* ===================================================================== *)
(** * Two stagings that are to give the same destination tree            *)
(* ===================================================================== *)

Module ReproSpec.
Import Py Fs Eff Stager.

(** The two trees hold the same object, or none, at every path of [R]:
    the same kind, the same content and the same permission bits. *)
Definition same_on (R : path → Prop) (t1 t2 : tree) : Prop :=
  ∀ p : path, R p → t1 !! p = t2 !! p.

(** What lies at [d1] and below it in [t1] lies at the same place
    relative to [d2] in [t2]: kind, content and permission bits. *)
Definition same_below (d1 d2 : path) (t1 t2 : tree) : Prop :=
  ∀ rel : path, t1 !! ((d1 ++ rel) : path) = t2 !! ((d2 ++ rel) : path).

(** A source that the manifest names; it is taken from the directory of
    the script unless it is absolute. *)
Definition source_of (root_path : path) (items : manifest) (src : path) : Prop :=
  ∃ key s rest, (key, PStr s :: rest) ∈ items ∧ src = joinpath root_path s.

(** A source of the manifest, or a path below one. *)
Definition in_sources (root_path : path) (items : manifest) (p : path) : Prop :=
  ∃ src, source_of root_path items src ∧ under src p.

(** Every directory from the root down to [d] is there, as a directory. *)
Definition rooted (d : path) (t : tree) : Prop :=
  ∀ r, r `prefix_of` d → is_dir t r = true.

(** The two destination directories are one and the same, or neither is
    the root and no path of [S] lies in either of them. *)
Definition apart (S : path → Prop) (d1 d2 : path) : Prop :=
  d1 = d2 ∨ (d1 ≠ [] ∧ d2 ≠ [] ∧ ∀ p, S p → ¬ under d1 p ∧ ¬ under d2 p).

(** Two paths that stand for each other in the two runs: a path of [S],
    or the same place relative to the two destination directories. *)
Definition twin_paths (S : path → Prop) (d1 d2 p1 p2 : path) : Prop :=
  (p1 = p2 ∧ S p1) ∨ ∃ rel, p1 = d1 ++ rel ∧ p2 = d2 ++ rel.

Definition twin_trees (S : path → Prop) (d1 d2 : path) (t1 t2 : tree) : Prop :=
  same_on S t1 t2 ∧ same_below d1 d2 t1 t2 ∧ rooted d1 t1 ∧ rooted d2 t2.

(** Two process states with the same umask, the same objects on [S] and
    the same objects in their destination directories, whatever else
    they hold and whatever was printed. *)
Definition twins (S : path → Prop) (d1 d2 : path) (st1 st2 : state) : Prop :=
  umask st1 = umask st2 ∧ twin_trees S d1 d2 (fs st1) (fs st2).

(** [m1], run in one of two such states, and [m2], run in the other, end
    in the same way and leave two such states. *)
Definition alike {A : Type} (S : path → Prop) (d1 d2 : path) (m1 m2 : M A)
  : Prop :=
  ∀ st1 st2, twins S d1 d2 st1 st2 →
             fst (m1 st1) = fst (m2 st2)
             ∧ twins S d1 d2 (snd (m1 st1)) (snd (m2 st2)).

(** A second context directory, in a file system that differs from
    [Sample.tree0] in the name of the context directory and in a file of
    the home directory, and a process that has printed a line already. *)
Definition context_other : path := ["tmp"; "context_cd34"].

Definition tree_other : tree :=
  <[ ["home"; "notes.txt"] := File "remember" (octal [6; 0; 0]%Z) ]>
  (<[ context_other := Dir (octal [7; 0; 0]%Z) ]>
  (delete Sample.context_dir Sample.tree0)).

Definition state_other : state :=
  mkState tree_other [(Stdout, "earlier output")] (octal [0; 2; 2]%Z) 0.

(** A manifest with a destination name in a directory of its own. *)
Definition manifest_nested : manifest :=
  [("sub/a.txt", [PStr "greeting.j2"; PDict [("name", VStr "world")]; PBool false])].

(** The state of [Sample.state0] in a process with umask [0o077]. *)
Definition state_private : state :=
  mkState Sample.tree0 [] (octal [0; 7; 7]%Z) 1.

(** A manifest that copies a directory, and script directories that
    differ in the permission bits of a file of that directory only. *)
Definition manifest_dir : manifest := [("conf", [PStr "conf"])].

Definition tree_conf (mode : Z) : tree :=
  <[ ["repo"; "conf"] := Dir (octal [7; 5; 5]%Z) ]>
  (<[ ["repo"; "conf"; "key"] := File "secret" mode ]> Sample.tree0).

Definition state_conf (mode : Z) : state :=
  mkState (tree_conf mode) [] (octal [0; 2; 2]%Z) 1.

End ReproSpec.


(* ===================================================================== *)
(** * Facts about patterns                                               *)
(* ===================================================================== *)

Module RegexFacts.
Import Regex.

Create HintDb regex.
#[export] Hint Constructors Matches : regex.

Section Generic.

Context {char : Type} `{!Symbol char}.

Lemma Matches_Void_inv (s : list char) : Matches Void s → False.
Proof. inversion 1. Qed.

Lemma Matches_Eps_inv (s : list char) : Matches Eps s → s = [].
Proof. by inversion 1. Qed.

Lemma Matches_Sym_inv (a : atom) (s : list char) :
  Matches (Sym a) s → ∃ c, s = [c] ∧ accepts a c = true.
Proof. inversion 1; subst; eauto. Qed.

Lemma Matches_Cat_inv (r1 r2 : regex) (s : list char) :
  Matches (Cat r1 r2) s →
  ∃ s1 s2, s = s1 ++ s2 ∧ Matches r1 s1 ∧ Matches r2 s2.
Proof. inversion 1; subst; eauto 6. Qed.

Lemma Matches_Alt_inv (r1 r2 : regex) (s : list char) :
  Matches (Alt r1 r2) s → Matches r1 s ∨ Matches r2 s.
Proof. inversion 1; subst; auto. Qed.

Lemma nullable_Matches (r : regex) :
  nullable r = true ↔ Matches r ([] : list char).
Proof.
  induction r as [| |a|r1 IH1 r2 IH2|r1 IH1 r2 IH2|r IH]; simpl.
  - split; [done|by intros ?%Matches_Void_inv].
  - split; auto with regex.
  - split; [done|]. by intros (c & ? & _)%Matches_Sym_inv.
  - rewrite andb_true_iff, IH1, IH2. split.
    + intros [H1 H2]. apply (MCat _ _ [] []); done.
    + intros (s1 & s2 & E & H1 & H2)%Matches_Cat_inv.
      symmetry in E. apply app_eq_nil in E as [-> ->]. done.
  - rewrite orb_true_iff, IH1, IH2. split.
    + intros [?|?]; auto with regex.
    + apply Matches_Alt_inv.
  - split; auto with regex.
Qed.

Lemma Matches_Star_cons (r : regex) (c : char) (s : list char) :
  Matches (Star r) (c :: s) →
  ∃ s1 s2, s = s1 ++ s2 ∧ Matches r (c :: s1) ∧ Matches (Star r) s2.
Proof.
  intros H. remember (Star r) as r' eqn:Er. remember (c :: s) as w eqn:Ew.
  revert s Ew. induction H as [| | | | | |r0 s1 s2 H1 _ H2 IH2]; try discriminate.
  injection Er as ->. intros s Ew. destruct s1 as [|c1 s1]; simpl in Ew.
  - apply IH2; done.
  - injection Ew as -> <-. eauto.
Qed.

Lemma der_Matches (r : regex) (c : char) (s : list char) :
  Matches (der c r) s ↔ Matches r (c :: s).
Proof.
  revert s. induction r as [| |a|r1 IH1 r2 IH2|r1 IH1 r2 IH2|r IH];
    intros s; simpl.
  - split; by intros ?%Matches_Void_inv.
  - split; [by intros ?%Matches_Void_inv|by intros ?%Matches_Eps_inv].
  - destruct (accepts a c) eqn:Ha; split.
    + intros ->%Matches_Eps_inv. by constructor.
    + intros (c' & [= -> ->] & _)%Matches_Sym_inv. constructor.
    + by intros ?%Matches_Void_inv.
    + intros (c' & [= -> ->] & ?)%Matches_Sym_inv. congruence.
  - assert (Hcat : Matches (Cat (der c r1) r2) s →
                   Matches (Cat r1 r2) (c :: s)).
    { intros (s1 & s2 & -> & H1 & H2)%Matches_Cat_inv.
      apply IH1 in H1. apply (MCat _ _ (c :: s1) s2); done. }
    assert (Hinv : Matches (Cat r1 r2) (c :: s) →
                   (Matches (Cat (der c r1) r2) s) ∨
                   (Matches r1 [] ∧ Matches (der c r2) s)).
    { intros (s1 & s2 & E & H1 & H2)%Matches_Cat_inv.
      destruct s1 as [|c1 s1]; simpl in E.
      - subst. right. split; [done|]. by apply IH2.
      - injection E as -> ->. left. constructor; [by apply IH1|done]. }
    destruct (nullable r1) eqn:Hn; split.
    + intros [?|?]%Matches_Alt_inv; [auto|].
      apply (MCat _ _ [] (c :: s)); [by apply nullable_Matches|by apply IH2].
    + intros [?|[_ ?]]%Hinv; auto with regex.
    + done.
    + intros [?|[Hn' _]]%Hinv; [done|].
      apply nullable_Matches in Hn'. congruence.
  - split.
    + intros [?|?]%Matches_Alt_inv; [apply MAltL; by apply IH1|apply MAltR; by apply IH2].
    + intros [?|?]%Matches_Alt_inv; [apply MAltL; by apply IH1|apply MAltR; by apply IH2].
  - split.
    + intros (s1 & s2 & -> & H1 & H2)%Matches_Cat_inv.
      apply IH in H1. apply (MStarS _ (c :: s1) s2); done.
    + intros (s1 & s2 & -> & H1 & H2)%Matches_Star_cons.
      constructor; [by apply IH|done].
Qed.

Lemma fullmatch_Matches (r : regex) (s : list char) :
  fullmatch r s = true ↔ Matches r s.
Proof.
  revert r. induction s as [|c s IH]; intros r; simpl.
  - apply nullable_Matches.
  - rewrite IH. apply der_Matches.
Qed.

Lemma prefix_match_nil (r : regex) :
  prefix_match r ([] : list char) = nullable r.
Proof. simpl. apply orb_false_r. Qed.

Lemma prefix_match_cons (r : regex) (c : char) (s : list char) :
  prefix_match r (c :: s) = nullable r || prefix_match (der c r) s.
Proof. reflexivity. Qed.

Lemma search_nil (r : regex) : search r ([] : list char) = nullable r.
Proof. simpl. by rewrite !orb_false_r. Qed.

Lemma search_cons (r : regex) (c : char) (s : list char) :
  search r (c :: s) = prefix_match r (c :: s) || search r s.
Proof. reflexivity. Qed.

Lemma prefix_match_Matches (r : regex) (s : list char) :
  prefix_match r s = true ↔ ∃ p t, s = p ++ t ∧ Matches r p.
Proof.
  revert r. induction s as [|c s IH]; intros r.
  - rewrite prefix_match_nil, nullable_Matches. split.
    + intros H. by exists [], [].
    + intros (p & t & E & H). symmetry in E.
      apply app_eq_nil in E as [-> ->]. done.
  - rewrite prefix_match_cons, orb_true_iff, nullable_Matches, IH. split.
    + intros [H|(p & t & -> & H)].
      * by exists [], (c :: s).
      * exists (c :: p), t. split; [done|]. by apply der_Matches.
    + intros (p & t & E & H). destruct p as [|c' p]; simpl in E.
      * by left.
      * injection E as -> ->. right. exists p, t. split; [done|].
        by apply der_Matches.
Qed.

Lemma search_Matches (r : regex) (s : list char) :
  search r s = true ↔ ∃ pre m post, s = pre ++ m ++ post ∧ Matches r m.
Proof.
  induction s as [|c s IH].
  - rewrite search_nil, nullable_Matches. split.
    + intros H. by exists [], [], [].
    + intros (pre & m & post & E & H). symmetry in E.
      apply app_eq_nil in E as [-> [-> ->]%app_eq_nil]. done.
  - rewrite search_cons, orb_true_iff, prefix_match_Matches, IH. split.
    + intros [(p & t & E & H)|(pre & m & post & -> & H)].
      * by exists [], p, t.
      * by exists (c :: pre), m, post.
    + intros (pre & m & post & E & H). destruct pre as [|c' pre]; simpl in E.
      * left. by exists m, post.
      * injection E as -> ->. right. by exists pre, m, post.
Qed.

End Generic.

Lemma match_anchored_Matches (r : regex) (s : list ascii) :
  match_anchored r s = true ↔
  Matches r s ∨ ∃ t, s = t ++ [newline] ∧ Matches r t.
Proof.
  unfold match_anchored. rewrite orb_true_iff, fullmatch_Matches.
  apply or_iff_compat_l.
  destruct (reverse s) as [|c t] eqn:E.
  - apply (f_equal reverse) in E. rewrite reverse_involutive in E.
    subst s. split; [done|]. intros (t & E & _). by destruct t.
  - apply (f_equal reverse) in E. rewrite reverse_involutive in E.
    rewrite reverse_cons in E. subst s.
    rewrite andb_true_iff, fullmatch_Matches. split.
    + intros [->%Ascii.eqb_eq H]. eauto.
    + intros (t' & [-> [= ->]]%app_inj_tail & H).
      split; [apply Ascii.eqb_refl|done].
Qed.

End RegexFacts.

Module ImageNameFacts.
Import Regex RegexFacts ImageName Sample.

Example valid_ubuntu : is_valid_docker_img_name "ubuntu:22.04" = true.
Proof. vm_compute. reflexivity. Qed.

Example valid_myrepo : is_valid_docker_img_name "myrepo/ros2-humble" = true.
Proof. vm_compute. reflexivity. Qed.

Example invalid_upper : is_valid_docker_img_name "UPPER:tag" = false.
Proof. vm_compute. reflexivity. Qed.

Example invalid_empty_component : is_valid_docker_img_name "repo//x" = false.
Proof. vm_compute. reflexivity. Qed.

Example valid_registry :
  is_valid_docker_img_name "registry.example.com:5000/team/img__x:1.0-RC" = true.
Proof. vm_compute. reflexivity. Qed.

(** C4. The validator is meant to reject every name that contains white
    space. Because the pattern ends in [$] and is applied with [match], a
    name followed by one newline character is accepted all the same; the
    four names of the specification behave as stated. *)
Theorem validator_accepts_final_newline :
  is_valid_docker_img_name (with_newline "ubuntu") = true
  ∧ is_valid_docker_img_name (with_newline "myrepo/ros2-humble:1.0") = true
  ∧ is_valid_docker_img_name "ubuntu:22.04" = true
  ∧ is_valid_docker_img_name "myrepo/ros2-humble" = true
  ∧ is_valid_docker_img_name "UPPER:tag" = false
  ∧ is_valid_docker_img_name "repo//x" = false.
Proof. repeat split; vm_compute; reflexivity. Qed.

End ImageNameFacts.

Module LogPatternFacts.
Import Regex RegexFacts Unicode LogPattern.

Lemma atoms_of_Matches (r : regex) : ∀ (l : list atom) (s : list codepoint),
  atoms_of r = Some l → (Matches r s ↔ Forall2 fits l s).
Proof.
  induction r as [| |a|r1 IH1 r2 IH2|r1 IH1 r2 IH2|r IH]; intros l s; simpl;
    try discriminate.
  - intros [= <-]. split.
    + intros ->%Matches_Eps_inv. constructor.
    + intros ->%Forall2_nil_inv_l. constructor.
  - intros [= <-]. split.
    + intros (c & -> & Hc)%Matches_Sym_inv. by repeat constructor.
    + intros (c & s' & Hc & ->%Forall2_nil_inv_l & ->)%Forall2_cons_inv_l.
      by constructor.
  - destruct (atoms_of r1) as [l1|] eqn:E1; [|discriminate].
    destruct (atoms_of r2) as [l2|] eqn:E2; [|discriminate].
    intros [= <-]. split.
    + intros (s1 & s2 & -> & H1 & H2)%Matches_Cat_inv.
      apply Forall2_app; [by apply (IH1 l1)|by apply (IH2 l2)].
    + intros (s1 & s2 & H1 & H2 & ->)%Forall2_app_inv_l.
      constructor; [by apply (IH1 l1)|by apply (IH2 l2)].
Qed.

Lemma specific_log_pattern_marker (m : list codepoint) :
  Matches specific_log_pattern m ↔ is_marker m.
Proof. apply atoms_of_Matches. reflexivity. Qed.

Lemma selected_iff_marker (line : string) :
  selected line = true ↔
  ∃ text pre m post,
    decode line = Some text ∧ text = pre ++ m ++ post ∧ is_marker m.
Proof.
  unfold selected. destruct (decode line) as [text|].
  - rewrite search_Matches. split.
    + intros (pre & m & post & E & H). exists text, pre, m, post.
      split; [done|]. split; [done|]. by apply specific_log_pattern_marker.
    + intros (text' & pre & m & post & [= <-] & E & H). exists pre, m, post.
      split; [done|]. by apply specific_log_pattern_marker.
  - split; [done|]. by intros (text & pre & m & post & [=] & _).
Qed.

(** The digits of a marker are the decimal digits of Unicode, and each of
    the other characters is the one written in the pattern. *)
Lemma is_marker_chars (m : list codepoint) :
  is_marker m ↔
  ∃ y1 y2 y3 y4 m1 m2 d1 d2 h1 h2 n1 n2 s1 s2 : codepoint,
    m = [N_of_ascii "["; y1; y2; y3; y4; N_of_ascii "-"; m1; m2;
         N_of_ascii "-"; d1; d2; N_of_ascii "_"; h1; h2; N_of_ascii "-";
         n1; n2; N_of_ascii "-"; s1; s2; N_of_ascii "]"]
    ∧ Forall (λ c, is_decimal c = true)
             [y1; y2; y3; y4; m1; m2; d1; d2; h1; h2; n1; n2; s1; s2].
Proof.
  unfold is_marker, marker_shape, fits, accepts, codepoint_symbol. split.
  - intros H.
    repeat match goal with
    | H : Forall2 _ (_ :: _) _ |- _ =>
        apply Forall2_cons_inv_l in H as (? & ? & ? & H & ->)
    | H : Forall2 _ [] _ |- _ => apply Forall2_nil_inv_l in H as ->
    | H : (_ =? _)%N = true |- _ => apply N.eqb_eq in H as ->
    end.
    do 14 eexists. split; [reflexivity|].
    repeat (apply Forall_cons_2; [assumption|]). apply Forall_nil_2.
  - intros (y1 & y2 & y3 & y4 & m1 & m2 & d1 & d2 & h1 & h2 & n1 & n2 & s1
            & s2 & -> & H).
    repeat match goal with
    | H : Forall _ (_ :: _) |- _ => apply Forall_cons_1 in H as [? H]
    end.
    repeat (constructor; [first [assumption|reflexivity]|]). constructor.
Qed.

Example selected_start :
  selected "[2024-01-01_00-00-00] start" = true.
Proof. vm_compute. reflexivity. Qed.

Example selected_noise : selected "noise" = false.
Proof. vm_compute. reflexivity. Qed.

Example selected_short_year : selected "[224-01-01_00-00-00] start" = false.
Proof. vm_compute. reflexivity. Qed.

Example decimal_digits_sample :
  is_decimal 48 = true ∧ is_decimal 1634 = true ∧ is_decimal 65305 = true
  ∧ is_decimal 178 = false ∧ is_decimal 97 = false.
Proof. repeat split; vm_compute; reflexivity. Qed.

(** C10. A line of the complete log is selected for the specific log
    exactly when its text contains, at any offset, an opening bracket,
    4 digits, a dash, 2 digits, a dash, 2 digits, an underscore, 2 digits,
    a dash, 2 digits, a dash, 2 digits and a closing bracket. The match is
    not tied to the start of the line, and the digits need not form a date
    or a time of day: they are only required to be decimal digits, those of
    Unicode as [\d] has it on a [str], so that a marker written with
    Arabic-Indic digits selects its line as well, while the superscript
    [²], a digit that is not a decimal one, does not. *)
Theorem specific_log_line_selection :
  (∀ line : string,
     selected line = true ↔
     ∃ text pre m post,
       decode line = Some text ∧ text = pre ++ m ++ post
       ∧ ∃ y1 y2 y3 y4 m1 m2 d1 d2 h1 h2 n1 n2 s1 s2 : codepoint,
           m = [N_of_ascii "["; y1; y2; y3; y4; N_of_ascii "-"; m1; m2;
                N_of_ascii "-"; d1; d2; N_of_ascii "_"; h1; h2;
                N_of_ascii "-"; n1; n2; N_of_ascii "-"; s1; s2;
                N_of_ascii "]"]
           ∧ Forall (λ c, is_decimal c = true)
                    [y1; y2; y3; y4; m1; m2; d1; d2; h1; h2; n1; n2; s1; s2])
  ∧ selected "step 3 done at [2024-01-01_00-00-05]" = true
  ∧ selected "[9999-99-99_99-99-99]" = true
  ∧ selected arabic_indic_line = true
  ∧ selected superscript_line = false.
Proof.
  split; [|repeat split; vm_compute; reflexivity].
  intros line. rewrite selected_iff_marker. split.
  - intros (text & pre & m & post & Hd & E & H). exists text, pre, m, post.
    split; [done|]. split; [done|]. by apply is_marker_chars.
  - intros (text & pre & m & post & Hd & E & H). exists text, pre, m, post.
    split; [done|]. split; [done|]. by apply is_marker_chars.
Qed.

End LogPatternFacts.

Module FsFacts.
Import Py Fs.

Lemma rmtree_lookup_under d p fs : under d p → rmtree d fs !! p = None.
Proof.
  intros Hu. unfold rmtree. apply map_lookup_filter_None. right.
  intros x _. simpl. tauto.
Qed.

Lemma rmtree_lookup_other d p fs : ¬ under d p → rmtree d fs !! p = fs !! p.
Proof.
  intros Hu. unfold rmtree. destruct (fs !! p) as [x|] eqn:E.
  - apply map_lookup_filter_Some. done.
  - apply map_lookup_filter_None. by left.
Qed.

End FsFacts.

Module Jinja2Facts.
Import Py Jinja2.

Example render_defined :
  render (mkEnvironment true true default_undefined)
         "FROM {{ base_img }}" [("base_img", VStr "ubuntu:22.04")]
  = inl "FROM ubuntu:22.04".
Proof. vm_compute. reflexivity. Qed.

Example render_missing_default :
  render (mkEnvironment true true default_undefined) "FROM {{ base_img }}" []
  = inl "FROM ".
Proof. vm_compute. reflexivity. Qed.

Example render_missing_strict :
  render (mkEnvironment true true StrictUndefined) "FROM {{ base_img }}" []
  = inr (Exception "UndefinedError").
Proof. vm_compute. reflexivity. Qed.

End Jinja2Facts.

Module StrFacts.
Import Str.

Example lines_abc :
  lines ("a" +:+ String Regex.newline ("b" +:+ String Regex.newline "c"))
  = ["a" +:+ String Regex.newline ""; "b" +:+ String Regex.newline ""; "c"].
Proof. vm_compute. reflexivity. Qed.

End StrFacts.

(* ===================================================================== *)
(** * Facts about the stagers                                            *)
(* ===================================================================== *)

Module StagerFacts.
Import Py Fs Eff Stager.
Local Open Scope eff_scope.

Lemma for_each_ext {A} (xs : list A) (f g : A → M unit) :
  (∀ x st, f x st = g x st) → ∀ st, for_each xs f st = for_each xs g st.
Proof.
  intros Hfg. induction xs as [|x xs IH]; intros st; simpl.
  - done.
  - unfold bind. rewrite Hfg. destruct (g x st) as [[?| |] ?]; auto.
Qed.

Lemma for_each_app {A} (xs ys : list A) (f : A → M unit) st :
  for_each (xs ++ ys) f st = bind (for_each xs f) (λ _, for_each ys f) st.
Proof.
  revert st. induction xs as [|x xs IH]; intros st.
  - reflexivity.
  - change (bind (f x) (λ _, for_each (xs ++ ys) f) st
            = bind (bind (f x) (λ _, for_each xs f)) (λ _, for_each ys f) st).
    unfold bind at 1 2 3.
    destruct (f x st) as [[[]| |] st']; [|done..].
    rewrite IH. done.
Qed.

(** ** Looking an item up does not depend on the insertion order *)

Lemma find_key_Some (items : manifest) k v :
  NoDup (keys items) → (k, v) ∈ items →
  List.find (λ kv, String.eqb (fst kv) k) items = Some (k, v).
Proof.
  unfold keys. induction items as [|[k' v'] items IH]; simpl.
  - intros _ H. by apply elem_of_nil in H.
  - intros [Hk Hnd]%NoDup_cons [[= -> ->]|Hin]%elem_of_cons.
    + by rewrite String.eqb_refl.
    + destruct (String.eqb k' k) eqn:E.
      * apply String.eqb_eq in E as ->. exfalso. apply Hk.
        apply list_elem_of_fmap. by exists (k, v).
      * auto.
Qed.

Lemma find_key_None (items : manifest) k :
  k ∉ keys items → List.find (λ kv, String.eqb (fst kv) k) items = None.
Proof.
  unfold keys. induction items as [|[k' v'] items IH]; simpl.
  - done.
  - intros [Hne Hk]%not_elem_of_cons.
    destruct (String.eqb k' k) eqn:E.
    + apply String.eqb_eq in E. congruence.
    + auto.
Qed.

Lemma find_key_elem (items : manifest) k kv :
  List.find (λ kv, String.eqb (fst kv) k) items = Some kv →
  kv ∈ items ∧ fst kv = k.
Proof.
  induction items as [|[k' v'] items IH]; simpl.
  - done.
  - destruct (String.eqb k' k) eqn:E.
    + intros [= <-]. split; [left|by apply String.eqb_eq].
    + intros [? ?]%IH. split; [by right|done].
Qed.

Lemma find_key_perm (m1 m2 : manifest) k :
  NoDup (keys m1) → m1 ≡ₚ m2 →
  List.find (λ kv, String.eqb (fst kv) k) m1
  = List.find (λ kv, String.eqb (fst kv) k) m2.
Proof.
  intros Hnd Hp.
  assert (Hnd2 : NoDup (keys m2)).
  { unfold keys in *. by rewrite <- Hp. }
  destruct (List.find _ m1) as [[k1 v1]|] eqn:E1.
  - apply find_key_elem in E1 as [Hin Hk]. simpl in Hk. subst k1.
    symmetry. apply find_key_Some; [done|]. by rewrite <- Hp.
  - symmetry. apply find_key_None. intros Hin.
    assert (Hin1 : k ∈ keys m1) by (unfold keys in *; by rewrite Hp).
    apply list_elem_of_fmap in Hin1 as ([k1 v1] & Hk & Hin1).
    simpl in Hk. subst k.
    rewrite (find_key_Some m1 k1 v1) in E1; done.
Qed.

Lemma getitem_perm (m1 m2 : manifest) k :
  NoDup (keys m1) → m1 ≡ₚ m2 → getitem m1 k = getitem m2 k.
Proof. intros. unfold getitem. by rewrite (find_key_perm m1 m2). Qed.

Lemma sorted_keys_sorted (items : manifest) :
  Sorted String.le (sorted_keys items).
Proof. apply (Sorted_merge_sort String.le). Qed.

Lemma sorted_keys_keys (items : manifest) : sorted_keys items ≡ₚ keys items.
Proof. apply (merge_sort_Permutation String.le). Qed.

Lemma sorted_keys_perm (m1 m2 : manifest) :
  m1 ≡ₚ m2 → sorted_keys m1 = sorted_keys m2.
Proof.
  intros Hp. apply (Sorted_unique String.le); try apply sorted_keys_sorted.
  rewrite !sorted_keys_keys. unfold keys. by rewrite Hp.
Qed.

(** ** Stepping through a computation *)

Lemma bind_Ret {A B} (m : M A) (k : A → M B) st a st' :
  m st = (Ret a, st') → bind m k st = k a st'.
Proof. intros H. unfold bind. by rewrite H. Qed.

Lemma bind_Raise {A B} (m : M A) (k : A → M B) st e st' :
  m st = (Raise e, st') → bind m k st = (Raise e, st').
Proof. intros H. unfold bind. by rewrite H. Qed.

Lemma bind_Exit {A B} (m : M A) (k : A → M B) st c st' :
  m st = (Exit c, st') → bind m k st = (Exit c, st').
Proof. intros H. unfold bind. by rewrite H. Qed.

Ltac step := erewrite bind_Ret by reflexivity; cbn beta.

(** ** Creating the missing parents touches nothing else *)

Lemma lookup_insert_other (t : tree) (p q : path) (n : node) :
  p ≠ q → lookup (<[p := n]> t) q = lookup t q.
Proof.
  intros Hne. unfold lookup. destruct (decide (q = [])); [done|].
  by rewrite lookup_insert_ne.
Qed.

Lemma mkdir_prefixes_keeps (done : path) (todo : list string) (um : Z)
    (t t' : tree) :
  mkdir_prefixes done todo um t = inl t' →
  (∀ q n, lookup t q = Some n → lookup t' q = Some n)
  ∧ (∀ q, ¬ q `prefix_of` (done ++ todo) → lookup t' q = lookup t q).
Proof.
  revert done t. induction todo as [|c rest IH]; intros done t; simpl.
  - intros [= <-]. done.
  - replace (done ++ c :: rest) with ((done ++ [c]) ++ rest)
      by (by rewrite <- app_assoc).
    destruct (lookup t (done ++ [c])) as [[?|?]|] eqn:E.
    + destruct rest; discriminate.
    + destruct rest as [|c' rest']; [discriminate|]. apply IH.
    + intros [Hk Ho]%IH. split.
      * intros q n Hq. apply Hk. rewrite lookup_insert_other; [done|].
        intros <-. congruence.
      * intros q Hq. rewrite (Ho q Hq). apply lookup_insert_other.
        intros <-. apply Hq. by apply prefix_app_r.
Qed.

Lemma mkdir_if_missing_spec p st :
  match mkdir_if_missing p st with
  | (Ret _, st') =>
      (∀ q n, lookup (fs st) q = Some n → lookup (fs st') q = Some n)
      ∧ (∀ q, ¬ q `prefix_of` p → lookup (fs st') q = lookup (fs st) q)
  | (Raise _, st') => st' = st
  | (Exit _, _) => False
  end.
Proof.
  unfold mkdir_if_missing. step.
  destruct (exists_ (fs st) p); simpl; [done|].
  unfold mkdir_parents. destruct p as [|c p']; [done|].
  destruct (mkdir_prefixes [] (c :: p') (umask st) (fs st)) as [t'|e] eqn:E; [|done].
  apply mkdir_prefixes_keeps in E. done.
Qed.

Lemma not_prefix_of_parent (p : path) : p ≠ [] → ¬ p `prefix_of` parent p.
Proof.
  intros Hne Hp. apply prefix_length in Hp. unfold parent in Hp.
  destruct p as [|x p] using rev_ind; [done|].
  rewrite removelast_last, length_app in Hp. simpl in Hp. lia.
Qed.

Lemma lookup_File_exists (t : tree) (p : path) (c : string) (m : Z) :
  lookup t p = Some (File c m) → exists_ t p = true ∧ is_file t p = true.
Proof. intros H. unfold exists_, is_file. by rewrite H. Qed.

(** ** A failed rendering writes nothing *)

Lemma render_template_fails engine src context d source mode e st :
  lookup (fs st) src = Some (File source mode) →
  py_dict context = inl d →
  engine source d = inr e →
  render_template engine src context st = (Raise e, st).
Proof.
  intros Hsrc Hd He. unfold render_template.
  erewrite bind_Ret; [|unfold read_text; by rewrite Hsrc].
  by rewrite Hd, He.
Qed.

Lemma build_entry_render_failure engine root_path context_dir
    (items : manifest) key k s d flag source mode e st :
  List.find (λ kv, String.eqb (fst kv) key) items
    = Some (k, [PStr s; PDict d; flag]) →
  lookup (fs st) (if is_absolute s then Path s else joinpath root_path s)
    = Some (File source mode) →
  engine source d = inr e →
  joinpath context_dir key ≠ [] →
  ∃ e' st',
    build_stage_entry engine root_path context_dir items key st = (Raise e', st')
    ∧ lookup (fs st') (joinpath context_dir key)
      = lookup (fs st) (joinpath context_dir key).
Proof.
  intros Hfind Hsrc He Hdst. unfold build_stage_entry, getitem.
  rewrite Hfind. cbn [snd]. do 3 step.
  destruct (lookup_File_exists _ _ _ _ Hsrc) as [Hex Hfile].
  step. rewrite Hex. step. step. rewrite Hfile. step.
  pose proof (mkdir_if_missing_spec (parent (joinpath context_dir key)) st) as H1.
  destruct (mkdir_if_missing _ st) as [[[]|c|e1] st1] eqn:E1; [|done|].
  2:{ subst st1. erewrite bind_Raise by exact E1. eauto. }
  destruct H1 as [Hk1 Ho1].
  erewrite bind_Ret by exact E1. step. cbn [List.length Nat.eqb].
  do 3 step.
  pose proof (mkdir_if_missing_spec (parent (joinpath context_dir key))
                (add_console (Stdout, "Creating file " +:+ quote (joinpath context_dir key) +:+ ".") st1)) as H2.
  destruct (mkdir_if_missing _ (add_console _ st1)) as [[[]|c|e2] st2] eqn:E2; [|done|].
  2:{ subst st2. erewrite bind_Raise by exact E2. eexists _, _. split; [done|].
      simpl. apply Ho1. by apply not_prefix_of_parent. }
  destruct H2 as [Hk2 Ho2]. simpl in Hk2, Ho2.
  erewrite bind_Ret by exact E2.
  erewrite bind_Raise.
  2:{ eapply render_template_fails; [|done|exact He].
      apply Hk2, Hk1, Hsrc. }
  eexists _, _. split; [done|].
  rewrite Ho2, Ho1; [done|by apply not_prefix_of_parent..].
Qed.

Lemma install_entry_render_failure engine root_path context_dir
    (items : manifest) key k s d flag source mode e st :
  List.find (λ kv, String.eqb (fst kv) key) items
    = Some (k, [PStr s; PDict d; flag]) →
  lookup (fs st) (joinpath root_path s) = Some (File source mode) →
  engine source d = inr e →
  joinpath context_dir key ≠ [] →
  ∃ e' st',
    install_entry engine root_path context_dir items key st = (Raise e', st')
    ∧ lookup (fs st') (joinpath context_dir key)
      = lookup (fs st) (joinpath context_dir key).
Proof.
  intros Hfind Hsrc He Hdst. unfold install_entry, getitem.
  rewrite Hfind. cbn [snd]. do 2 step. cbn [is_None].
  destruct (lookup_File_exists _ _ _ _ Hsrc) as [Hex Hfile].
  erewrite bind_Ret.
  2:{ step. rewrite Hex. step. reflexivity. }
  simpl (Nat.eqb _ _). cbv iota. step. step.
  cbn [fs add_console]. rewrite Hfile. do 4 step.
  pose proof (mkdir_if_missing_spec (parent (joinpath context_dir key))
                (add_console (Stdout, "Creating file " +:+ quote (joinpath context_dir key)) st)) as H1.
  destruct (mkdir_if_missing _ (add_console _ st)) as [[[]|c|e1] st1] eqn:E1; [|done|].
  2:{ subst st1. erewrite bind_Raise by exact E1. eauto. }
  destruct H1 as [Hk1 Ho1]. simpl in Hk1, Ho1.
  erewrite bind_Ret by exact E1.
  erewrite bind_Raise.
  2:{ eapply render_template_fails; [|done|exact He]. apply Hk1, Hsrc. }
  eexists _, _. split; [done|].
  rewrite Ho1; [done|by apply not_prefix_of_parent].
Qed.

(** C2, as the scripts have it. The engine is configured without a policy
    for undefined names, so that a template that refers to a variable that
    the context lacks can still be rendered, the reference giving the empty
    text, and the file is written. Whenever rendering does raise, under any
    engine, staging stops with an exception at that entry and the
    destination is left as it was. *)
Theorem failed_render_writes_nothing
    (engine : string → dict → string + exn) (root_path context_dir : path)
    (items : manifest) (key k s : string) (d : dict) (flag : pyval)
    (source : string) (mode : Z) (e : exn) (st : state) :
  List.find (λ kv, String.eqb (fst kv) key) items
    = Some (k, [PStr s; PDict d; flag]) →
  is_absolute s = false →
  lookup (fs st) (joinpath root_path s) = Some (File source mode) →
  engine source d = inr e →
  joinpath context_dir key ≠ [] →
  (∃ e' st',
     build_stage_entry engine root_path context_dir items key st = (Raise e', st')
     ∧ lookup (fs st') (joinpath context_dir key)
       = lookup (fs st) (joinpath context_dir key))
  ∧ (∃ e' st',
       install_entry engine root_path context_dir items key st = (Raise e', st')
       ∧ lookup (fs st') (joinpath context_dir key)
         = lookup (fs st) (joinpath context_dir key))
  ∧ Script.engine "Hello {{ name }}!" [] = inl "Hello !".
Proof.
  intros Hfind Habs Hsrc He Hdst. split; [|split].
  - eapply build_entry_render_failure; [exact Hfind| |exact He|exact Hdst].
    rewrite Habs. exact Hsrc.
  - eapply install_entry_render_failure; eauto.
  - vm_compute. reflexivity.
Qed.

Lemma failed_render_writes_nothing_witness :
  (∃ e' st',
     build_stage_entry Script.strict_engine Sample.root_path Sample.context_dir
       Sample.manifest_missing_variable "a.txt" Sample.state0 = (Raise e', st')
     ∧ lookup (fs st') (joinpath Sample.context_dir "a.txt")
       = lookup (fs Sample.state0) (joinpath Sample.context_dir "a.txt"))
  ∧ (∃ e' st',
       install_entry Script.strict_engine Sample.root_path Sample.context_dir
         Sample.manifest_missing_variable "a.txt" Sample.state0 = (Raise e', st')
       ∧ lookup (fs st') (joinpath Sample.context_dir "a.txt")
         = lookup (fs Sample.state0) (joinpath Sample.context_dir "a.txt"))
  ∧ Script.engine "Hello {{ name }}!" [] = inl "Hello !".
Proof.
  apply (failed_render_writes_nothing Script.strict_engine Sample.root_path
           Sample.context_dir Sample.manifest_missing_variable "a.txt" "a.txt"
           "greeting.j2" [] (PBool false) "Hello {{ name }}!" (octal [6; 4; 4]%Z)
           (Exception "UndefinedError") Sample.state0).
  - reflexivity.
  - reflexivity.
  - vm_compute. reflexivity.
  - vm_compute. reflexivity.
  - vm_compute. discriminate.
Defined.

(** The claim C2 fails on the scripts: the template [Hello {{ name }}!]
    staged with an empty context is rendered, and [Hello !] is written. *)
Lemma undefined_variable_is_rendered_empty :
  fst (build_stage Script.engine Sample.root_path Sample.context_dir
         Sample.manifest_missing_variable Sample.state0) = Ret tt
  ∧ fs (snd (build_stage Script.engine Sample.root_path Sample.context_dir
               Sample.manifest_missing_variable Sample.state0))
      !! (Sample.context_dir ++ ["a.txt"])
    = Some (File "Hello !" (octal [6; 6; 4]%Z))
  ∧ fst (install_items Script.engine Sample.root_path
           Sample.manifest_missing_variable Sample.context_dir Sample.state0)
    = Ret tt
  ∧ fs (snd (install_items Script.engine Sample.root_path
               Sample.manifest_missing_variable Sample.context_dir Sample.state0))
      !! (Sample.context_dir ++ ["a.txt"])
    = Some (File "Hello !" (octal [6; 6; 4]%Z)).
Proof. repeat split; vm_compute; reflexivity. Qed.

(** C5. [install_items] reports a context that is not a dictionary and goes
    on: the entry is rendered and written, and the later entry is staged as
    well. The loop of the build script stops at the same entry with exit
    code 1 and writes neither file. *)
Theorem install_items_goes_on_after_bad_context :
  fst (install_items Script.engine Sample.root_path
         Sample.manifest_bad_context Sample.context_dir Sample.state0) = Ret tt
  ∧ (Stdout, "Context for Jinja2 rendering must be a dictionary for element '/tmp/context_ab12/a.txt'.")
    ∈ console (snd (install_items Script.engine Sample.root_path
                      Sample.manifest_bad_context Sample.context_dir Sample.state0))
  ∧ fs (snd (install_items Script.engine Sample.root_path
               Sample.manifest_bad_context Sample.context_dir Sample.state0))
      !! (Sample.context_dir ++ ["a.txt"])
    = Some (File "FROM ubuntu" (octal [6; 6; 4]%Z))
  ∧ fs (snd (install_items Script.engine Sample.root_path
               Sample.manifest_bad_context Sample.context_dir Sample.state0))
      !! (Sample.context_dir ++ ["z.sh"])
    = Some (File "#!/bin/sh" (octal [7; 7; 5]%Z))
  ∧ fst (build_stage Script.engine Sample.root_path Sample.context_dir
           Sample.manifest_bad_context Sample.state0) = Exit 1
  ∧ fs (snd (build_stage Script.engine Sample.root_path Sample.context_dir
               Sample.manifest_bad_context Sample.state0))
      !! (Sample.context_dir ++ ["a.txt"]) = None
  ∧ fs (snd (build_stage Script.engine Sample.root_path Sample.context_dir
               Sample.manifest_bad_context Sample.state0))
      !! (Sample.context_dir ++ ["z.sh"]) = None.
Proof.
  repeat split; try (vm_compute; reflexivity).
  apply (bool_decide_unpack _). vm_compute. exact I.
Qed.

(** Staging does not depend on the order in which the entries were
    inserted into the manifest: two manifests with the same entries, staged
    from one state, give the same result, in the build script and in
    [install_items] alike; the entries are visited in the lexicographic
    order of their destination names. *)
Lemma staging_ignores_insertion_order
    (engine : string → dict → string + exn) (root_path context_dir : path)
    (m1 m2 : manifest) (st : state) :
  NoDup (keys m1) → m1 ≡ₚ m2 →
  build_stage engine root_path context_dir m1 st
  = build_stage engine root_path context_dir m2 st
  ∧ install_items engine root_path m1 context_dir st
    = install_items engine root_path m2 context_dir st
  ∧ sorted_keys m1 = sorted_keys m2
  ∧ Sorted String.le (sorted_keys m1)
  ∧ sorted_keys m1 ≡ₚ keys m1.
Proof.
  intros Hnd Hp.
  split; [|split; [|split; [|split]]].
  - unfold build_stage. rewrite (sorted_keys_perm m1 m2 Hp).
    apply for_each_ext. intros k st'. unfold build_stage_entry.
    by rewrite (getitem_perm m1 m2 k Hnd Hp).
  - unfold install_items. rewrite (sorted_keys_perm m1 m2 Hp).
    apply for_each_ext. intros k st'. unfold install_entry.
    by rewrite (getitem_perm m1 m2 k Hnd Hp).
  - by apply sorted_keys_perm.
  - apply sorted_keys_sorted.
  - apply sorted_keys_keys.
Qed.

Example insertion_order_sample :
  build_stage Script.engine Sample.root_path Sample.context_dir
              Sample.manifest_za Sample.state0
  = build_stage Script.engine Sample.root_path Sample.context_dir
                Sample.manifest_az Sample.state0
  ∧ install_items Script.engine Sample.root_path Sample.manifest_za
                  Sample.context_dir Sample.state0
    = install_items Script.engine Sample.root_path Sample.manifest_az
                    Sample.context_dir Sample.state0
  ∧ sorted_keys Sample.manifest_za = sorted_keys Sample.manifest_az
  ∧ Sorted String.le (sorted_keys Sample.manifest_za)
  ∧ sorted_keys Sample.manifest_za ≡ₚ keys Sample.manifest_za.
Proof.
  apply (staging_ignores_insertion_order Script.engine Sample.root_path
           Sample.context_dir Sample.manifest_za Sample.manifest_az
           Sample.state0).
  - apply (bool_decide_unpack _). vm_compute. exact I.
  - apply perm_swap.
Qed.

Example sorted_keys_sample :
  sorted_keys Sample.manifest_za = ["a.txt"; "z.sh"].
Proof. vm_compute. reflexivity. Qed.

End StagerFacts.

(* ===================================================================== *)
(** * Facts about the build command line                                 *)
(* ===================================================================== *)

Module CommandFacts.
Import Py Fs Eff World Stager Sample.
Import RosBaseBuild (pull_notice, missing_notice, local_notice).
Local Open Scope eff_scope.

Lemma ros_base_pull_branch (w : world) (pull : bool) (base_img : string)
    (cmd : list string) (st : state) :
  RosBaseBuild.pull_branch w pull base_img cmd st
  = if pull
    then (Ret (cmd ++ ["--pull"]), add_console (Stdout, pull_notice base_img) st)
    else match inspect w base_img with
         | InspectExited returncode =>
             (Ret cmd,
              add_console (Stdout,
                           if (returncode =? 0)%Z then local_notice base_img
                           else missing_notice base_img) st)
         | InspectFails e => (Raise e, st)
         end.
Proof.
  unfold RosBaseBuild.pull_branch, img_exists_locally.
  destruct pull; simpl; [done|].
  destruct (inspect w base_img) as [e|returncode]; [done|].
  unfold bind, ret. simpl. by destruct (returncode =? 0)%Z.
Qed.

(** The command of the base-image script: unless the inspect query could
    not be started, which raises, a command is returned, and it ends with
    the flags in their written order. *)
Lemma ros_base_make_cmd (w : world) (a : RosBaseBuild.args) (context_dir : path)
    (base_img requested_user requested_user_home ros_distro ros_version
     img_id_to_build : string) (st : state) :
  match RosBaseBuild.make_cmd w a context_dir base_img requested_user
          requested_user_home ros_distro ros_version img_id_to_build st with
  | (Ret cmd, _) =>
      ∃ pre,
        cmd = pre
              ++ RosBaseBuild.flags "--build-arg"
                   (RosBaseBuild.build_args base_img requested_user
                      requested_user_home ros_distro ros_version)
              ++ RosBaseBuild.flags "--label" (RosBaseBuild.labels w a)
              ++ ["--tag"; img_id_to_build; str context_dir]
  | (Raise e, st') =>
      RosBaseBuild.pull a = false ∧ inspect w base_img = InspectFails e ∧ st' = st
  | (Exit _, _) => False
  end.
Proof.
  unfold RosBaseBuild.make_cmd, bind. rewrite ros_base_pull_branch.
  assert (∀ cmd0 : list string,
            ∃ pre,
              (((if negb (RosBaseBuild.cache a) then cmd0 ++ ["--no-cache"]
                 else cmd0)
                ++ RosBaseBuild.flags "--build-arg"
                     (RosBaseBuild.build_args base_img requested_user
                        requested_user_home ros_distro ros_version))
               ++ RosBaseBuild.flags "--label" (RosBaseBuild.labels w a))
              ++ ["--tag"; img_id_to_build] ++ [str context_dir]
              = pre
                ++ RosBaseBuild.flags "--build-arg"
                     (RosBaseBuild.build_args base_img requested_user
                        requested_user_home ros_distro ros_version)
                ++ RosBaseBuild.flags "--label" (RosBaseBuild.labels w a)
                ++ ["--tag"; img_id_to_build; str context_dir]) as Hshape.
  { intros cmd0.
    exists (if negb (RosBaseBuild.cache a) then cmd0 ++ ["--no-cache"] else cmd0).
    change ["--tag"; img_id_to_build; str context_dir]
      with (["--tag"; img_id_to_build] ++ [str context_dir]).
    generalize (RosBaseBuild.flags "--build-arg"
                  (RosBaseBuild.build_args base_img requested_user
                     requested_user_home ros_distro ros_version)).
    generalize (RosBaseBuild.flags "--label" (RosBaseBuild.labels w a)).
    generalize (if negb (RosBaseBuild.cache a) then cmd0 ++ ["--no-cache"]
                else cmd0).
    intros l1 l2 l3. by rewrite !app_assoc. }
  destruct (RosBaseBuild.pull a) eqn:Hpull.
  - unfold ret. destruct (Hshape (["docker"; "build"; "--file";
                                   str (joinpath context_dir "Dockerfile");
                                   "--progress=plain"] ++ ["--pull"]))
      as [pre Hpre].
    exists pre. rewrite <- Hpre. by rewrite <- !app_assoc.
  - destruct (inspect w base_img) as [e|returncode]; [done|].
    unfold ret. destruct (Hshape ["docker"; "build"; "--file";
                                  str (joinpath context_dir "Dockerfile");
                                  "--progress=plain"]) as [pre Hpre].
    exists pre. rewrite <- Hpre. by rewrite <- !app_assoc.
Qed.

Lemma sensor_make_cmd (w : world) (a : SensorBuild.args) (dockerfile : path)
    (ubuntu_version ros_distro ros_version img_id_to_build
     meta_title meta_desc meta_authors : string) (st : state) :
  SensorBuild.make_cmd w a dockerfile ubuntu_version ros_distro ros_version
    img_id_to_build meta_title meta_desc meta_authors st
  = if SensorBuild.pull a then (Raise (Exception "NameError"), st)
    else (Ret ((["docker"; "build"; "--file"; str dockerfile; "--progress=plain"]
                ++ (if negb (SensorBuild.cache a) then ["--no-cache"] else []))
               ++ RosBaseBuild.flags "--build-arg"
                    (SensorBuild.arguments ubuntu_version ros_distro ros_version)
               ++ RosBaseBuild.flags "--label"
                    (SensorBuild.labels w meta_title meta_desc meta_authors)
               ++ ["--tag"; img_id_to_build; str (parent dockerfile)]), st).
Proof.
  unfold SensorBuild.make_cmd, SensorBuild.pull_branch, SensorBuild.flags.
  destruct (SensorBuild.pull a); [done|].
  unfold bind, ret. f_equal. f_equal.
  destruct (SensorBuild.cache a); simpl; reflexivity.
Qed.

(** C6, as the scripts have it. Each command line carries its
    [--build-arg] flags and then its [--label] flags in the order in which
    the keys are written in the script, whatever the values; that order is
    sorted by key for the build arguments of the base-image script only.
    The base-image script always arrives at such a command line, unless the
    inspect query of its pull branch could not be started. *)
Theorem flags_follow_the_written_order :
  (∀ w a context_dir base_img requested_user requested_user_home ros_distro
     ros_version img_id_to_build st,
     match RosBaseBuild.make_cmd w a context_dir base_img requested_user
             requested_user_home ros_distro ros_version img_id_to_build st with
     | (Ret cmd, _) =>
         ∃ pre,
           cmd = pre
                 ++ RosBaseBuild.flags "--build-arg"
                      (RosBaseBuild.build_args base_img requested_user
                         requested_user_home ros_distro ros_version)
                 ++ RosBaseBuild.flags "--label" (RosBaseBuild.labels w a)
                 ++ ["--tag"; img_id_to_build; str context_dir]
     | (Raise e, st') =>
         RosBaseBuild.pull a = false
         ∧ inspect w base_img = InspectFails e ∧ st' = st
     | (Exit _, _) => False
     end)
  ∧ (∀ base_img requested_user requested_user_home ros_distro ros_version,
       fst <$> RosBaseBuild.build_args base_img requested_user
                 requested_user_home ros_distro ros_version
       = ["BASE_IMG"; "REQUESTED_USER"; "REQUESTED_USER_HOME"; "ROS_DISTRO";
          "ROS_VERSION"])
  ∧ Sorted String.le ["BASE_IMG"; "REQUESTED_USER"; "REQUESTED_USER_HOME";
                      "ROS_DISTRO"; "ROS_VERSION"]
  ∧ (∀ w a,
       fst <$> RosBaseBuild.labels w a
       = ["org.opencontainers.image.created"; "org.opencontainers.image.title";
          "org.opencontainers.image.authors";
          "org.opencontainers.image.description"])
  ∧ (∀ w a dockerfile ubuntu_version ros_distro ros_version img_id_to_build
       meta_title meta_desc meta_authors st,
       SensorBuild.make_cmd w a dockerfile ubuntu_version ros_distro ros_version
         img_id_to_build meta_title meta_desc meta_authors st
       = if SensorBuild.pull a then (Raise (Exception "NameError"), st)
         else (Ret ((["docker"; "build"; "--file"; str dockerfile;
                      "--progress=plain"]
                     ++ (if negb (SensorBuild.cache a) then ["--no-cache"] else []))
                    ++ RosBaseBuild.flags "--build-arg"
                         (SensorBuild.arguments ubuntu_version ros_distro
                            ros_version)
                    ++ RosBaseBuild.flags "--label"
                         (SensorBuild.labels w meta_title meta_desc meta_authors)
                    ++ ["--tag"; img_id_to_build; str (parent dockerfile)]), st))
  ∧ (∀ ubuntu_version ros_distro ros_version,
       fst <$> SensorBuild.arguments ubuntu_version ros_distro ros_version
       = ["UBUNTU_VERSION"; "ROS_DISTRO"; "ROS_VERSION"])
  ∧ (∀ w meta_title meta_desc meta_authors,
       fst <$> SensorBuild.labels w meta_title meta_desc meta_authors
       = ["org.opencontainers.image.created"; "org.opencontainers.image.title";
          "org.opencontainers.image.description";
          "org.opencontainers.image.authors"]).
Proof.
  repeat split; try reflexivity.
  - intros. apply ros_base_make_cmd.
  - apply (bool_decide_unpack _). vm_compute. exact I.
  - intros. apply sensor_make_cmd.
Qed.

(** The claim C6 fails on the scripts: the label keys of the base-image
    script and the build-argument keys of the sensor script are not in
    sorted order. *)
Lemma flags_are_not_sorted :
  ¬ Sorted String.le (fst <$> RosBaseBuild.labels world_success base_args)
  ∧ ¬ Sorted String.le (fst <$> SensorBuild.arguments "22.04" "humble" "2")
  ∧ ¬ Sorted String.le
        (fst <$> SensorBuild.labels world_success "title" "description" "me").
Proof.
  repeat split; apply (proj1 (bool_decide_eq_false _)); vm_compute; reflexivity.
Qed.

(** C7, as the scripts have it. In the base-image script a requested pull
    always appends [--pull], whatever the inspect query would do: the query
    is not part of that path, and an engine that cannot be started does not
    keep the flag from being added. Without a requested pull no flag is
    added; the query is run, return code 0 gives the notice of the local
    copy and any other return code counts as absent and gives the notice
    of the missing copy. A query that cannot be started is not counted as
    absent: the exception leaves the branch, nothing of what follows in the
    [try] block is run, and the script reports the error and leaves with
    the value of [exit_code]. The sensor script has no base image to look
    up: without a requested pull it adds no flag and prints no notice,
    whatever the engine. *)
Theorem pull_policy :
  (∀ w base_img cmd st,
     RosBaseBuild.pull_branch w true base_img cmd st
     = (Ret (cmd ++ ["--pull"]), add_console (Stdout, pull_notice base_img) st))
  ∧ (∀ w base_img cmd st,
       RosBaseBuild.pull_branch w false base_img cmd st
       = match inspect w base_img with
         | InspectExited returncode =>
             (Ret cmd,
              add_console (Stdout,
                           if (returncode =? 0)%Z then local_notice base_img
                           else missing_notice base_img) st)
         | InspectFails e => (Raise e, st)
         end)
  ∧ (∀ w base_img cmd (rest : list string → M unit) st,
       match inspect w base_img with
       | InspectFails e =>
           try_finally_exit
             (bind (RosBaseBuild.pull_branch w false base_img cmd) rest) st
           = (Exit (exit_code st),
              add_console (Stdout,
                           match e with
                           | KeyboardInterrupt => "Aborted by user (Ctrl-C)"
                           | Exception cls => "Error: " +:+ cls
                           end) st)
       | InspectExited _ => True
       end)
  ∧ (∀ cmd st, SensorBuild.pull_branch false cmd st = (Ret cmd, st)).
Proof.
  split; [|split; [|split]].
  - intros. by rewrite ros_base_pull_branch.
  - intros. by rewrite ros_base_pull_branch.
  - intros w base_img cmd rest st.
    destruct (inspect w base_img) as [e|returncode] eqn:Hi; [|done].
    unfold try_finally_exit, bind. rewrite ros_base_pull_branch, Hi.
    by destruct e.
  - reflexivity.
Qed.

(** The claim C7 fails on the scripts. In the base-image script an inspect
    query that cannot be started is fatal: without a requested pull the
    script reports the error and leaves with status 1, and no build command
    is issued. In the sensor script, without a requested pull and without a
    local copy nothing is printed before the command is issued, and with a
    requested pull the script stops with [NameError] before any command
    line exists. *)
Lemma pull_policy_fails :
  RosBaseBuild.pull base_args = false
  ∧ fst (RosBaseBuild.main Script.engine ["repo"] world_no_engine base_args
           repo_state) = Exit 1
  ∧ (Stdout, "Error: FileNotFoundError")
    ∈ console (snd (RosBaseBuild.main Script.engine ["repo"] world_no_engine
                      base_args repo_state))
  ∧ ((Stdout, "Executing command:")
     ∉ console (snd (RosBaseBuild.main Script.engine ["repo"] world_no_engine
                       base_args repo_state)))
  ∧ inspect world_success "ubuntu:22.04" = InspectExited 1
  ∧ (∀ line, (Stdout, line) ∈ console (snd (SensorBuild.make_cmd world_success
                 sensor_args ["work"; "Dockerfile"] "22.04" "humble" "2"
                 "myrepo/lidar:1.0" "title" "description" "me" repo_state))
             → False)
  ∧ SensorBuild.main yaml_safe_load ["repo"] world_success sensor_args_pull repo_state
    = (Raise (Exception "NameError"), repo_state).
Proof.
  split; [reflexivity|]. split; [vm_compute; reflexivity|].
  split; [apply (bool_decide_unpack _); vm_compute; exact I|].
  split; [apply (bool_decide_unpack _); vm_compute; exact I|].
  split; [reflexivity|]. split.
  - intros line. vm_compute. apply not_elem_of_nil.
  - vm_cast_no_check
      (eq_refl (Raise (A:=unit) (Exception "NameError"), repo_state)).
Qed.

End CommandFacts.

(* ===================================================================== *)
(** * Facts about the exit code and the logs                             *)
(* ===================================================================== *)

Module RunFacts.
Import Py Fs Eff World Stager Logs Sample.
Local Open Scope eff_scope.

(** A failed deletion turns a zero exit code into 1 and leaves any other
    exit code as it is. *)
Lemma report_unlink_error_exit_code (st : state) :
  fst (report_unlink_error st) = Ret tt
  ∧ exit_code (snd (report_unlink_error st))
    = (if (exit_code st =? 0)%Z then 1 else exit_code st)%Z
  ∧ exit_code (snd (report_unlink_error st)) ≠ 0%Z.
Proof.
  unfold report_unlink_error, bind, eprint, read_exit_code, assign_exit_code.
  simpl. repeat split.
  destruct (exit_code st =? 0)%Z eqn:E; [done|]. by apply Z.eqb_neq.
Qed.

(** The frame around the pipeline always ends the process with the value of
    [exit_code]. *)
Lemma try_finally_exit_code (body : M unit) (st : state) :
  fst (try_finally_exit body st)
  = Exit (exit_code (snd (try_finally_exit body st))).
Proof.
  unfold try_finally_exit. destruct (body st) as [[?|?|[|?]] st1]; reflexivity.
Qed.

(** C3. The sensor script starts from [exit_code = 0]: when the user
    interrupts the build, or the engine cannot be started, the process
    ends with exit code 0 although no build succeeded. The base-image
    script, which starts from [exit_code = 1], ends with 1 in both cases. *)
Theorem sensor_build_exits_zero_without_a_build :
  fst (SensorBuild.main yaml_safe_load ["repo"] world_interrupt sensor_args
         repo_state) = Exit 0
  ∧ fst (SensorBuild.main yaml_safe_load ["repo"] world_no_engine sensor_args
           repo_state) = Exit 0
  ∧ fst (RosBaseBuild.main Script.engine ["repo"] world_interrupt base_args
           repo_state) = Exit 1
  ∧ fst (RosBaseBuild.main Script.engine ["repo"] world_no_engine base_args
           repo_state) = Exit 1.
Proof. repeat split; vm_compute; reflexivity. Qed.

Example successful_build_logs :
  fst (RosBaseBuild.main Script.engine ["repo"] world_success base_args
         repo_state) = Exit 0
  ∧ fs (snd (RosBaseBuild.main Script.engine ["repo"] world_success base_args
               repo_state)) !! sample_specific_log
    = Some (File ("[2024-01-01_00-00-00] start" +:+ nl
                  +:+ "[2024-01-01_00-00-05] done" +:+ nl) (octal [6; 4; 4]%Z)).
Proof. repeat split; vm_compute; reflexivity. Qed.

(** C8. When the engine exits with a non-zero code, the report of the
    failure raises before the filter block is reached: the marked line of
    the complete log is not copied to a specific log, and a complete log
    of zero bytes is kept. Both build scripts behave so. *)
Theorem failed_build_skips_the_log_filter :
  fst (RosBaseBuild.main Script.engine ["repo"] world_failure base_args
         repo_state) = Exit 1
  ∧ fs (snd (RosBaseBuild.main Script.engine ["repo"] world_failure base_args
               repo_state)) !! sample_complete_log
    = Some (File ("[2024-01-01_00-00-00] start" +:+ nl) (octal [6; 4; 4]%Z))
  ∧ fs (snd (RosBaseBuild.main Script.engine ["repo"] world_failure base_args
               repo_state)) !! sample_specific_log = None
  ∧ fs (snd (RosBaseBuild.main Script.engine ["repo"] world_silent_failure
               base_args repo_state)) !! sample_complete_log
    = Some (File "" (octal [6; 4; 4]%Z))
  ∧ fs (snd (SensorBuild.main yaml_safe_load ["repo"] world_failure sensor_args
               repo_state)) !! sensor_specific_log = None
  ∧ fs (snd (SensorBuild.main yaml_safe_load ["repo"] world_silent_failure
               sensor_args repo_state)) !! sensor_complete_log
    = Some (File "" (octal [6; 4; 4]%Z)).
Proof. repeat split; vm_compute; reflexivity. Qed.

End RunFacts.

(* ===================================================================== *)
(** * Facts about the lifetime of the context directory                  *)
(* ===================================================================== *)

Module LifetimeFacts.
Import Py Fs Eff World Stager Logs Sample StagerFacts.
Local Open Scope eff_scope.

Create HintDb reads_only.
Create HintDb grows.

Lemma preserves_bind {A B : Type} (P : tree → Prop) (m : M A) (k : A → M B) :
  preserves P m → (∀ a, preserves P (k a)) → preserves P (bind m k).
Proof.
  intros Hm Hk st HP. unfold bind. specialize (Hm st HP).
  destruct (m st) as [[a|c|e] st1]; simpl in *; [by apply Hk|done..].
Qed.

Lemma reads_only_preserves {A : Type} (P : tree → Prop) (m : M A) :
  reads_only m → preserves P m.
Proof. intros Hm st HP. by rewrite Hm. Qed.

Lemma preserves_when (P : tree → Prop) (b : bool) (m : M unit) :
  preserves P m → preserves P (when b m).
Proof. intros Hm. destruct b; [done|]. by intros st HP. Qed.

Lemma preserves_for_each {A : Type} (P : tree → Prop) (xs : list A)
    (f : A → M unit) :
  (∀ x, preserves P (f x)) → preserves P (for_each xs f).
Proof.
  intros Hf. induction xs as [|x xs IH]; simpl.
  - by intros st HP.
  - apply preserves_bind; [apply Hf|by intros _].
Qed.

Lemma preserves_try_finally_exit (P : tree → Prop) (body : M unit) :
  preserves P body → preserves P (try_finally_exit body).
Proof.
  intros Hb st HP. unfold try_finally_exit. specialize (Hb st HP).
  destruct (body st) as [[?|?|[|?]] st1]; simpl in *; done.
Qed.

Lemma reads_only_ret {A : Type} (a : A) : reads_only (ret a).
Proof. by intros st. Qed.
Lemma reads_only_sys_exit {A : Type} (c : Z) : reads_only (@sys_exit A c).
Proof. by intros st. Qed.
Lemma reads_only_raise {A : Type} (e : exn) : reads_only (@raise A e).
Proof. by intros st. Qed.
Lemma reads_only_print (s : string) : reads_only (print s).
Proof. by intros st. Qed.
Lemma reads_only_eprint (s : string) : reads_only (eprint s).
Proof. by intros st. Qed.
Lemma reads_only_assign_exit_code (c : Z) : reads_only (assign_exit_code c).
Proof. by intros st. Qed.
Lemma reads_only_read_exit_code : reads_only read_exit_code.
Proof. by intros st. Qed.
Lemma reads_only_path_exists (p : path) : reads_only (path_exists p).
Proof. by intros st. Qed.
Lemma reads_only_path_is_file (p : path) : reads_only (path_is_file p).
Proof. by intros st. Qed.
Lemma reads_only_path_is_dir (p : path) : reads_only (path_is_dir p).
Proof. by intros st. Qed.
Lemma reads_only_read_text (p : path) : reads_only (read_text p).
Proof. intros st. unfold read_text. by destruct (lookup _ _) as [[]|]. Qed.
Lemma reads_only_stat_size (p : path) : reads_only (stat_size p).
Proof. intros st. unfold stat_size. by destruct (lookup _ _) as [[]|]. Qed.
Lemma reads_only_getitem (items : manifest) (k : string) :
  reads_only (getitem items k).
Proof. intros st. unfold getitem. by destruct (List.find _ _). Qed.
Lemma reads_only_index (item : list pyval) (i : nat) : reads_only (index item i).
Proof. intros st. unfold index. by destruct (item !! i). Qed.

#[local] Hint Resolve reads_only_ret reads_only_sys_exit reads_only_raise
  reads_only_print reads_only_eprint reads_only_assign_exit_code
  reads_only_read_exit_code reads_only_path_exists reads_only_path_is_file
  reads_only_path_is_dir reads_only_read_text reads_only_stat_size
  reads_only_getitem reads_only_index : reads_only.

Ltac pres :=
  repeat match goal with
  | |- preserves _ (bind _ _) => apply preserves_bind; [|intros ?]
  | |- preserves _ (when _ _) => apply preserves_when
  | |- preserves _ (for_each _ _) => apply preserves_for_each; intros ?
  | |- preserves _ (try_finally_exit _) => apply preserves_try_finally_exit
  | |- preserves _ (match ?x with _ => _ end) => destruct x
  | |- preserves _ _ =>
      first [ apply reads_only_preserves; solve [auto with reads_only]
            | solve [auto with grows] ]
  end.

Lemma preserves_usable_file (P : tree → Prop) (p : path) :
  preserves P (RosBaseBuild.usable_file p).
Proof. unfold RosBaseBuild.usable_file. pres. Qed.

Lemma preserves_read_required (P : tree → Prop) (p : path) :
  preserves P (RosBaseBuild.read_required p).
Proof. unfold RosBaseBuild.read_required. pres. Qed.

#[local] Hint Resolve preserves_usable_file preserves_read_required : grows.

Lemma preserves_make_items_to_use (P : tree → Prop) w a ros_distro ros_version
    use_environment ros_packages extra_ros_env_vars :
  preserves P (RosBaseBuild.make_items_to_use w a ros_distro ros_version
                 use_environment ros_packages extra_ros_env_vars).
Proof. unfold RosBaseBuild.make_items_to_use. cbv zeta. pres. Qed.

#[local] Hint Resolve preserves_make_items_to_use : grows.

(** ** The temporary directory is gone when the block is left *)

Lemma clear_rmtree (d : path) (t : tree) : clear d (rmtree d t).
Proof.
  unfold clear, rmtree. apply map_Forall_lookup. intros p n Hp.
  apply map_lookup_filter_Some in Hp as [_ Hp]. exact Hp.
Qed.

Lemma preserves_with_TemporaryDirectory {A : Type} (w : world)
    (body : path → M A) :
  preserves (clear (context_of w)) (with_TemporaryDirectory w body).
Proof.
  intros st HP. unfold with_TemporaryDirectory, mkdtemp.
  destruct (lookup (fs st) ["tmp"]) as [[?|?]|]; [done| |done].
  destruct (lookup (fs st) (context_of w)); [done|].
  destruct (body _ _) as [r st2]. simpl. apply clear_rmtree.
Qed.

#[local] Hint Resolve preserves_with_TemporaryDirectory : grows.

Lemma ros_base_main_keeps_clear engine root_path w a :
  preserves (clear (context_of w)) (RosBaseBuild.main engine root_path w a).
Proof. unfold RosBaseBuild.main. cbv zeta. pres. Qed.

(** ** Staging never removes anything *)

Lemma stays_insert (d p : path) (n : node) (t : tree) :
  stays d t → stays d (<[p := n]> t).
Proof.
  unfold stays, exists_, lookup. destruct (decide (d = [])); [done|].
  destruct (decide (p = d)) as [->|Hne].
  - by rewrite lookup_insert_eq.
  - by rewrite lookup_insert_ne.
Qed.

Lemma stays_mkdir_parents (d p : path) : preserves (stays d) (mkdir_parents p).
Proof.
  intros st HP. unfold mkdir_parents. destruct p as [|c p']; [done|].
  destruct (mkdir_prefixes [] (c :: p') (umask st) (fs st)) as [t'|e] eqn:E;
    [|done].
  apply mkdir_prefixes_keeps in E as [Hk _]. simpl.
  unfold stays, exists_ in *. destruct (lookup (fs st) d) as [n|] eqn:En; [|done].
  by rewrite (Hk d n En).
Qed.

Lemma stays_write_text (d p : path) (text : string) : preserves (stays d) (write_text p text).
Proof.
  intros st HP. unfold write_text.
  destruct (lookup (fs st) (parent p)) as [[?|?]|]; [done| |done].
  destruct (lookup (fs st) p) as [[?|?]|]; simpl; [|done|]; by apply stays_insert.
Qed.

Lemma stays_chmod (d p : path) (mode : Z) : preserves (stays d) (chmod p mode).
Proof.
  intros st HP. unfold chmod.
  destruct (lookup (fs st) p) as [[?|?]|]; simpl; [|destruct p|done];
    simpl; try done; by apply stays_insert.
Qed.

Lemma stays_copy2 (d src dst : path) : preserves (stays d) (copy2 src dst).
Proof.
  intros st HP. unfold copy2.
  destruct (lookup (fs st) src) as [[c m|?]|]; [|done..].
  destruct (decide _); [done|].
  pose proof (stays_write_text d (if is_dir (fs st) dst then dst ++ [name src] else dst)
                c st HP) as Hw.
  destruct (write_text _ c st) as [[[]|?|?] st1]; simpl in *; [|done..].
  by apply stays_chmod.
Qed.

Lemma stays_touch (d p : path) : preserves (stays d) (touch p).
Proof.
  intros st HP. unfold touch. destruct (lookup (fs st) p); [done|].
  by apply stays_write_text.
Qed.

Lemma stays_graft (d src dst : path) (t : tree) : stays d t → stays d (graft src dst t).
Proof.
  intros HP. unfold graft.
  apply (map_fold_weak_ind (λ acc _, stays d acc)); [done|].
  intros p n m acc _ IH. destruct (relative_to src p); [|done].
  by apply stays_insert.
Qed.

Lemma stays_copytree (d src dst : path) : preserves (stays d) (copytree src dst).
Proof.
  intros st HP. unfold copytree. destruct (exists_ (fs st) dst); [done|].
  destruct (lookup (fs st) (parent dst)) as [[?|?]|]; simpl; [done| |done].
  by apply stays_graft.
Qed.

#[local] Hint Resolve stays_mkdir_parents stays_write_text stays_chmod
  stays_copy2 stays_touch stays_copytree : grows.

Lemma stays_mkdir_if_missing (d p : path) : preserves (stays d) (mkdir_if_missing p).
Proof. unfold mkdir_if_missing. pres. Qed.

Lemma stays_chmod_by_flag (d p : path) (flag : pyval) : preserves (stays d) (chmod_by_flag p flag).
Proof. unfold chmod_by_flag. pres. Qed.

Lemma preserves_render_template (P : tree → Prop)
    (engine : string → dict → string + exn) (src : path) (context : pyval) :
  preserves P (render_template engine src context).
Proof. unfold render_template. pres. Qed.

#[local] Hint Resolve stays_mkdir_if_missing stays_chmod_by_flag
  preserves_render_template : grows.

Lemma stays_install_entry (d : path) (engine : string → dict → string + exn)
    (root_path context_dir : path) (items : manifest) (key : string) :
  preserves (stays d) (install_entry engine root_path context_dir items key).
Proof. unfold install_entry. cbv zeta. pres. Qed.

Lemma stays_install_items (d : path) (engine : string → dict → string + exn)
    (root_path : path) (items : manifest) (context_dir : path) :
  preserves (stays d) (install_items engine root_path items context_dir).
Proof.
  unfold install_items. apply preserves_for_each. intros key.
  apply stays_install_entry.
Qed.

Lemma preserves_create_items_to_install (P : tree → Prop) w a base_img
    img_user ros_distro ros_version img_id_to_build use_base_img_entrypoint
    use_environment use_host_nvidia_driver ros_packages_file
    extra_ros_env_vars_file :
  preserves P (CreateDockerFiles.create_items_to_install w a base_img
                 img_user ros_distro ros_version img_id_to_build
                 use_base_img_entrypoint use_environment use_host_nvidia_driver
                 ros_packages_file extra_ros_env_vars_file).
Proof.
  unfold CreateDockerFiles.create_items_to_install,
    CreateDockerFiles.read_required. cbv zeta. pres.
Qed.

#[local] Hint Resolve stays_install_items preserves_create_items_to_install
  : grows.

(** ** What holds once a script has ended normally *)

Lemma ensures_bind {A B : Type} (m : M A) (k : A → M B) (Q : tree → Prop) :
  (∀ a, ensures (k a) Q) → ensures (bind m k) Q.
Proof.
  intros Hk st. unfold bind. destruct (m st) as [[a|c|e] st1]; [|done..].
  apply Hk.
Qed.

Lemma ensures_sys_exit {A : Type} (c : Z) (Q : tree → Prop) :
  ensures (@sys_exit A c) Q.
Proof. by intros st. Qed.

Lemma ensures_mkdtemp_bind {B : Type} (w : world) (k : path → M B) :
  (∀ d, preserves (stays d) (k d)) →
  ensures (bind (mkdtemp w) k) (stays (context_of w)).
Proof.
  intros Hk st. unfold bind, mkdtemp.
  destruct (lookup (fs st) ["tmp"]) as [[?|?]|]; [done| |done].
  destruct (lookup (fs st) (context_of w)); [done|].
  specialize (Hk (context_of w)
                (set_fs (<[context_of w := Dir (octal [7; 0; 0]%Z)]> (fs st)) st)).
  destruct (k _ _) as [[b|?|?] st2]; [|done..].
  apply Hk. simpl. unfold stays, exists_, lookup. simpl.
  by rewrite lookup_insert_eq.
Qed.

Lemma create_docker_files_keeps_context engine root_path w a :
  ensures (CreateDockerFiles.main engine root_path w a) (stays (context_of w)).
Proof.
  unfold CreateDockerFiles.main. cbv zeta.
  destruct (RosBaseBuild.distro _) as [[ros_version ubuntu_version]|].
  2:{ apply ensures_bind. intros _. apply ensures_sys_exit. }
  do 3 (apply ensures_bind; intros ?).
  apply ensures_mkdtemp_bind. intros d. pres.
Qed.

(** C1, as the scripts have it. Whatever the build script
    [ros_base_imgs/build.py] meets (a rejected input, an entry that cannot
    be staged, an engine that cannot be started, a failed or a successful
    build, an interrupt), nothing is left at or below its temporary context
    directory when the process ends. [create_docker_files.py] makes its
    context directory with [mkdtemp] and never removes it: when the script
    ends normally the directory is on disk. *)
Theorem context_directory_lifetime
    (engine : string → dict → string + exn) (root_path : path) (w : world)
    (a : RosBaseBuild.args) (a' : CreateDockerFiles.args) (st : state) :
  clear (context_of w) (fs st) →
  clear (context_of w) (fs (snd (RosBaseBuild.main engine root_path w a st)))
  ∧ (fst (CreateDockerFiles.main engine root_path w a' st) = Ret tt →
     stays (context_of w)
           (fs (snd (CreateDockerFiles.main engine root_path w a' st)))).
Proof.
  intros Hclear. split.
  - by apply ros_base_main_keeps_clear.
  - intros Hret.
    pose proof (create_docker_files_keeps_context engine root_path w a' st) as H.
    destruct (CreateDockerFiles.main engine root_path w a' st) as [[[]|?|?] st'];
      simpl in *; done.
Qed.

Lemma context_directory_lifetime_witness :
  clear (context_of world_interrupt)
        (fs (snd (RosBaseBuild.main Script.engine ["repo"] world_interrupt
                    base_args repo_state)))
  ∧ stays (context_of world_interrupt)
          (fs (snd (CreateDockerFiles.main Script.engine ["repo"] world_interrupt
                      files_args repo_state))).
Proof.
  destruct (context_directory_lifetime Script.engine ["repo"] world_interrupt
              base_args files_args repo_state) as [H1 H2].
  - apply (bool_decide_unpack _). vm_compute. exact I.
  - split; [exact H1|]. apply H2. vm_compute. reflexivity.
Defined.

(** The claim C1 fails on [create_docker_files.py]: after a complete run
    the context directory and the staged files are on disk. *)
Lemma create_docker_files_leaves_the_context :
  fst (CreateDockerFiles.main Script.engine ["repo"] world_success files_args
         repo_state) = Ret tt
  ∧ fs (snd (CreateDockerFiles.main Script.engine ["repo"] world_success
               files_args repo_state)) !! sample_context
    = Some (Dir (octal [7; 0; 0]%Z))
  ∧ fs (snd (CreateDockerFiles.main Script.engine ["repo"] world_success
               files_args repo_state)) !! (sample_context ++ ["Dockerfile"])
    = Some (File "FROM ubuntu:22.04" (octal [6; 6; 4]%Z)).
Proof. repeat split; vm_compute; reflexivity. Qed.

Example build_script_removes_the_context :
  fs (snd (RosBaseBuild.main Script.engine ["repo"] world_success base_args
             repo_state)) !! sample_context = None
  ∧ fs (snd (RosBaseBuild.main Script.engine ["repo"] world_failure base_args
               repo_state)) !! sample_context = None
  ∧ fs (snd (RosBaseBuild.main Script.engine ["repo"] world_interrupt base_args
               repo_state)) !! sample_context = None
  ∧ fs (snd (RosBaseBuild.main Script.engine ["repo"] world_interrupt base_args
               repo_state)) !! (sample_context ++ ["Dockerfile"]) = None.
Proof. repeat split; vm_compute; reflexivity. Qed.

End LifetimeFacts.

(* ===================================================================== *)
(** * Further facts about the image-reference validator                  *)
(* ===================================================================== *)

Module ValidatorFacts.
Import Regex RegexFacts ImageName ImageGrammar.

Lemma chars_app (a b : string) :
  list_ascii_of_string (a +:+ b)
  = list_ascii_of_string a ++ list_ascii_of_string b.
Proof. induction a as [|c a IH]; simpl; [done|]. by rewrite IH. Qed.

Lemma is_valid_iff (name : string) :
  is_valid_docker_img_name name = true ↔
  Matches full_re (list_ascii_of_string name)
  ∨ ∃ t, list_ascii_of_string name = t ++ [newline] ∧ Matches full_re t.
Proof. unfold is_valid_docker_img_name. apply match_anchored_Matches. Qed.

(** ** Building matches *)

Lemma Matches_Opt_nil r : Matches (Opt r) [].
Proof. apply MAltR. constructor. Qed.

Lemma Matches_Opt_some r s : Matches r s → Matches (Opt r) s.
Proof. apply MAltL. Qed.

Lemma Matches_Opt_inv r s : Matches (Opt r) s → s = [] ∨ Matches r s.
Proof.
  intros [H|H]%Matches_Alt_inv; [by right|]. left. by apply Matches_Eps_inv.
Qed.

Lemma Matches_Star_Forall a s :
  Forall (λ c, accepts a c = true) s → Matches (Star (Sym a)) s.
Proof.
  induction 1 as [|c s Hc _ IH]; [constructor|].
  apply (MStarS _ [c] s); [by constructor|done].
Qed.

Lemma Matches_Plus_Forall a s :
  s ≠ [] → Forall (λ c, accepts a c = true) s → Matches (Plus (Sym a)) s.
Proof.
  intros Hne Hall. destruct Hall as [|c s Hc Hs]; [done|].
  apply (MCat _ _ [c] s); [by constructor|by apply Matches_Star_Forall].
Qed.

Lemma Matches_Star_concat r (ss : list (list ascii)) :
  Forall (Matches r) ss → Matches (Star r) (List.concat ss).
Proof.
  induction 1 as [|s ss Hs _ IH]; simpl; [constructor|].
  by apply MStarS.
Qed.

(** ** Taking matches apart *)

Lemma Matches_Star_ind' r (P : list ascii → Prop) :
  P [] →
  (∀ s1 s2, Matches r s1 → Matches (Star r) s2 → P s2 → P (s1 ++ s2)) →
  ∀ s, Matches (Star r) s → P s.
Proof.
  intros H0 HS s H. remember (Star r) as r' eqn:Er.
  induction H as [| | | | | |r0 s1 s2 H1 _ H2 IH2]; try discriminate.
  - done.
  - injection Er as ->. apply HS; auto.
Qed.

Lemma Matches_alphabet r s :
  Matches r s → Forall (λ c, alphabet r c = true) s.
Proof.
  induction 1 as [|a c Hc|r1 r2 s1 s2 _ IH1 _ IH2|r1 r2 s _ IH|r1 r2 s _ IH
                  |r|r s1 s2 _ IH1 _ IH2]; simpl.
  - constructor.
  - by repeat constructor.
  - apply Forall_app. split.
    + eapply Forall_impl; [exact IH1|]. simpl. intros c ->. done.
    + eapply Forall_impl; [exact IH2|]. simpl. intros c ->. apply orb_true_r.
  - eapply Forall_impl; [exact IH|]. simpl. intros c ->. done.
  - eapply Forall_impl; [exact IH|]. simpl. intros c ->. apply orb_true_r.
  - constructor.
  - apply Forall_app. split; [exact IH1|exact IH2].
Qed.

Lemma Matches_nonempty r s : nullable r = false → Matches r s → s ≠ [].
Proof.
  intros Hn H ->. apply nullable_Matches in H. congruence.
Qed.

(** ** The character classes of the pattern *)

Lemma accepts_lower_alnum c :
  accepts (Class [Rng "a" "z"; Rng "0" "9"]) c = is_lower_alnum c.
Proof. unfold accepts, ascii_symbol. simpl. by rewrite orb_false_r. Qed.

Lemma accepts_host_char c :
  accepts (Class [Rng "a" "z"; Rng "0" "9"; Chr "."; Chr "-"]) c = is_host_char c.
Proof.
  unfold accepts, ascii_symbol. simpl.
  unfold is_host_char, is_lower_alnum, is_lower, is_digit.
  rewrite orb_false_r, !orb_assoc. done.
Qed.

Lemma accepts_port_char c : accepts (Class [Rng "0" "9"]) c = is_digit c.
Proof. unfold accepts, ascii_symbol. simpl. by rewrite orb_false_r. Qed.

Lemma accepts_tag_char c :
  accepts (Class [Rng "a" "z"; Rng "A" "Z"; Rng "0" "9"; Chr "_"; Chr "."; Chr "-"]) c
  = is_tag_char c.
Proof.
  unfold accepts, ascii_symbol. simpl.
  unfold is_tag_char, is_lower, is_upper, is_digit.
  rewrite orb_false_r, !orb_assoc. done.
Qed.

Lemma Forall_accepts (a : atom) (p : ascii → bool) (s : list ascii) :
  (∀ c, accepts a c = p c) →
  Forall (λ c, p c = true) s → Forall (λ c, accepts a c = true) s.
Proof.
  intros E H. eapply Forall_impl; [exact H|]. intros c. by rewrite E.
Qed.

(** ** Every reference of the grammar is accepted *)

Lemma run_Matches r :
  run_ok r → Matches (Plus (Sym (Class [Rng "a" "z"; Rng "0" "9"]))) r.
Proof.
  intros [Hne Hall]. apply Matches_Plus_Forall; [done|].
  by apply (Forall_accepts _ is_lower_alnum); [apply accepts_lower_alnum|].
Qed.

Lemma separator_Matches s : Matches path_separator (separator_chars s).
Proof.
  unfold path_separator. destruct s as [| | |n]; simpl.
  - apply MAltL. by constructor.
  - apply MAltR, MAltL. apply (MCat _ _ ["_"%char] []); [by constructor|].
    apply Matches_Opt_nil.
  - apply MAltR, MAltL. apply (MCat _ _ ["_"%char] ["_"%char]); [by constructor|].
    apply Matches_Opt_some. by constructor.
  - apply MAltR, MAltR.
    change ("-"%char :: replicate n "-"%char) with (replicate (S n) "-"%char).
    apply Matches_Plus_Forall; [done|].
    apply Forall_replicate. done.
Qed.

Lemma component_Matches p :
  component_ok p → Matches path_component (component_chars p).
Proof.
  intros [Hfirst Hmore]. unfold path_component, component_chars.
  constructor; [by apply run_Matches|].
  apply Matches_Star_concat. apply Forall_fmap.
  eapply Forall_impl; [exact Hmore|]. intros [s r] Hr. simpl in *.
  constructor; [apply separator_Matches|by apply run_Matches].
Qed.

Lemma path_Matches p ps :
  component_ok p → Forall component_ok ps →
  Matches path_re
    (component_chars p ++ List.concat ((λ q, "/"%char :: component_chars q) <$> ps)).
Proof.
  intros Hp Hps. unfold path_re. constructor; [by apply component_Matches|].
  apply Matches_Star_concat. apply Forall_fmap.
  eapply Forall_impl; [exact Hps|]. intros q Hq. simpl.
  apply (MCat _ _ ["/"%char] (component_chars q)); [by constructor|].
  by apply component_Matches.
Qed.

Lemma host_Matches h :
  host_ok h → Matches host_and_port_prefix (host_chars h).
Proof.
  destruct h as [host port]. intros [[Hne Hall] Hport]. simpl in *.
  unfold host_and_port_prefix, host_chars. simpl.
  apply Matches_Opt_some. rewrite app_assoc.
  constructor; [|by constructor].
  constructor.
  - apply Matches_Plus_Forall; [done|].
    by apply (Forall_accepts _ is_host_char); [apply accepts_host_char|].
  - destruct port as [port|]; [|apply Matches_Opt_nil].
    destruct Hport as [Hpne Hpall]. apply Matches_Opt_some.
    apply (MCat _ _ [":"%char] port); [by constructor|].
    apply Matches_Plus_Forall; [done|].
    by apply (Forall_accepts _ is_digit); [apply accepts_port_char|].
Qed.

Lemma tag_Matches t : tag_ok t → Matches tag_re (":"%char :: t).
Proof.
  intros [Hne Hall]. unfold tag_re. apply Matches_Opt_some.
  apply (MCat _ _ [":"%char] t); [by constructor|].
  apply Matches_Plus_Forall; [done|].
  by apply (Forall_accepts _ is_tag_char); [apply accepts_tag_char|].
Qed.

Lemma reference_Matches r :
  reference_ok r → Matches full_re (reference_chars r).
Proof.
  intros (Hh & Hp & Hps & Ht). unfold full_re, reference_chars.
  constructor.
  - destruct (ref_host r) as [h|]; [by apply host_Matches|apply Matches_Opt_nil].
  - constructor; [by apply path_Matches|].
    destruct (ref_tag r) as [t|]; [by apply tag_Matches|apply Matches_Opt_nil].
Qed.

(** Every image reference of the grammar (an optional host with optional
    port, path components made of lower-case alphanumeric runs joined by
    one dot, one or two underscores or dashes, an optional tag) is accepted
    by [is_valid_docker_img_name]. *)
Theorem grammar_references_are_valid (r : reference) :
  reference_ok r → is_valid_docker_img_name (reference_string r) = true.
Proof.
  intros Hr. apply is_valid_iff. left. unfold reference_string.
  rewrite list_ascii_of_string_of_list_ascii. by apply reference_Matches.
Qed.

Lemma grammar_references_are_valid_witness :
  is_valid_docker_img_name
    (reference_string
       (mkReference
          (Some (list_ascii_of_string "registry.example.com",
                 Some (list_ascii_of_string "5000")))
          (mkComponent (list_ascii_of_string "team") [])
          [mkComponent (list_ascii_of_string "ros2")
             [(SepDashes 1, list_ascii_of_string "humble");
              (SepUnderscores, list_ascii_of_string "x")]]
          (Some (list_ascii_of_string "1.0-RC")))) = true.
Proof.
  apply grammar_references_are_valid.
  unfold reference_ok, host_ok, component_ok, run_ok, tag_ok. cbn.
  apply (bool_decide_unpack _). vm_compute. exact I.
Defined.

(** ** What an accepted reference cannot contain *)

Lemma alphabet_full_re c : alphabet full_re c = is_name_char c.
Proof. destruct c as [[] [] [] [] [] [] [] []]; vm_compute; reflexivity. Qed.

Lemma space_is_no_name_char c : Str.is_space c = true → is_name_char c = false.
Proof. destruct c as [[] [] [] [] [] [] [] []]; vm_compute; congruence. Qed.

Lemma snoc_split {A : Type} (l q t : list A) (c x : A) :
  l ++ c :: q = t ++ [x] →
  (q = [] ∧ l = t ∧ c = x) ∨ (∃ q', q = q' ++ [x] ∧ t = l ++ c :: q').
Proof.
  intros E. destruct q as [|y q'] using rev_ind.
  - left. change (l ++ [c] = t ++ [x]) in E.
    apply app_inj_tail in E as [-> ->]. done.
  - right. clear IHq'. exists q'.
    rewrite app_comm_cons, app_assoc in E.
    apply app_inj_tail in E as [<- ->]. done.
Qed.

Lemma valid_chars (name : string) :
  is_valid_docker_img_name name = true →
  ∃ body, Matches full_re body
          ∧ (list_ascii_of_string name = body
             ∨ list_ascii_of_string name = body ++ [newline])
          ∧ Forall (λ c, is_name_char c = true) body.
Proof.
  intros [H|(t & E & H)]%is_valid_iff.
  - eexists. split; [exact H|]. split; [by left|].
    eapply Forall_impl; [by apply Matches_alphabet|].
    intros c Hc. rewrite <- alphabet_full_re. exact Hc.
  - exists t. split; [exact H|]. split; [by right|].
    eapply Forall_impl; [by apply Matches_alphabet|].
    intros c Hc. rewrite <- alphabet_full_re. exact Hc.
Qed.

(** A reference that contains a white-space character is rejected, unless
    that character is a single newline at the very end. *)
Theorem whitespace_is_rejected (pre post : string) (c : ascii) :
  Str.is_space c = true →
  post ≠ EmptyString ∨ c ≠ newline →
  is_valid_docker_img_name (pre +:+ String c post) = false.
Proof.
  intros Hsp Hpos. apply not_true_is_false. intros Hv.
  apply valid_chars in Hv as (body & _ & Hbody & Hall).
  rewrite chars_app in Hbody. simpl in Hbody.
  apply space_is_no_name_char in Hsp.
  assert (Hin : c ∈ body → False).
  { intros Hin. rewrite Forall_forall in Hall. apply Hall in Hin. congruence. }
  destruct Hbody as [<-|E].
  - apply Hin. apply elem_of_app. right. left.
  - apply snoc_split in E as [(Hq & _ & Hc)|(q' & _ & ->)].
    + destruct Hpos as [Hp|Hc']; [|done]. apply Hp. by destruct post.
    + apply Hin. apply elem_of_app. right. left.
Qed.

Lemma whitespace_is_rejected_witness :
  is_valid_docker_img_name ("my" +:+ String " " "repo") = false.
Proof.
  apply (whitespace_is_rejected "my" "repo" " "%char).
  - reflexivity.
  - left. discriminate.
Defined.

(** ** Path components are never empty *)

Lemma components_no_slash (b : bool) (x y : list ascii) :
  no_slash x → x ≠ [] →
  components_nonempty b (x ++ y) = components_nonempty false y.
Proof.
  intros Hx Hne. revert b. induction Hx as [|c x Hc Hx IH]; [done|].
  intros b. simpl. rewrite (proj2 (Ascii.eqb_neq c "/") Hc).
  destruct x as [|c' x']; [done|]. apply IH. done.
Qed.

Lemma components_no_slash_false (x : list ascii) :
  no_slash x → components_nonempty false x = true.
Proof.
  induction 1 as [|c x Hc Hx IH]; [done|].
  simpl. by rewrite (proj2 (Ascii.eqb_neq c "/") Hc).
Qed.

Lemma alphabet_no_slash r s :
  alphabet r "/" = false → Matches r s → no_slash s.
Proof.
  intros Ha H. eapply Forall_impl; [by apply Matches_alphabet|].
  simpl. intros c Hc ->. congruence.
Qed.

Lemma component_no_slash x :
  Matches path_component x → no_slash x ∧ x ≠ [].
Proof.
  intros H. split.
  - by apply (alphabet_no_slash path_component).
  - by apply (Matches_nonempty path_component).
Qed.

Lemma path_components_nonempty p y b :
  Matches path_re p →
  components_nonempty b (p ++ y) = components_nonempty false y.
Proof.
  unfold path_re. intros (x & q & -> & Hx & Hq)%Matches_Cat_inv.
  apply component_no_slash in Hx as [Hx Hne].
  rewrite <- app_assoc, (components_no_slash b x _ Hx Hne).
  revert q Hq. apply Matches_Star_ind'; [done|].
  intros s1 s2 (sl & x1 & -> & Hsl & Hx1)%Matches_Cat_inv _ IH.
  apply Matches_Sym_inv in Hsl as (c & -> & Hc). simpl in Hc.
  apply Ascii.eqb_eq in Hc as ->. simpl.
  apply component_no_slash in Hx1 as [Hx1 Hne1].
  rewrite <- app_assoc, (components_no_slash true x1 _ Hx1 Hne1). exact IH.
Qed.

Lemma host_components_nonempty h y :
  Matches host_and_port_prefix h →
  components_nonempty true (h ++ y) = components_nonempty true y.
Proof.
  unfold host_and_port_prefix. intros [->|H]%Matches_Opt_inv; [done|].
  apply Matches_Cat_inv in H as (x & sl & -> & Hx & Hsl).
  apply Matches_Sym_inv in Hsl as (c & -> & Hc). simpl in Hc.
  apply Ascii.eqb_eq in Hc as ->.
  assert (Hns : no_slash x) by (eapply alphabet_no_slash; [|exact Hx]; reflexivity).
  assert (Hne : x ≠ []) by (eapply Matches_nonempty; [|exact Hx]; reflexivity).
  rewrite <- app_assoc, (components_no_slash true x _ Hns Hne). reflexivity.
Qed.

Lemma full_re_components_nonempty s :
  Matches full_re s → components_nonempty true s = true.
Proof.
  unfold full_re.
  intros (h & pt & -> & Hh & (p & t & -> & Hp & Ht)%Matches_Cat_inv)%Matches_Cat_inv.
  rewrite (host_components_nonempty h _ Hh), (path_components_nonempty p t true Hp).
  apply components_no_slash_false.
  eapply alphabet_no_slash; [|exact Ht]. reflexivity.
Qed.

Lemma components_double_slash b pre post :
  components_nonempty b (pre ++ "/"%char :: "/"%char :: post) = false.
Proof.
  revert b. induction pre as [|c pre IH]; intros b; simpl.
  - apply andb_false_r.
  - destruct (Ascii.eqb c "/"); [|apply IH]. rewrite IH. apply andb_false_r.
Qed.

Lemma components_final_slash b s :
  components_nonempty b (s ++ ["/"%char]) = false.
Proof.
  revert b. induction s as [|c s IH]; intros b; simpl.
  - apply andb_false_r.
  - destruct (Ascii.eqb c "/"); [|apply IH]. rewrite IH. apply andb_false_r.
Qed.

(** A reference with an empty path component is rejected: one that starts
    with a slash, ends with a slash or contains two adjacent slashes; so is
    the empty reference. *)
Theorem empty_component_is_rejected :
  (∀ s : string, is_valid_docker_img_name ("/" +:+ s) = false)
  ∧ (∀ s : string, is_valid_docker_img_name (s +:+ "/") = false)
  ∧ (∀ pre post : string,
       is_valid_docker_img_name (pre +:+ "//" +:+ post) = false)
  ∧ is_valid_docker_img_name "" = false.
Proof.
  assert (Hgen : ∀ name body,
            Matches full_re body →
            list_ascii_of_string name = body
            ∨ list_ascii_of_string name = body ++ [newline] →
            components_nonempty true body = false → False).
  { intros name body Hm _ Hc. apply full_re_components_nonempty in Hm. congruence. }
  repeat split.
  - intros s. apply not_true_is_false. intros Hv.
    apply valid_chars in Hv as (body & Hm & Hbody & _).
    apply (Hgen _ _ Hm Hbody). simpl in Hbody.
    destruct Hbody as [<-|E]; [done|].
    destruct body as [|c body]; [by destruct s|].
    injection E as <- _. done.
  - intros s. apply not_true_is_false. intros Hv.
    apply valid_chars in Hv as (body & Hm & Hbody & _).
    apply (Hgen _ _ Hm Hbody). rewrite chars_app in Hbody. simpl in Hbody.
    destruct Hbody as [<-|E]; [apply components_final_slash|].
    apply app_inj_tail in E as [_ [=]].
  - intros pre post. apply not_true_is_false. intros Hv.
    apply valid_chars in Hv as (body & Hm & Hbody & _).
    apply (Hgen _ _ Hm Hbody). rewrite !chars_app in Hbody. simpl in Hbody.
    destruct Hbody as [<-|E]; [apply components_double_slash|].
    change (list_ascii_of_string pre ++ "/"%char :: ("/"%char :: list_ascii_of_string post)
            = body ++ [newline]) in E.
    apply snoc_split in E as [([=] & _)|(q' & E' & ->)].
    destruct (snoc_split [] (list_ascii_of_string post) q' "/"%char newline E')
      as [(_ & _ & [=])|(q'' & _ & ->)].
    simpl. apply components_double_slash.
Qed.

(** ** Upper-case letters belong to the tag *)

Lemma upper_not_before_tag c :
  is_upper c = true →
  alphabet host_and_port_prefix c = false ∧ alphabet path_re c = false
  ∧ c ≠ ":"%char ∧ c ≠ newline.
Proof. destruct c as [[] [] [] [] [] [] [] []]; vm_compute; intros; done. Qed.

Lemma tag_char_no_delimiter c :
  is_tag_char c = true → c ≠ "/"%char ∧ c ≠ ":"%char.
Proof. destruct c as [[] [] [] [] [] [] [] []]; vm_compute; intros; done. Qed.

Lemma tag_re_inv t :
  Matches tag_re t →
  t = [] ∨ ∃ t', t = ":"%char :: t' ∧ Forall (λ c, is_tag_char c = true) t'.
Proof.
  unfold tag_re. intros [->|H]%Matches_Opt_inv; [by left|]. right.
  apply Matches_Cat_inv in H as (x & t' & -> & Hx & Ht').
  apply Matches_Sym_inv in Hx as (c & -> & Hc). simpl in Hc.
  apply Ascii.eqb_eq in Hc as ->. exists t'. split; [done|].
  apply Matches_alphabet in Ht'.
  eapply Forall_impl; [exact Ht'|]. intros c Hc.
  rewrite <- accepts_tag_char. simpl in Hc. by rewrite orb_diag in Hc.
Qed.

Lemma middle_split {A : Type} (l q a b : list A) (c : A) :
  l ++ c :: q = a ++ b → c ∉ a → ∃ k, l = a ++ k ∧ b = k ++ c :: q.
Proof.
  revert l. induction a as [|x a IH]; intros l E Hc; simpl in *.
  - by exists l.
  - apply not_elem_of_cons in Hc as [Hne Hc]. destruct l as [|y l]; simpl in E.
    + injection E as -> _. done.
    + injection E as -> E. destruct (IH l E Hc) as (k & -> & ->). by exists k.
Qed.

Lemma contains_chars c s : Str.contains c s = true ↔ c ∈ list_ascii_of_string s.
Proof.
  induction s as [|d s IH]; simpl.
  - split; [done|]. by intros ?%elem_of_nil.
  - rewrite orb_true_iff, IH, elem_of_cons, Ascii.eqb_eq. done.
Qed.

(** An upper-case letter of an accepted reference lies in its tag: a colon
    comes before it and no slash comes after it. *)
Theorem uppercase_only_in_tag (pre post : string) (c : ascii) :
  is_upper c = true →
  is_valid_docker_img_name (pre +:+ String c post) = true →
  Str.contains ":" pre = true ∧ Str.contains "/" post = false.
Proof.
  intros Hup Hv.
  destruct (upper_not_before_tag c Hup) as (Hhost & Hpath & Hcolon & Hnl).
  apply valid_chars in Hv as (body & Hm & Hbody & _).
  rewrite chars_app in Hbody. simpl in Hbody.
  assert (∃ q, body = list_ascii_of_string pre ++ c :: q
               ∧ (("/"%char ∈ list_ascii_of_string post) → "/"%char ∈ q))
    as (q & -> & Hq).
  { destruct Hbody as [<-|E]; [by eexists|].
    apply snoc_split in E as [(_ & _ & ->)|(q' & E & ->)]; [done|].
    exists q'. split; [done|]. rewrite E.
    intros [?|Hin]%elem_of_app; [done|].
    apply elem_of_cons in Hin as [[=]|Hin]. by apply elem_of_nil in Hin. }
  unfold full_re in Hm.
  apply Matches_Cat_inv in Hm as (h & pt & E & Hh & Hpt).
  apply Matches_Cat_inv in Hpt as (p & t & -> & Hp & Ht).
  rewrite app_assoc in E.
  apply middle_split in E as (k & Epre & Et).
  2:{ intros [Hin|Hin]%elem_of_app.
      - apply Matches_alphabet in Hh. rewrite Forall_forall in Hh.
        apply Hh in Hin. congruence.
      - apply Matches_alphabet in Hp. rewrite Forall_forall in Hp.
        apply Hp in Hin. congruence. }
  apply tag_re_inv in Ht as [->|(t' & -> & Htag)]; [by destruct k|].
  destruct k as [|c0 k]; simpl in Et.
  { injection Et as Ec _. by subst c. }
  injection Et as <- ->.
  split.
  - apply contains_chars. rewrite Epre. apply elem_of_app. right. left.
  - apply not_true_is_false. intros Hin%contains_chars. apply Hq in Hin.
    rewrite Forall_forall in Htag.
    assert (Hsl : is_tag_char "/" = true).
    { apply Htag. apply elem_of_app. right. by right. }
    discriminate.
Qed.

Lemma uppercase_only_in_tag_witness :
  Str.contains ":" "ubuntu:22.04-" = true ∧ Str.contains "/" "C1" = false.
Proof.
  apply (uppercase_only_in_tag "ubuntu:22.04-" "C1" "R"%char).
  - reflexivity.
  - vm_compute. reflexivity.
Defined.

End ValidatorFacts.

(* ===================================================================== *)
(** * Further facts about the logs                                       *)
(* ===================================================================== *)

Module LogFacts.
Import Py Fs Eff World Stager Logs StagerFacts LogSample.
Local Open Scope eff_scope.

(** ** Strings *)

Lemma sapp_cons (c : ascii) (s t : string) : String c s +:+ t = String c (s +:+ t).
Proof. reflexivity. Qed.

Lemma sapp_nil_l (t : string) : "" +:+ t = t.
Proof. reflexivity. Qed.

Lemma sapp_nil_r (s : string) : s +:+ "" = s.
Proof. induction s as [|c s IH]; [done|]. by rewrite sapp_cons, IH. Qed.

Lemma sapp_assoc (s t u : string) : (s +:+ t) +:+ u = s +:+ (t +:+ u).
Proof. induction s as [|c s IH]; [done|]. by rewrite !sapp_cons, IH. Qed.

Lemma rev_app_sapp (s t : string) :
  String.rev_app s t = String.rev_app s "" +:+ t.
Proof.
  revert t. induction s as [|c s IH]; intros t; simpl; [done|].
  rewrite (IH (String c t)), (IH (String c "")), sapp_assoc. done.
Qed.

Lemma rev_cons (c : ascii) (s : string) :
  String.rev (String c s) = String.rev s +:+ String c "".
Proof. unfold String.rev. simpl. apply rev_app_sapp. Qed.

Lemma concat_cons (x : string) (xs : list string) :
  String.concat "" (x :: xs) = x +:+ String.concat "" xs.
Proof.
  destruct xs as [|y ys]; simpl.
  - by rewrite sapp_nil_r.
  - reflexivity.
Qed.

Lemma concat_app (xs ys : list string) :
  String.concat "" (xs ++ ys) = String.concat "" xs +:+ String.concat "" ys.
Proof.
  induction xs as [|x xs IH]; [done|].
  rewrite <- app_comm_cons, !concat_cons, IH, sapp_assoc. done.
Qed.

(** Cutting a text into lines loses nothing. *)
Lemma lines_from_concat (cur s : string) :
  String.concat "" (Str.lines_from cur s) = String.rev cur +:+ s.
Proof.
  revert cur. induction s as [|c s IH]; intros cur; simpl.
  - destruct cur; simpl; [done|]. by rewrite sapp_nil_r.
  - destruct (Ascii.eqb c Regex.newline).
    + rewrite concat_cons, IH, rev_cons, sapp_assoc. done.
    + rewrite IH, rev_cons, sapp_assoc. done.
Qed.

Lemma lines_concat (s : string) : String.concat "" (Str.lines s) = s.
Proof. unfold Str.lines. by rewrite lines_from_concat. Qed.

(** ** The multiplexer *)

Lemma append_text_spec (p : path) (line c : string) (m : Z) (st : state) :
  lookup (fs st) p = Some (File c m) →
  append_text p line st
  = (Ret tt, set_fs (<[p := File (c +:+ line) m]> (fs st)) st).
Proof. intros H. unfold append_text. by rewrite H. Qed.

Lemma lookup_insert_same (t : tree) (p : path) (n : node) :
  p ≠ [] → lookup (<[p := n]> t) p = Some n.
Proof.
  intros Hne. unfold lookup. destruct (decide (p = [])); [done|].
  by rewrite lookup_insert_eq.
Qed.

Lemma lookup_File_nonroot (t : tree) (p : path) (c : string) (m : Z) :
  lookup t p = Some (File c m) → p ≠ [].
Proof. intros H ->. unfold lookup in H. simpl in H. congruence. Qed.

Lemma lookup_None_nonroot (t : tree) (p : path) :
  lookup t p = None → p ≠ [].
Proof. intros H ->. unfold lookup in H. simpl in H. congruence. Qed.

Lemma tee_lines (ls : list string) (log : path) (c : string) (m : Z) (st : state) :
  lookup (fs st) log = Some (File c m) →
  ∃ st',
    for_each ls (λ line, bind (print line) (λ _, append_text log line)) st
    = (Ret tt, st')
    ∧ lookup (fs st') log = Some (File (c +:+ String.concat "" ls) m)
    ∧ console st' = console st ++ ((λ l, (Stdout, l)) <$> ls)
    ∧ exit_code st' = exit_code st
    ∧ umask st' = umask st
    ∧ ∀ q, q ≠ log → lookup (fs st') q = lookup (fs st) q.
Proof.
  revert c st. induction ls as [|l ls IH]; intros c st Hlog.
  - exists st. simpl. rewrite sapp_nil_r, app_nil_r. done.
  - pose proof (lookup_File_nonroot _ _ _ _ Hlog) as Hne.
    cbn [for_each]. erewrite bind_Ret.
    2:{ erewrite bind_Ret by reflexivity. apply append_text_spec. exact Hlog. }
    destruct (IH (c +:+ l)
                (set_fs (<[log := File (c +:+ l) m]> (fs (add_console (Stdout, l) st)))
                        (add_console (Stdout, l) st)))
      as (st' & Hrun & Hl & Hc & He & Hu & Ho).
    { simpl. by apply lookup_insert_same. }
    exists st'. split; [exact Hrun|].
    rewrite Hl, Hc, He, Hu, concat_cons, sapp_assoc.
    cbn [console add_console set_fs fs exit_code umask fmap list_fmap].
    rewrite <- app_assoc.
    repeat split; try done.
    intros q Hq. rewrite (Ho q Hq). cbn [fs set_fs add_console].
    by apply lookup_insert_other.
Qed.



Example tee_abc :
  fs (snd (tee abc_output sample_log log_state)) !! sample_log
  = Some (File abc_output (octal [6; 4; 4]%Z)).
Proof. vm_compute. reflexivity. Qed.

(** ** The filter *)

Lemma copy_matching_spec (ls : list string) (fout : path) (n : nat)
    (c : string) (m : Z) (st : state) :
  lookup (fs st) fout = Some (File c m) →
  ∃ st',
    copy_matching ls fout n st
    = (Ret (n + List.length (filter (λ l, LogPattern.selected l = true) ls))%nat, st')
    ∧ lookup (fs st') fout
      = Some (File (c +:+ String.concat ""
                            (filter (λ l, LogPattern.selected l = true) ls)) m)
    ∧ console st' = console st
    ∧ exit_code st' = exit_code st
    ∧ ∀ q, q ≠ fout → lookup (fs st') q = lookup (fs st) q.
Proof.
  revert n c st. induction ls as [|l ls IH]; intros n c st Hf.
  - exists st. simpl. rewrite sapp_nil_r, Nat.add_0_r. done.
  - pose proof (lookup_File_nonroot _ _ _ _ Hf) as Hne.
    cbn [copy_matching]. rewrite filter_cons.
    destruct (LogPattern.selected l) eqn:Hsel.
    + rewrite decide_True by done.
      erewrite bind_Ret by (apply append_text_spec; exact Hf).
      destruct (IH (S n) (c +:+ l)
                  (set_fs (<[fout := File (c +:+ l) m]> (fs st)) st))
        as (st' & Hrun & Hl & Hc & He & Ho).
      { by apply lookup_insert_same. }
      exists st'. rewrite Hrun, Hl, Hc, He, concat_cons, sapp_assoc.
      cbn [List.length]. rewrite Nat.add_succ_r.
      repeat split; try done.
      intros q Hq. rewrite (Ho q Hq). by apply lookup_insert_other.
    + rewrite decide_False by done. by apply IH.
Qed.

Lemma unlink_file (w : world) (missing_ok : bool) (p : path) (c : string)
    (m : Z) (st : state) :
  unlink_fails w p = false →
  lookup (fs st) p = Some (File c m) →
  unlink w missing_ok p st = (Ret tt, set_fs (delete p (fs st)) st).
Proof. intros Hu Hp. unfold unlink. by rewrite Hu, Hp. Qed.

Lemma lookup_delete_same (t : tree) (p : path) :
  p ≠ [] → lookup (delete p t) p = None.
Proof.
  intros Hne. unfold lookup. destruct (decide (p = [])); [done|].
  by rewrite lookup_delete_eq.
Qed.

Lemma lookup_delete_other (t : tree) (p q : path) :
  p ≠ q → lookup (delete p t) q = lookup t q.
Proof.
  intros Hne. unfold lookup. destruct (decide (q = [])); [done|].
  by rewrite lookup_delete_ne.
Qed.

(** What the filter does to a complete log that is not empty, with all it
    leaves alone. *)
Lemma filter_logs_marked (w : world) (complete specific : path)
    (content : string) (m dm : Z) (st : state) :
  lookup (fs st) complete = Some (File content m) →
  content ≠ EmptyString →
  lookup (fs st) (parent specific) = Some (Dir dm) →
  lookup (fs st) specific = None →
  unlink_fails w specific = false →
  ∃ st',
    filter_logs w complete specific st = (Ret tt, st')
    ∧ lookup (fs st') specific
      = match marked_lines content with
        | [] => None
        | ls => Some (File (String.concat "" ls) (default_file_mode (umask st)))
        end
    ∧ exit_code st' = exit_code st
    ∧ ∀ q, q ≠ specific → lookup (fs st') q = lookup (fs st) q.
Proof.
  intros Hc Hne Hp Hs Hu. unfold filter_logs.
  pose proof (lookup_None_nonroot _ _ Hs) as Hsr.
  erewrite bind_Ret by reflexivity. cbn beta.
  replace (exists_ (fs st) complete) with true
    by (unfold exists_; by rewrite Hc).
  erewrite bind_Ret by (unfold stat_size; rewrite Hc; reflexivity).
  replace (0 <? String.length content)%nat with true
    by (symmetry; apply Nat.ltb_lt; destruct content; [done|simpl; lia]).
  erewrite bind_Ret by reflexivity.
  set (st1 := add_console _ st).
  erewrite bind_Ret by (unfold read_text; cbn [fs st1 add_console]; rewrite Hc; reflexivity).
  erewrite bind_Ret.
  2:{ unfold write_text. cbn [fs st1 add_console]. rewrite Hp, Hs. reflexivity. }
  set (st2 := set_fs _ st1).
  destruct (copy_matching_spec (Str.read_lines content) specific 0 ""
              (default_file_mode (umask st)) st2)
    as (st3 & Hrun & Hl & Hcon & He & Ho).
  { unfold st2. cbn [fs set_fs]. by apply lookup_insert_same. }
  erewrite bind_Ret by exact Hrun.
  fold (marked_lines content) in Hl |- *. rewrite sapp_nil_l in Hl.
  assert (Ho3 : ∀ q, q ≠ specific → lookup (fs st3) q = lookup (fs st) q).
  { intros q Hq. rewrite (Ho q) by done. unfold st2. cbn [fs set_fs].
    by rewrite lookup_insert_other. }
  destruct (marked_lines content) as [|l ls] eqn:Hm.
  - cbn [List.length Nat.add Nat.eqb].
    erewrite bind_Ret by reflexivity.
    unfold try_except_OSError.
    erewrite unlink_file; [|exact Hu|cbn [fs add_console]; exact Hl].
    eexists. split; [reflexivity|]. cbn [fs set_fs add_console exit_code].
    split; [|split].
    + by apply lookup_delete_same.
    + exact He.
    + intros q Hq. rewrite lookup_delete_other by done. by apply Ho3.
  - cbn [List.length Nat.add Nat.eqb].
    eexists. split; [reflexivity|]. cbn [fs add_console exit_code].
    split; [|split; [exact He|exact Ho3]].
    rewrite Hl. reflexivity.
Qed.

(** On a complete log that is not empty the filter writes the specific log
    anew: it holds exactly the marked lines of the complete log, in their
    order; when no line is marked the specific log is deleted again. The
    complete log and the exit code stay as they are. *)
Theorem filter_logs_copies_marked_lines (w : world) (complete specific : path)
    (content : string) (m dm : Z) (st : state) :
  lookup (fs st) complete = Some (File content m) →
  content ≠ EmptyString →
  lookup (fs st) (parent specific) = Some (Dir dm) →
  lookup (fs st) specific = None →
  unlink_fails w specific = false →
  ∃ st',
    filter_logs w complete specific st = (Ret tt, st')
    ∧ lookup (fs st') complete = Some (File content m)
    ∧ lookup (fs st') specific
      = match marked_lines content with
        | [] => None
        | ls => Some (File (String.concat "" ls) (default_file_mode (umask st)))
        end
    ∧ exit_code st' = exit_code st.
Proof.
  intros Hc Hne Hp Hs Hu.
  destruct (filter_logs_marked w complete specific content m dm st
              Hc Hne Hp Hs Hu) as (st' & Hrun & Hspecific & He & Hothers).
  exists st'. split; [exact Hrun|]. split; [|by split].
  rewrite Hothers; [exact Hc|]. intros ->. congruence.
Qed.

Lemma filter_logs_copies_marked_lines_witness :
  ∃ st',
    filter_logs Sample.world_success sample_log sample_specific marked_state
    = (Ret tt, st')
    ∧ lookup (fs st') sample_log = Some (File marked_output (octal [6; 4; 4]%Z))
    ∧ lookup (fs st') sample_specific
      = match marked_lines marked_output with
        | [] => None
        | ls => Some (File (String.concat "" ls)
                           (default_file_mode (umask marked_state)))
        end
    ∧ exit_code st' = exit_code marked_state.
Proof.
  apply (filter_logs_copies_marked_lines Sample.world_success sample_log
           sample_specific marked_output (octal [6; 4; 4]%Z) (octal [7; 7; 7]%Z)
           marked_state).
  - vm_compute. reflexivity.
  - discriminate.
  - vm_compute. reflexivity.
  - vm_compute. reflexivity.
  - reflexivity.
Defined.

Example marked_lines_sample :
  marked_lines marked_output
  = ["[2024-01-01_00-00-00] start" +:+ Sample.nl;
     "[2024-01-01_00-00-05] done" +:+ Sample.nl].
Proof. vm_compute. reflexivity. Qed.

(** A complete log of zero bytes is deleted, and no specific log is made.
    When the deletion fails the file stays and the exit code is forced to a
    non-zero value: a zero becomes 1, any other value is kept. *)
Theorem filter_logs_deletes_empty_log (w : world) (complete specific : path)
    (m : Z) (st : state) :
  lookup (fs st) complete = Some (File EmptyString m) →
  specific ≠ complete →
  ∃ st',
    filter_logs w complete specific st = (Ret tt, st')
    ∧ lookup (fs st') specific = lookup (fs st) specific
    ∧ if unlink_fails w complete
      then lookup (fs st') complete = Some (File EmptyString m)
           ∧ exit_code st' = (if (exit_code st =? 0)%Z then 1 else exit_code st)%Z
      else lookup (fs st') complete = None ∧ exit_code st' = exit_code st.
Proof.
  intros Hc Hneq. unfold filter_logs.
  pose proof (lookup_File_nonroot _ _ _ _ Hc) as Hcr.
  erewrite bind_Ret by reflexivity. cbn beta.
  replace (exists_ (fs st) complete) with true
    by (unfold exists_; by rewrite Hc).
  erewrite bind_Ret by (unfold stat_size; rewrite Hc; reflexivity).
  cbn [String.length Nat.ltb Nat.leb].
  unfold try_except_OSError, unlink.
  destruct (unlink_fails w complete) eqn:Hu.
  - cbn [is_OSError]. rewrite bool_decide_eq_true_2 by (left).
    eexists. split; [reflexivity|]. cbn.
    repeat split; done.
  - rewrite Hc. eexists. split; [reflexivity|]. cbn [fs set_fs exit_code].
    split; [by apply lookup_delete_other|].
    split; [by apply lookup_delete_same|done].
Qed.

Lemma filter_logs_deletes_empty_log_witness :
  ∃ st',
    filter_logs Sample.world_success sample_log sample_specific log_state
    = (Ret tt, st')
    ∧ lookup (fs st') sample_specific = lookup (fs log_state) sample_specific
    ∧ if unlink_fails Sample.world_success sample_log
      then lookup (fs st') sample_log = Some (File EmptyString (octal [6; 4; 4]%Z))
           ∧ exit_code st'
             = (if (exit_code log_state =? 0)%Z then 1 else exit_code log_state)%Z
      else lookup (fs st') sample_log = None ∧ exit_code st' = exit_code log_state.
Proof.
  apply (filter_logs_deletes_empty_log Sample.world_success sample_log
           sample_specific (octal [6; 4; 4]%Z) log_state).
  - vm_compute. reflexivity.
  - discriminate.
Defined.

End LogFacts.

(* ===================================================================== *)
(** * Further facts about the stagers                                    *)
(* ===================================================================== *)

Module StagingFacts.
Import Py Fs Eff World Stager StagerFacts LogFacts StageSpec.
Local Open Scope eff_scope.

Lemma build_source_path (root_path : path) (s : string) :
  (if is_absolute s then Path s else joinpath root_path s) = joinpath root_path s.
Proof. unfold joinpath. by destruct (is_absolute s). Qed.

Lemma mkdir_if_missing_present (p : path) (st : state) :
  exists_ (fs st) p = true → mkdir_if_missing p st = (Ret tt, st).
Proof.
  intros H. unfold mkdir_if_missing. erewrite bind_Ret by reflexivity.
  cbn beta. by rewrite H.
Qed.

Lemma chmod_by_flag_file (p : path) (flag : pyval) (c : string) (m : Z)
    (st : state) :
  lookup (fs st) p = Some (File c m) →
  chmod_by_flag p flag st
  = (Ret tt, set_fs (<[p := File c (mode_of_flag flag)]> (fs st)) st).
Proof.
  intros H. unfold chmod_by_flag, mode_of_flag, chmod.
  destruct (truthy flag); by rewrite H.
Qed.

Lemma write_text_new (p : path) (text : string) (dm : Z) (st : state) :
  lookup (fs st) (parent p) = Some (Dir dm) →
  lookup (fs st) p = None →
  write_text p text st
  = (Ret tt, set_fs (<[p := File text (default_file_mode (umask st))]> (fs st)) st).
Proof. intros Hp Hn. unfold write_text. by rewrite Hp, Hn. Qed.

Lemma copy2_new (src dst : path) (c : string) (m dm : Z) (st : state) :
  lookup (fs st) src = Some (File c m) →
  lookup (fs st) (parent dst) = Some (Dir dm) →
  lookup (fs st) dst = None →
  copy2 src dst st = (Ret tt, set_fs (<[dst := File c m]> (fs st)) st).
Proof.
  intros Hs Hp Hn. unfold copy2. rewrite Hs.
  replace (is_dir (fs st) dst) with false by (unfold is_dir; by rewrite Hn).
  rewrite decide_False by (intros ->; congruence).
  rewrite (write_text_new dst c dm st Hp Hn).
  pose proof (lookup_None_nonroot _ _ Hn) as Hne.
  unfold chmod. cbn [fs set_fs]. rewrite lookup_insert_same by done.
  cbn [fs set_fs]. by rewrite insert_insert_eq.
Qed.

(** A copy entry whose source is a regular file, staged to a destination
    that does not exist yet inside an existing directory, ends normally:
    the destination holds the bytes of the source, with mode [0o775] when
    the flag of the entry is true and [0o664] otherwise, whatever the mode
    of the source; nothing else changes. Both stagers behave so. *)
Theorem copy_entry_is_staged
    (engine : string → dict → string + exn) (root_path context_dir : path)
    (items : manifest) (key k s : string) (flag : pyval) (c : string)
    (m dm : Z) (st : state) :
  List.find (λ kv, String.eqb (fst kv) key) items = Some (k, [PStr s; flag]) →
  lookup (fs st) (joinpath root_path s) = Some (File c m) →
  lookup (fs st) (parent (joinpath context_dir key)) = Some (Dir dm) →
  lookup (fs st) (joinpath context_dir key) = None →
  (∃ st',
     build_stage_entry engine root_path context_dir items key st = (Ret tt, st')
     ∧ lookup (fs st') (joinpath context_dir key)
       = Some (File c (mode_of_flag flag))
     ∧ ∀ q, q ≠ joinpath context_dir key → lookup (fs st') q = lookup (fs st) q)
  ∧ (∃ st',
       install_entry engine root_path context_dir items key st = (Ret tt, st')
       ∧ lookup (fs st') (joinpath context_dir key)
         = Some (File c (mode_of_flag flag))
       ∧ ∀ q, q ≠ joinpath context_dir key → lookup (fs st') q = lookup (fs st) q).
Proof.
  intros Hfind Hsrc Hpar Hdst.
  destruct (lookup_File_exists _ _ _ _ Hsrc) as [Hex Hfile].
  pose proof (lookup_None_nonroot _ _ Hdst) as Hne.
  assert (Hpex : exists_ (fs st) (parent (joinpath context_dir key)) = true)
    by (unfold exists_; by rewrite Hpar).
  split.
  - unfold build_stage_entry, getitem. rewrite Hfind. cbn [snd].
    do 3 step. rewrite build_source_path.
    step. rewrite Hex. step. step. rewrite Hfile. step.
    erewrite bind_Ret by (by apply mkdir_if_missing_present).
    step. simpl (Nat.eqb _ _). cbv iota.
    erewrite bind_Ret by (eapply copy2_new; cbn [fs add_console]; eauto).
    step.
    erewrite chmod_by_flag_file
      by (cbn [fs set_fs add_console]; by apply lookup_insert_same).
    eexists. split; [reflexivity|]. cbn [fs set_fs add_console].
    rewrite insert_insert_eq. split; [by apply lookup_insert_same|].
    intros q Hq. by apply lookup_insert_other.
  - unfold install_entry, getitem. rewrite Hfind. cbn [snd].
    do 2 step. cbn [is_None].
    erewrite bind_Ret.
    2:{ step. rewrite Hex. step. reflexivity. }
    simpl (Nat.eqb _ _). cbv iota. step.
    erewrite bind_Ret.
    2:{ step. cbn [fs add_console]. rewrite Hfile. step.
        erewrite bind_Ret by (apply mkdir_if_missing_present; exact Hpex).
        eapply copy2_new; cbn [fs add_console]; eauto. }
    step.
    erewrite chmod_by_flag_file
      by (cbn [fs set_fs add_console]; by apply lookup_insert_same).
    eexists. split; [reflexivity|]. cbn [fs set_fs add_console].
    rewrite insert_insert_eq. split; [by apply lookup_insert_same|].
    intros q Hq. by apply lookup_insert_other.
Qed.

Lemma copy_entry_is_staged_witness :
  (∃ st',
     build_stage_entry Script.engine Sample.root_path Sample.context_dir
       Sample.manifest_za "z.sh" Sample.state0 = (Ret tt, st')
     ∧ lookup (fs st') (joinpath Sample.context_dir "z.sh")
       = Some (File "#!/bin/sh" (mode_of_flag (PBool true)))
     ∧ ∀ q, q ≠ joinpath Sample.context_dir "z.sh"
            → lookup (fs st') q = lookup (fs Sample.state0) q)
  ∧ (∃ st',
       install_entry Script.engine Sample.root_path Sample.context_dir
         Sample.manifest_za "z.sh" Sample.state0 = (Ret tt, st')
       ∧ lookup (fs st') (joinpath Sample.context_dir "z.sh")
         = Some (File "#!/bin/sh" (mode_of_flag (PBool true)))
       ∧ ∀ q, q ≠ joinpath Sample.context_dir "z.sh"
              → lookup (fs st') q = lookup (fs Sample.state0) q).
Proof.
  apply (copy_entry_is_staged Script.engine Sample.root_path Sample.context_dir
           Sample.manifest_za "z.sh" "z.sh" "run.sh" (PBool true) "#!/bin/sh"
           (octal [6; 4; 4]%Z) (octal [7; 0; 0]%Z) Sample.state0).
  - reflexivity.
  - vm_compute. reflexivity.
  - vm_compute. reflexivity.
  - vm_compute. reflexivity.
Defined.

Lemma render_template_ok (engine : string → dict → string + exn) (src : path)
    (d : dict) (source text : string) (mode : Z) (st : state) :
  lookup (fs st) src = Some (File source mode) →
  engine source d = inl text →
  render_template engine src (PDict d) st = (Ret text, st).
Proof.
  intros Hsrc He. unfold render_template.
  erewrite bind_Ret; [|unfold read_text; by rewrite Hsrc].
  cbn [py_dict]. by rewrite He.
Qed.

(** A template entry with a dictionary as context, whose source is a
    regular file that the engine renders, staged to a destination that does
    not exist yet inside an existing directory, ends normally: the
    destination holds the rendered text, with mode [0o775] when the flag of
    the entry is true and [0o664] otherwise; nothing else changes. Both
    stagers behave so. *)
Theorem render_entry_is_staged
    (engine : string → dict → string + exn) (root_path context_dir : path)
    (items : manifest) (key k s : string) (d : dict) (flag : pyval)
    (source text : string) (m dm : Z) (st : state) :
  List.find (λ kv, String.eqb (fst kv) key) items
    = Some (k, [PStr s; PDict d; flag]) →
  lookup (fs st) (joinpath root_path s) = Some (File source m) →
  engine source d = inl text →
  lookup (fs st) (parent (joinpath context_dir key)) = Some (Dir dm) →
  lookup (fs st) (joinpath context_dir key) = None →
  (∃ st',
     build_stage_entry engine root_path context_dir items key st = (Ret tt, st')
     ∧ lookup (fs st') (joinpath context_dir key)
       = Some (File text (mode_of_flag flag))
     ∧ ∀ q, q ≠ joinpath context_dir key → lookup (fs st') q = lookup (fs st) q)
  ∧ (∃ st',
       install_entry engine root_path context_dir items key st = (Ret tt, st')
       ∧ lookup (fs st') (joinpath context_dir key)
         = Some (File text (mode_of_flag flag))
       ∧ ∀ q, q ≠ joinpath context_dir key → lookup (fs st') q = lookup (fs st) q).
Proof.
  intros Hfind Hsrc He Hpar Hdst.
  destruct (lookup_File_exists _ _ _ _ Hsrc) as [Hex Hfile].
  pose proof (lookup_None_nonroot _ _ Hdst) as Hne.
  assert (Hpex : exists_ (fs st) (parent (joinpath context_dir key)) = true)
    by (unfold exists_; by rewrite Hpar).
  split.
  - unfold build_stage_entry, getitem. rewrite Hfind. cbn [snd].
    do 3 step. rewrite build_source_path.
    step. rewrite Hex. step. step. rewrite Hfile. step.
    erewrite bind_Ret by (by apply mkdir_if_missing_present).
    step. simpl (Nat.eqb _ _). cbv iota. do 3 step.
    erewrite bind_Ret by (by apply mkdir_if_missing_present).
    erewrite bind_Ret
      by (eapply render_template_ok; cbn [fs add_console]; eauto).
    erewrite bind_Ret by (eapply write_text_new; cbn [fs add_console]; eauto).
    step.
    erewrite chmod_by_flag_file
      by (cbn [fs set_fs add_console]; by apply lookup_insert_same).
    eexists. split; [reflexivity|]. cbn [fs set_fs add_console].
    rewrite insert_insert_eq. split; [by apply lookup_insert_same|].
    intros q Hq. by apply lookup_insert_other.
  - unfold install_entry, getitem. rewrite Hfind. cbn [snd].
    do 2 step. cbn [is_None].
    erewrite bind_Ret.
    2:{ step. rewrite Hex. step. reflexivity. }
    simpl (Nat.eqb _ _). cbv iota. step. step.
    cbn [fs add_console]. rewrite Hfile. do 4 step.
    erewrite bind_Ret by (by apply mkdir_if_missing_present).
    erewrite bind_Ret
      by (eapply render_template_ok; cbn [fs add_console]; eauto).
    erewrite bind_Ret by (eapply write_text_new; cbn [fs add_console]; eauto).
    step.
    erewrite chmod_by_flag_file
      by (cbn [fs set_fs add_console]; by apply lookup_insert_same).
    eexists. split; [reflexivity|]. cbn [fs set_fs add_console].
    rewrite insert_insert_eq. split; [by apply lookup_insert_same|].
    intros q Hq. by apply lookup_insert_other.
Qed.

Lemma render_entry_is_staged_witness :
  (∃ st',
     build_stage_entry Script.engine Sample.root_path Sample.context_dir
       Sample.manifest_za "a.txt" Sample.state0 = (Ret tt, st')
     ∧ lookup (fs st') (joinpath Sample.context_dir "a.txt")
       = Some (File "Hello world!" (mode_of_flag (PBool false)))
     ∧ ∀ q, q ≠ joinpath Sample.context_dir "a.txt"
            → lookup (fs st') q = lookup (fs Sample.state0) q)
  ∧ (∃ st',
       install_entry Script.engine Sample.root_path Sample.context_dir
         Sample.manifest_za "a.txt" Sample.state0 = (Ret tt, st')
       ∧ lookup (fs st') (joinpath Sample.context_dir "a.txt")
         = Some (File "Hello world!" (mode_of_flag (PBool false)))
       ∧ ∀ q, q ≠ joinpath Sample.context_dir "a.txt"
              → lookup (fs st') q = lookup (fs Sample.state0) q).
Proof.
  apply (render_entry_is_staged Script.engine Sample.root_path
           Sample.context_dir Sample.manifest_za "a.txt" "a.txt" "greeting.j2"
           [("name", VStr "world")] (PBool false) "Hello {{ name }}!"
           "Hello world!" (octal [6; 4; 4]%Z) (octal [7; 0; 0]%Z) Sample.state0).
  - reflexivity.
  - vm_compute. reflexivity.
  - vm_compute. reflexivity.
  - vm_compute. reflexivity.
  - vm_compute. reflexivity.
Defined.

(** ** A missing source stops the staging *)

Lemma build_entry_missing_source engine root_path context_dir (items : manifest)
    (key k s : string) (rest : list pyval) (st : state) :
  List.find (λ kv, String.eqb (fst kv) key) items = Some (k, PStr s :: rest) →
  lookup (fs st) (joinpath root_path s) = None →
  build_stage_entry engine root_path context_dir items key st
  = (Exit 1, add_console (Stdout, missing_message (joinpath root_path s)) st).
Proof.
  intros Hfind Hsrc. unfold build_stage_entry, getitem. rewrite Hfind. cbn [snd].
  do 3 step. rewrite build_source_path. step.
  replace (exists_ (fs st) (joinpath root_path s)) with false
    by (unfold exists_; by rewrite Hsrc).
  reflexivity.
Qed.

Lemma install_entry_missing_source engine root_path context_dir (items : manifest)
    (key k s : string) (rest : list pyval) (st : state) :
  List.find (λ kv, String.eqb (fst kv) key) items = Some (k, PStr s :: rest) →
  lookup (fs st) (joinpath root_path s) = None →
  install_entry engine root_path context_dir items key st
  = (Exit 1, add_console (Stdout, missing_message (joinpath root_path s)) st).
Proof.
  intros Hfind Hsrc. unfold install_entry, getitem. rewrite Hfind. cbn [snd].
  do 2 step. cbn [is_None].
  erewrite bind_Exit; [reflexivity|].
  step.
  replace (exists_ (fs st) (joinpath root_path s)) with false
    by (unfold exists_; by rewrite Hsrc).
  reflexivity.
Qed.

Lemma for_each_stops {A : Type} (pre post : list A) (x : A) (f : A → M unit)
    (st st1 st2 : state) (c : Z) :
  for_each pre f st = (Ret tt, st1) →
  f x st1 = (Exit c, st2) →
  for_each (pre ++ x :: post) f st = (Exit c, st2).
Proof.
  intros Hpre Hx. rewrite for_each_app.
  erewrite bind_Ret by exact Hpre. cbn [for_each].
  by erewrite bind_Exit by exact Hx.
Qed.

(** When the entries before [key], in sorted order, are staged normally
    and the source of [key] does not exist, staging ends with exit code 1
    right there: the file system is as the earlier entries left it, so that
    nothing is written for [key] or for any later entry, and the message
    names the missing source. Both stagers behave so. *)
Theorem missing_source_stops_staging
    (engine : string → dict → string + exn) (root_path context_dir : path)
    (items : manifest) (pre post : list string) (key k s : string)
    (rest : list pyval) (st st1 st1' : state) :
  sorted_keys items = pre ++ key :: post →
  List.find (λ kv, String.eqb (fst kv) key) items = Some (k, PStr s :: rest) →
  for_each pre (build_stage_entry engine root_path context_dir items) st
    = (Ret tt, st1) →
  lookup (fs st1) (joinpath root_path s) = None →
  for_each pre (install_entry engine root_path context_dir items) st
    = (Ret tt, st1') →
  lookup (fs st1') (joinpath root_path s) = None →
  build_stage engine root_path context_dir items st
  = (Exit 1, add_console (Stdout, missing_message (joinpath root_path s)) st1)
  ∧ install_items engine root_path items context_dir st
    = (Exit 1, add_console (Stdout, missing_message (joinpath root_path s)) st1').
Proof.
  intros Hkeys Hfind Hpre Hsrc Hpre' Hsrc'. split.
  - unfold build_stage. rewrite Hkeys.
    eapply for_each_stops; [exact Hpre|].
    by eapply build_entry_missing_source.
  - unfold install_items. rewrite Hkeys.
    eapply for_each_stops; [exact Hpre'|].
    by eapply install_entry_missing_source.
Qed.

Lemma missing_source_stops_staging_witness :
  build_stage Script.engine Sample.root_path Sample.context_dir
    manifest_missing_source Sample.state0
  = (Exit 1,
     add_console (Stdout, missing_message (joinpath Sample.root_path "absent.sh"))
       (snd (build_stage_entry Script.engine Sample.root_path Sample.context_dir
               manifest_missing_source "a.txt" Sample.state0)))
  ∧ install_items Script.engine Sample.root_path manifest_missing_source
      Sample.context_dir Sample.state0
    = (Exit 1,
       add_console (Stdout, missing_message (joinpath Sample.root_path "absent.sh"))
         (snd (install_entry Script.engine Sample.root_path Sample.context_dir
                 manifest_missing_source "a.txt" Sample.state0))).
Proof.
  apply (missing_source_stops_staging Script.engine Sample.root_path
           Sample.context_dir manifest_missing_source ["a.txt"] ["z.sh"]
           "m.sh" "m.sh" "absent.sh" [PBool true] Sample.state0).
  - vm_compute. reflexivity.
  - reflexivity.
  - vm_compute. reflexivity.
  - vm_compute. reflexivity.
  - vm_compute. reflexivity.
  - vm_compute. reflexivity.
Defined.

Example missing_source_leaves_later_entries :
  fs (snd (build_stage Script.engine Sample.root_path Sample.context_dir
             manifest_missing_source Sample.state0))
    !! (Sample.context_dir ++ ["z.sh"]) = None
  ∧ fs (snd (build_stage Script.engine Sample.root_path Sample.context_dir
               manifest_missing_source Sample.state0))
      !! (Sample.context_dir ++ ["m.sh"]) = None
  ∧ fs (snd (build_stage Script.engine Sample.root_path Sample.context_dir
               manifest_missing_source Sample.state0))
      !! (Sample.context_dir ++ ["a.txt"])
    = Some (File "Hello world!" (octal [6; 6; 4]%Z)).
Proof. repeat split; vm_compute; reflexivity. Qed.

(** ** Staging never removes anything *)

Lemma stays_build_stage_entry (d : path) (engine : string → dict → string + exn)
    (root_path context_dir : path) (items : manifest) (key : string) :
  preserves (stays d) (build_stage_entry engine root_path context_dir items key).
Proof.
  unfold build_stage_entry. cbv zeta.
  repeat match goal with
  | |- preserves _ (bind _ _) => apply LifetimeFacts.preserves_bind; [|intros ?]
  | |- preserves _ (when _ _) => apply LifetimeFacts.preserves_when
  | |- preserves _ (match ?x with _ => _ end) => destruct x
  | |- preserves _ _ =>
      first [ apply LifetimeFacts.reads_only_preserves;
              first [ apply LifetimeFacts.reads_only_ret
                    | apply LifetimeFacts.reads_only_sys_exit
                    | apply LifetimeFacts.reads_only_raise
                    | apply LifetimeFacts.reads_only_print
                    | apply LifetimeFacts.reads_only_path_exists
                    | apply LifetimeFacts.reads_only_path_is_file
                    | apply LifetimeFacts.reads_only_getitem
                    | apply LifetimeFacts.reads_only_index ]
            | apply LifetimeFacts.stays_mkdir_if_missing
            | apply LifetimeFacts.stays_copy2
            | apply LifetimeFacts.stays_chmod_by_flag
            | apply LifetimeFacts.stays_write_text
            | apply LifetimeFacts.preserves_render_template ]
  end.
Qed.

(** No object that is on disk before staging is missing after it, however
    staging ends: the stagers create, overwrite and change permissions, and
    never delete. *)
Theorem staging_never_removes
    (engine : string → dict → string + exn) (root_path context_dir : path)
    (items : manifest) (d : path) (st : state) :
  stays d (fs st) →
  stays d (fs (snd (build_stage engine root_path context_dir items st)))
  ∧ stays d (fs (snd (install_items engine root_path items context_dir st))).
Proof.
  intros Hd. split.
  - revert st Hd. unfold build_stage.
    apply LifetimeFacts.preserves_for_each. intros key.
    apply stays_build_stage_entry.
  - revert st Hd. apply LifetimeFacts.stays_install_items.
Qed.

Lemma staging_never_removes_witness :
  stays ["repo"; "run.sh"]
    (fs (snd (build_stage Script.engine Sample.root_path Sample.context_dir
                manifest_missing_source Sample.state0)))
  ∧ stays ["repo"; "run.sh"]
      (fs (snd (install_items Script.engine Sample.root_path
                  manifest_missing_source Sample.context_dir Sample.state0))).
Proof.
  apply (staging_never_removes Script.engine Sample.root_path
           Sample.context_dir manifest_missing_source ["repo"; "run.sh"]
           Sample.state0).
  vm_compute. reflexivity.
Defined.

(** ** Staging stays inside the context directory *)

Section Confined.

Variables d q : path.
Hypothesis Hq : ¬ under d q.

Lemma under_ne (p : path) : under d p → q ≠ p.
Proof. intros Hp ->. by apply Hq. Qed.

Lemma confined_bind {A B : Type} (m : M A) (k : A → M B) :
  confined d q m → (∀ a, confined d q (k a)) → confined d q (bind m k).
Proof.
  intros Hm Hk st Ha. unfold bind. destruct (Hm st Ha) as [Ha1 Hl1].
  destruct (m st) as [[a|c|e] st1]; simpl in *; [|done..].
  destruct (Hk a st1 Ha1) as [Ha2 Hl2]. split; [done|]. by rewrite Hl2.
Qed.

Lemma confined_reads_only {A : Type} (m : M A) : reads_only m → confined d q m.
Proof. intros Hm st Ha. by rewrite Hm. Qed.

Lemma confined_when (b : bool) (m : M unit) :
  confined d q m → confined d q (when b m).
Proof. intros Hm. destruct b; [done|]. by intros st Ha. Qed.

Lemma confined_for_each {A : Type} (xs : list A) (f : A → M unit) :
  (∀ x, x ∈ xs → confined d q (f x)) → confined d q (for_each xs f).
Proof.
  induction xs as [|x xs IH]; intros Hf; simpl.
  - by intros st Ha.
  - apply confined_bind; [apply Hf; left|]. intros _. apply IH.
    intros y Hy. apply Hf. by right.
Qed.

Lemma confined_of {A : Type} (m : M A) :
  (∀ r, preserves (stays r) m) →
  (∀ st, anchored d (fs st) → lookup (fs (snd (m st))) q = lookup (fs st) q) →
  confined d q m.
Proof.
  intros Hs Hl st Ha. split; [|by apply Hl].
  intros r Hr. apply Hs. by apply Ha.
Qed.

Lemma confined_write_text (p : path) (text : string) :
  under d p → confined d q (write_text p text).
Proof.
  intros Hp. apply confined_of; [intros r; apply LifetimeFacts.stays_write_text|].
  intros st _. unfold write_text.
  destruct (lookup (fs st) (parent p)) as [[?|?]|]; [done| |done].
  destruct (lookup (fs st) p) as [[?|?]|]; simpl; [|done|];
    apply lookup_insert_other; intros ->; by apply Hq.
Qed.

Lemma confined_chmod (p : path) (mode : Z) :
  under d p → confined d q (chmod p mode).
Proof.
  intros Hp. apply confined_of; [intros r; apply LifetimeFacts.stays_chmod|].
  intros st _. unfold chmod.
  destruct (lookup (fs st) p) as [[?|?]|]; simpl; [|destruct p|done];
    simpl; try done; apply lookup_insert_other; intros <-; by apply Hq.
Qed.

Lemma under_app (p : path) (c : string) : under d p → under d (p ++ [c]).
Proof. intros Hp. by apply prefix_app_r. Qed.

Lemma confined_copy2 (src dst : path) :
  under d dst → confined d q (copy2 src dst).
Proof.
  intros Hp. apply confined_of; [intros r; apply LifetimeFacts.stays_copy2|].
  intros st Ha. unfold copy2.
  destruct (lookup (fs st) src) as [[c m|?]|]; [|done..].
  set (target := if is_dir (fs st) dst then dst ++ [name src] else dst).
  assert (Ht : under d target).
  { unfold target. destruct (is_dir (fs st) dst); [by apply under_app|done]. }
  destruct (decide _); [done|].
  destruct (confined_write_text target c Ht st Ha) as [Ha1 Hl1].
  destruct (write_text target c st) as [[[]|?|?] st1]; simpl in *; [|done..].
  destruct (confined_chmod target m Ht st1 Ha1) as [_ Hl2].
  by rewrite Hl2.
Qed.

Lemma confined_chmod_by_flag (p : path) (flag : pyval) :
  under d p → confined d q (chmod_by_flag p flag).
Proof.
  intros Hp. unfold chmod_by_flag. destruct (truthy flag); by apply confined_chmod.
Qed.

Lemma outside_lookup_kept (t t' : tree) (p : path) :
  under d p → anchored d t →
  (∀ r n, lookup t r = Some n → lookup t' r = Some n) →
  (∀ r, ¬ r `prefix_of` p → lookup t' r = lookup t r) →
  lookup t' q = lookup t q.
Proof.
  intros Hp Ha Hk Ho. destruct (lookup t q) as [n|] eqn:E; [by apply Hk|].
  rewrite Ho; [done|]. intros Hqp.
  destruct (prefix_weak_total q d p Hqp Hp) as [Hqd|Hdq]; [|by apply Hq].
  specialize (Ha q Hqd). unfold stays, exists_ in Ha. by rewrite E in Ha.
Qed.

Lemma confined_mkdir_parents (p : path) :
  under d p → confined d q (mkdir_parents p).
Proof.
  intros Hp. apply confined_of; [intros r; apply LifetimeFacts.stays_mkdir_parents|].
  intros st Ha. unfold mkdir_parents. destruct p as [|c p']; [done|].
  destruct (mkdir_prefixes [] (c :: p') (umask st) (fs st)) as [t'|e] eqn:E;
    [|done].
  apply mkdir_prefixes_keeps in E as [Hk Ho]. simpl.
  by apply (outside_lookup_kept (fs st) t' (c :: p')).
Qed.

Lemma confined_mkdir_if_missing (p : path) :
  under d p → confined d q (mkdir_if_missing p).
Proof.
  intros Hp. unfold mkdir_if_missing. apply confined_bind.
  - apply confined_reads_only, LifetimeFacts.reads_only_path_exists.
  - intros b. apply confined_when. by apply confined_mkdir_parents.
Qed.

Lemma confined_touch (p : path) : under d p → confined d q (touch p).
Proof.
  intros Hp st Ha. unfold touch. destruct (lookup (fs st) p); [done|].
  by apply confined_write_text.
Qed.

Lemma graft_outside (src dst : path) (t : tree) :
  under d dst → lookup (graft src dst t) q = lookup t q.
Proof.
  intros Hp. unfold graft.
  apply (map_fold_weak_ind (λ acc _, lookup acc q = lookup t q)); [done|].
  intros p n m acc _ IH. destruct (relative_to src p) as [rel|]; [|done].
  rewrite lookup_insert_other; [done|]. intros <-. apply Hq.
  by apply prefix_app_r.
Qed.

Lemma confined_copytree (src dst : path) :
  under d dst → confined d q (copytree src dst).
Proof.
  intros Hp. apply confined_of; [intros r; apply LifetimeFacts.stays_copytree|].
  intros st _. unfold copytree. destruct (exists_ (fs st) dst); [done|].
  destruct (lookup (fs st) (parent dst)) as [[?|?]|]; simpl; [done| |done].
  by apply graft_outside.
Qed.

End Confined.

Lemma joinpath_relative (context_dir : path) (key : string) :
  relative_name key →
  under context_dir (joinpath context_dir key)
  ∧ under context_dir (parent (joinpath context_dir key)).
Proof.
  intros (Habs & Hne & _). unfold joinpath, parent. rewrite Habs. split.
  - by apply prefix_app_r.
  - destruct (parts key) as [|c ps] using rev_ind; [done|].
    rewrite app_assoc, removelast_last. by apply prefix_app_r.
Qed.

Ltac confine :=
  repeat match goal with
  | |- confined _ _ (bind _ _) => apply confined_bind; [|intros ?]
  | |- confined _ _ (when _ _) => apply confined_when
  | |- confined _ _ (match ?x with _ => _ end) => destruct x
  | |- confined _ _ _ =>
      first [ apply confined_reads_only;
              first [ apply LifetimeFacts.reads_only_ret
                    | apply LifetimeFacts.reads_only_sys_exit
                    | apply LifetimeFacts.reads_only_raise
                    | apply LifetimeFacts.reads_only_print
                    | apply LifetimeFacts.reads_only_path_exists
                    | apply LifetimeFacts.reads_only_path_is_file
                    | apply LifetimeFacts.reads_only_path_is_dir
                    | apply LifetimeFacts.reads_only_getitem
                    | apply LifetimeFacts.reads_only_index ]
            | apply confined_mkdir_if_missing; assumption
            | apply confined_mkdir_parents; assumption
            | apply confined_copy2; assumption
            | apply confined_copytree; assumption
            | apply confined_touch; assumption
            | apply confined_chmod_by_flag; assumption
            | apply confined_chmod; assumption
            | apply confined_write_text; assumption ]
  end.

Lemma confined_render_template (d q : path)
    (engine : string → dict → string + exn) (src : path) (context : pyval) :
  confined d q (render_template engine src context).
Proof.
  unfold render_template. apply confined_bind.
  - apply confined_reads_only, LifetimeFacts.reads_only_read_text.
  - intros source. destruct (py_dict context) as [dd|e].
    + destruct (engine source dd); apply confined_reads_only;
        [apply LifetimeFacts.reads_only_ret|apply LifetimeFacts.reads_only_raise].
    + apply confined_reads_only, LifetimeFacts.reads_only_raise.
Qed.

Lemma confined_build_stage_entry (engine : string → dict → string + exn)
    (root_path context_dir q : path) (items : manifest) (key : string) :
  ¬ under context_dir q → relative_name key →
  confined context_dir q
    (build_stage_entry engine root_path context_dir items key).
Proof.
  intros Hq [Hdst Hpar]%(joinpath_relative context_dir).
  unfold build_stage_entry. cbv zeta.
  repeat first [ apply confined_render_template | progress confine ].
Qed.

Lemma confined_install_entry (engine : string → dict → string + exn)
    (root_path context_dir q : path) (items : manifest) (key : string) :
  ¬ under context_dir q → relative_name key →
  confined context_dir q
    (install_entry engine root_path context_dir items key).
Proof.
  intros Hq [Hdst Hpar]%(joinpath_relative context_dir).
  unfold install_entry. cbv zeta.
  repeat first [ apply confined_render_template | progress confine ].
Qed.

(** When every destination name of the manifest is relative, names a
    component and never steps upwards, and the context directory with the
    directories above it is on disk, staging changes nothing outside the
    context directory, however it ends. Both stagers behave so. *)
Theorem staging_stays_inside_the_context
    (engine : string → dict → string + exn) (root_path context_dir q : path)
    (items : manifest) (st : state) :
  (∀ key, key ∈ keys items → relative_name key) →
  anchored context_dir (fs st) →
  ¬ under context_dir q →
  lookup (fs (snd (build_stage engine root_path context_dir items st))) q
  = lookup (fs st) q
  ∧ lookup (fs (snd (install_items engine root_path items context_dir st))) q
    = lookup (fs st) q.
Proof.
  intros Hkeys Ha Hq.
  assert (Hsorted : ∀ key, key ∈ sorted_keys items → relative_name key).
  { intros key Hk. apply Hkeys. by rewrite <- sorted_keys_keys. }
  split.
  - unfold build_stage.
    apply (confined_for_each context_dir q); [|exact Ha].
    intros key Hk. apply confined_build_stage_entry; auto.
  - unfold install_items.
    apply (confined_for_each context_dir q); [|exact Ha].
    intros key Hk. apply confined_install_entry; auto.
Qed.

Lemma staging_stays_inside_the_context_witness :
  lookup (fs (snd (build_stage Script.engine Sample.root_path Sample.context_dir
                     Sample.manifest_za Sample.state0))) ["repo"; "run.sh"]
  = lookup (fs Sample.state0) ["repo"; "run.sh"]
  ∧ lookup (fs (snd (install_items Script.engine Sample.root_path
                       Sample.manifest_za Sample.context_dir Sample.state0)))
      ["repo"; "run.sh"]
    = lookup (fs Sample.state0) ["repo"; "run.sh"].
Proof.
  apply (staging_stays_inside_the_context Script.engine Sample.root_path
           Sample.context_dir ["repo"; "run.sh"] Sample.manifest_za
           Sample.state0).
  - intros key Hk. apply elem_of_cons in Hk as [->|Hk].
    { split; [reflexivity|]. split; [discriminate|].
      apply (bool_decide_unpack _). vm_compute. exact I. }
    apply elem_of_cons in Hk as [->|Hk]; [|by apply elem_of_nil in Hk].
    split; [reflexivity|]. split; [discriminate|].
    apply (bool_decide_unpack _). vm_compute. exact I.
  - intros r [k Hk]. unfold Sample.context_dir in Hk.
    destruct r as [|a [|b [|c r]]]; simpl in Hk; simplify_eq;
      vm_compute; reflexivity.
  - intros [k Hk]. discriminate.
Defined.

End StagingFacts.

(* ===================================================================== *)
(** * Facts about the manifests the scripts build                        *)
(* ===================================================================== *)

Module ManifestFacts.
Import Py Fs Eff World Stager StagerFacts StageSpec.
Local Open Scope eff_scope.

Lemma returns_bind {A B : Type} (m : M A) (k : A → M B) (Q : B → Prop) :
  (∀ a, returns (k a) Q) → returns (bind m k) Q.
Proof.
  intros Hk st. unfold bind. destruct (m st) as [[a|c|e] st1]; [|done..].
  apply Hk.
Qed.

Lemma returns_bind_strong {A B : Type} (m : M A) (k : A → M B)
    (Q1 : A → Prop) (Q : B → Prop) :
  returns m Q1 → (∀ a, Q1 a → returns (k a) Q) → returns (bind m k) Q.
Proof.
  intros Hm Hk st. unfold bind. specialize (Hm st).
  destruct (m st) as [[a|c|e] st1]; [|done..].
  by apply Hk.
Qed.

Lemma returns_ret {A : Type} (a : A) (Q : A → Prop) : Q a → returns (ret a) Q.
Proof. intros H st. exact H. Qed.

#[local] Instance relative_name_dec (key : string) : Decision (relative_name key).
Proof. unfold relative_name. apply _. Defined.

Ltac manifest_ok :=
  split; [|split; [|split]];
  [ apply (bool_decide_unpack _); vm_compute; exact I
  | apply (bool_decide_unpack _); vm_compute; exact I
  | apply (bool_decide_unpack _); vm_compute; exact I
  | vm_compute; repeat (apply Forall_cons_2; [exact I|]); apply Forall_nil_2 ].

Ltac returns_cases :=
  repeat match goal with
  | |- returns (bind _ _) _ => apply returns_bind; intros ?
  | |- returns (ret _) _ => apply returns_ret
  | |- returns (match ?x with _ => _ end) _ => destruct x
  | |- well_formed_manifest (if ?b then _ else _) => destruct b
  | |- well_formed_manifest (RosBaseBuild.setitem (if ?b then _ else _) _ _) =>
      destruct b
  end.

Lemma items_to_use_well_formed (w : world) (a : RosBaseBuild.args)
    (ros_distro ros_version : string) (use_environment : bool)
    (ros_packages extra_ros_env_vars : string) :
  returns (RosBaseBuild.make_items_to_use w a ros_distro ros_version
             use_environment ros_packages extra_ros_env_vars)
          well_formed_manifest.
Proof.
  unfold RosBaseBuild.make_items_to_use. cbv zeta.
  set (base := if String.eqb ros_version "2" then _ else _).
  apply (returns_bind_strong _ _
           (λ items, items = base
                     ∨ ∃ e, items = RosBaseBuild.setitem base "entrypoint.sh"
                                      [PStr e; PBool true])).
  - destruct (negb (RosBaseBuild.use_base_img_entrypoint a)).
    + destruct (RosBaseBuild.entrypoint a); returns_cases; eauto.
    + apply returns_ret. by left.
  - intros items Hitems. unfold base in Hitems.
    destruct (String.eqb ros_version "2"), use_environment;
      [destruct (RosBaseBuild.environment a)| |
       destruct (RosBaseBuild.environment a)|];
      returns_cases; destruct Hitems as [->|[e ->]]; manifest_ok.
Qed.

Lemma items_to_install_well_formed (w : world) (a : CreateDockerFiles.args)
    (base_img img_user ros_distro ros_version img_id_to_build : string)
    (use_base_img_entrypoint use_environment use_host_nvidia_driver : bool)
    (ros_packages_file extra_ros_env_vars_file : path) :
  returns (CreateDockerFiles.create_items_to_install w a base_img img_user
             ros_distro ros_version img_id_to_build use_base_img_entrypoint
             use_environment use_host_nvidia_driver ros_packages_file
             extra_ros_env_vars_file)
          well_formed_manifest.
Proof.
  unfold CreateDockerFiles.create_items_to_install, CreateDockerFiles.setitem.
  cbv zeta. do 2 (apply returns_bind; intros ?). apply returns_ret.
  destruct (String.eqb ros_version "2");
    destruct (negb (CreateDockerFiles.use_base_img_entrypoint a));
    destruct use_environment;
    destruct (negb (CreateDockerFiles.use_host_nvidia_driver a));
    manifest_ok.
Qed.

(** Every manifest the two scripts build is well formed, whatever the
    command line: the destination names differ from each other and are
    relative names that never step out of the context directory, there is
    a [Dockerfile], and each item is a copy item [[source, flag]] or a
    template item [[source, dictionary, flag]]. The tests of the stagers
    for a missing or ill-shaped context never fire on these manifests. *)
Theorem script_manifests_are_well_formed :
  (∀ w a ros_distro ros_version use_environment ros_packages extra_ros_env_vars,
     returns (RosBaseBuild.make_items_to_use w a ros_distro ros_version
                use_environment ros_packages extra_ros_env_vars)
             well_formed_manifest)
  ∧ (∀ w a base_img img_user ros_distro ros_version img_id_to_build
        use_base_img_entrypoint use_environment use_host_nvidia_driver
        ros_packages_file extra_ros_env_vars_file,
       returns (CreateDockerFiles.create_items_to_install w a base_img img_user
                  ros_distro ros_version img_id_to_build use_base_img_entrypoint
                  use_environment use_host_nvidia_driver ros_packages_file
                  extra_ros_env_vars_file)
               well_formed_manifest).
Proof.
  split.
  - intros. apply items_to_use_well_formed.
  - intros. apply items_to_install_well_formed.
Qed.

Example sample_manifest_is_built :
  match fst (RosBaseBuild.make_items_to_use Sample.world_success
               Sample.base_args "humble" "2" true "ros-base"
               "ROS_DOMAIN_ID=0" Sample.repo_state) with
  | Ret items =>
      keys items
      = ["Dockerfile"; "deduplicate_path.sh"; "dot_bash_aliases";
         "install_base_system.sh"; "install_ros.sh"; "rosbuild.sh";
         "rosdep_init_update.sh"; "colcon_mixin_metadata.sh";
         "rosdep_ignored_keys.yaml"; "entrypoint.sh"; "environment.sh"]
  | _ => False
  end.
Proof. vm_compute. reflexivity. Qed.

End ManifestFacts.

(* ===================================================================== *)
(** * The exit status of the build script                                *)
(* ===================================================================== *)

Module ExitFacts.
Import Py Fs Eff World Stager Logs StagerFacts ScriptSpec.
Local Open Scope eff_scope.

Section Status.

Variable I : Z → Prop.

Lemma exits_bind {A B : Type} (m : M A) (k : A → M B) :
  exits_within I m → (∀ a, exits_within I (k a)) → exits_within I (bind m k).
Proof.
  intros Hm Hk st c. unfold bind. specialize (Hm st).
  destruct (m st) as [[a|c'|e] st1]; simpl in *.
  - apply Hk.
  - intros [= <-]. by apply Hm.
  - done.
Qed.

Lemma exits_when (b : bool) (m : M unit) :
  exits_within I m → exits_within I (when b m).
Proof. intros Hm. destruct b; [done|]. by intros st c. Qed.

Lemma exits_ret {A : Type} (a : A) : exits_within I (ret a).
Proof. by intros st c. Qed.
Lemma exits_print (s : string) : exits_within I (print s).
Proof. by intros st c. Qed.
Lemma exits_eprint (s : string) : exits_within I (eprint s).
Proof. by intros st c. Qed.
Lemma exits_path_is_file (p : path) : exits_within I (path_is_file p).
Proof. by intros st c. Qed.
Lemma exits_read_text (p : path) : exits_within I (read_text p).
Proof. intros st c. unfold read_text. by destruct (lookup _ _) as [[]|]. Qed.
Lemma exits_stat_size (p : path) : exits_within I (stat_size p).
Proof. intros st c. unfold stat_size. by destruct (lookup _ _) as [[]|]. Qed.
Lemma exits_sys_exit {A : Type} (c : Z) : I c → exits_within I (@sys_exit A c).
Proof. intros Hc st c'. simpl. by intros [= <-]. Qed.

Lemma keeps_bind {A B : Type} (m : M A) (k : A → M B) :
  keeps_status I m → (∀ a, keeps_status I (k a)) → keeps_status I (bind m k).
Proof.
  intros Hm Hk st HI. unfold bind. specialize (Hm st HI).
  destruct (m st) as [[a|c|e] st1]; simpl in *; [by apply Hk|done..].
Qed.

Lemma keeps_when (b : bool) (m : M unit) :
  keeps_status I m → keeps_status I (when b m).
Proof. intros Hm. destruct b; [done|]. by intros st HI. Qed.

Lemma keeps_for_each {A : Type} (xs : list A) (f : A → M unit) :
  (∀ x, keeps_status I (f x)) → keeps_status I (for_each xs f).
Proof.
  intros Hf. induction xs as [|x xs IH]; simpl.
  - by intros st HI.
  - apply keeps_bind; [apply Hf|by intros _].
Qed.

(** A statement that does not assign [exit_code]. *)
Lemma keeps_same {A : Type} (m : M A) :
  (∀ st, exit_code (snd (m st)) = exit_code st) → keeps_status I m.
Proof. intros Hm st HI. by rewrite Hm. Qed.

Lemma same_ret {A : Type} (a : A) st : exit_code (snd (ret a st)) = exit_code st.
Proof. done. Qed.
Lemma same_sys_exit {A : Type} (c : Z) st :
  exit_code (snd (@sys_exit A c st)) = exit_code st.
Proof. done. Qed.
Lemma same_raise {A : Type} (e : exn) st :
  exit_code (snd (@raise A e st)) = exit_code st.
Proof. done. Qed.
Lemma same_print (s : string) st : exit_code (snd (print s st)) = exit_code st.
Proof. done. Qed.
Lemma same_eprint (s : string) st : exit_code (snd (eprint s st)) = exit_code st.
Proof. done. Qed.
Lemma same_read_exit_code st : exit_code (snd (read_exit_code st)) = exit_code st.
Proof. done. Qed.
Lemma same_path_exists (p : path) st :
  exit_code (snd (path_exists p st)) = exit_code st.
Proof. done. Qed.
Lemma same_path_is_file (p : path) st :
  exit_code (snd (path_is_file p st)) = exit_code st.
Proof. done. Qed.
Lemma same_path_is_dir (p : path) st :
  exit_code (snd (path_is_dir p st)) = exit_code st.
Proof. done. Qed.
Lemma same_read_text (p : path) st :
  exit_code (snd (read_text p st)) = exit_code st.
Proof. unfold read_text. by destruct (lookup _ _) as [[]|]. Qed.
Lemma same_stat_size (p : path) st :
  exit_code (snd (stat_size p st)) = exit_code st.
Proof. unfold stat_size. by destruct (lookup _ _) as [[]|]. Qed.
Lemma same_getitem (items : manifest) (k : string) st :
  exit_code (snd (getitem items k st)) = exit_code st.
Proof. unfold getitem. by destruct (List.find _ _). Qed.
Lemma same_index (item : list pyval) (i : nat) st :
  exit_code (snd (index item i st)) = exit_code st.
Proof. unfold index. by destruct (item !! i). Qed.
Lemma same_mkdir_parents (p : path) st :
  exit_code (snd (mkdir_parents p st)) = exit_code st.
Proof.
  unfold mkdir_parents. destruct p; [done|]. by destruct (mkdir_prefixes _ _ _ _).
Qed.
Lemma same_write_text (p : path) (text : string) st :
  exit_code (snd (write_text p text st)) = exit_code st.
Proof.
  unfold write_text. destruct (lookup _ (parent p)) as [[]|]; [done| |done].
  by destruct (lookup _ p) as [[]|].
Qed.
Lemma same_append_text (p : path) (line : string) st :
  exit_code (snd (append_text p line st)) = exit_code st.
Proof. unfold append_text. by destruct (lookup _ _) as [[]|]. Qed.
Lemma same_chmod (p : path) (mode : Z) st :
  exit_code (snd (chmod p mode st)) = exit_code st.
Proof.
  unfold chmod. destruct (lookup _ _) as [[]|]; [done| |done]. by destruct p.
Qed.
Lemma same_copy2 (src dst : path) st :
  exit_code (snd (copy2 src dst st)) = exit_code st.
Proof.
  unfold copy2. destruct (lookup _ src) as [[c m|]|]; [|done..].
  destruct (decide _); [done|].
  pose proof (same_write_text
                (if is_dir (fs st) dst then dst ++ [name src] else dst) c st) as Hw.
  destruct (write_text _ c st) as [[[]|?|?] st1]; simpl in *; [|done..].
  by rewrite same_chmod.
Qed.
Lemma same_touch (p : path) st : exit_code (snd (touch p st)) = exit_code st.
Proof. unfold touch. destruct (lookup _ _); [done|]. apply same_write_text. Qed.
Lemma same_copytree (src dst : path) st :
  exit_code (snd (copytree src dst st)) = exit_code st.
Proof.
  unfold copytree. destruct (exists_ _ _); [done|].
  by destruct (lookup _ _) as [[]|].
Qed.
Lemma same_unlink (w : world) (missing_ok : bool) (p : path) st :
  exit_code (snd (unlink w missing_ok p st)) = exit_code st.
Proof.
  unfold unlink. destruct (unlink_fails w p); [done|].
  destruct (lookup _ _) as [[]|]; [done..|]. by destruct missing_ok.
Qed.

Ltac status :=
  repeat match goal with
  | |- keeps_status _ (bind _ _) => apply keeps_bind; [|intros ?]
  | |- keeps_status _ (when _ _) => apply keeps_when
  | |- keeps_status _ (for_each _ _) => apply keeps_for_each; intros ?
  | |- keeps_status _ (match ?x with _ => _ end) => destruct x
  | |- keeps_status _ (let _ := _ in _) => cbv zeta
  | |- keeps_status _ _ =>
      apply keeps_same; intros ?;
      first [ apply same_ret | apply same_sys_exit | apply same_raise
            | apply same_print | apply same_eprint | apply same_read_exit_code
            | apply same_path_exists | apply same_path_is_file
            | apply same_path_is_dir | apply same_read_text
            | apply same_stat_size | apply same_getitem | apply same_index
            | apply same_mkdir_parents | apply same_write_text
            | apply same_append_text | apply same_chmod | apply same_copy2
            | apply same_touch | apply same_copytree | apply same_unlink ]
  end.

Lemma keeps_build_stage (engine : string → dict → string + exn)
    (root_path context_dir : path) (items : manifest) :
  keeps_status I (build_stage engine root_path context_dir items).
Proof.
  unfold build_stage. apply keeps_for_each. intros key.
  unfold build_stage_entry, render_template, mkdir_if_missing, chmod_by_flag.
  cbv zeta. status.
Qed.

Lemma keeps_make_cmd (w : world) (a : RosBaseBuild.args) (context_dir : path)
    (base_img requested_user requested_user_home ros_distro ros_version
     img_id_to_build : string) :
  keeps_status I
    (RosBaseBuild.make_cmd w a context_dir base_img requested_user
       requested_user_home ros_distro ros_version img_id_to_build).
Proof.
  unfold RosBaseBuild.make_cmd, RosBaseBuild.pull_branch, img_exists_locally.
  cbv zeta. status.
Qed.

Lemma keeps_try_except_OSError (body handler : M unit) :
  keeps_status I body → keeps_status I handler →
  keeps_status I (try_except_OSError body handler).
Proof.
  intros Hb Hh st HI. unfold try_except_OSError. specialize (Hb st HI).
  destruct (body st) as [[[]|c|e] st1]; simpl in *; [done..|].
  destruct (is_OSError e); [by apply Hh|done].
Qed.

Lemma keeps_with_TemporaryDirectory {A : Type} (w : world) (body : path → M A) :
  (∀ d, keeps_status I (body d)) →
  keeps_status I (with_TemporaryDirectory w body).
Proof.
  intros Hb st HI. unfold with_TemporaryDirectory, mkdtemp.
  destruct (lookup (fs st) ["tmp"]) as [[?|?]|]; [done| |done].
  destruct (lookup (fs st) (context_of w)); [done|].
  specialize (Hb (context_of w)
                (set_fs (<[context_of w := Dir (octal [7; 0; 0]%Z)]> (fs st)) st) HI).
  by destruct (body _ _) as [r st2].
Qed.

End Status.

(** Once the unlink of a log has failed the status is not 0. *)
Lemma keeps_report_unlink_error (w : world) :
  keeps_status (build_status w) report_unlink_error.
Proof.
  intros st HI. unfold report_unlink_error, bind. simpl.
  destruct (exit_code st =? 0)%Z; [by left|done].
Qed.

Lemma keeps_filter_logs (w : world) (complete specific : path) :
  keeps_status (build_status w) (filter_logs w complete specific).
Proof.
  unfold filter_logs.
  assert (∀ ls n, keeps_status (build_status w) (copy_matching ls specific n))
    as Hcopy.
  { induction ls as [|l ls IH]; intros n; simpl.
    - by intros st HI.
    - destruct (LogPattern.selected l); [|apply IH].
      apply keeps_bind; [|intros _; apply IH].
      apply keeps_same. intros st. apply same_append_text. }
  repeat match goal with
  | |- keeps_status _ (bind (copy_matching _ _ _) _) =>
      apply keeps_bind; [apply Hcopy|intros ?]
  | |- keeps_status _ (try_except_OSError _ _) =>
      apply keeps_try_except_OSError; [|apply keeps_report_unlink_error]
  | |- keeps_status _ (if ?b then _ else _) => destruct b
  | |- keeps_status _ (bind _ _) => apply keeps_bind; [|intros ?]
  | |- keeps_status _ _ =>
      apply keeps_same; intros ?;
      first [ apply same_print | apply same_path_exists | apply same_stat_size
            | apply same_read_text | apply same_write_text | apply same_unlink ]
  end.
Qed.

Lemma keeps_tee (I : Z → Prop) (output : string) (log : path) :
  keeps_status I (tee output log).
Proof.
  unfold tee. apply keeps_for_each. intros line.
  apply keeps_bind; [|intros _]; apply keeps_same; intros st;
    [apply same_print|apply same_append_text].
Qed.

Lemma keeps_run_and_log (w : world) (img_id_to_build : string)
    (complete specific : path) :
  keeps_status (build_status w) (run_and_log w img_id_to_build complete specific).
Proof.
  unfold run_and_log. destruct (build_run w) as [e|output|output rc] eqn:Hrun.
  - apply keeps_same. intros st. apply same_raise.
  - apply keeps_bind; [apply keeps_same; intros st; apply same_write_text|intros _].
    apply keeps_bind; [apply keeps_tee|intros _].
    apply keeps_same. intros st. apply same_raise.
  - apply keeps_bind; [apply keeps_same; intros st; apply same_write_text|intros _].
    apply keeps_bind; [apply keeps_tee|intros _].
    apply keeps_bind.
    { intros st _. simpl. right. by exists output. }
    intros _. apply keeps_bind; [|intros _; apply keeps_filter_logs].
    destruct (rc =? 0)%Z; apply keeps_same; intros st;
      [apply same_print|apply same_raise].
Qed.

Lemma keeps_pipeline (engine : string → dict → string + exn) (root_path : path)
    (w : world) (a : RosBaseBuild.args) (items : manifest)
    (base_img requested_user requested_user_home ros_distro ros_version
     img_id_to_build : string) (context_dir : path) :
  keeps_status (build_status w)
    (RosBaseBuild.pipeline engine root_path w a items base_img requested_user
       requested_user_home ros_distro ros_version img_id_to_build context_dir).
Proof.
  unfold RosBaseBuild.pipeline. cbv zeta.
  apply keeps_bind; [apply keeps_same; intros st; apply same_print|intros _].
  apply keeps_bind; [apply keeps_build_stage|intros _].
  apply keeps_bind; [by apply keeps_make_cmd|intros cmd].
  do 3 (apply keeps_bind; [apply keeps_same; intros st; apply same_print|intros _]).
  apply keeps_run_and_log.
Qed.

(** The frame [try: ... finally: sys.exit(exit_code)] ends with what the
    variable holds. *)
Lemma exits_try_finally_exit (I : Z → Prop) (c0 : Z) (body : M unit) :
  I c0 → keeps_status I body →
  exits_within I (bind (assign_exit_code c0) (λ _, try_finally_exit body)).
Proof.
  intros H0 Hb st c. unfold bind, assign_exit_code, try_finally_exit.
  specialize (Hb (set_exit_code c0 st) H0).
  destruct (body (set_exit_code c0 st)) as [[[]|c'|[|cls]] st1]; simpl in *;
    by intros [= <-].
Qed.

Lemma exits_usable_file (I : Z → Prop) (p : path) :
  exits_within I (RosBaseBuild.usable_file p).
Proof.
  unfold RosBaseBuild.usable_file.
  apply exits_bind; [apply exits_path_is_file|intros [|]]; [|apply exits_ret].
  apply exits_bind; [apply exits_stat_size|intros n]. apply exits_ret.
Qed.

Ltac exits_one :=
  repeat match goal with
  | |- exits_within _ (bind _ _) => apply exits_bind; [|intros ?]
  | |- exits_within _ (when _ _) => apply exits_when
  | |- exits_within _ (sys_exit _) => apply exits_sys_exit; by left
  | |- exits_within _ (ret _) => apply exits_ret
  | |- exits_within _ (print _) => apply exits_print
  | |- exits_within _ (eprint _) => apply exits_eprint
  | |- exits_within _ (path_is_file _) => apply exits_path_is_file
  | |- exits_within _ (read_text _) => apply exits_read_text
  | |- exits_within _ (RosBaseBuild.usable_file _) => apply exits_usable_file
  | |- exits_within _ (if ?b then _ else _) => destruct b
  | |- exits_within _ (match ?x with _ => _ end) => destruct x
  end.

Lemma exits_read_required (w : world) (p : path) :
  exits_within (build_status w) (RosBaseBuild.read_required p).
Proof. unfold RosBaseBuild.read_required. exits_one. Qed.

Lemma exits_make_items_to_use (w : world) (a : RosBaseBuild.args)
    (ros_distro ros_version : string) (use_environment : bool)
    (ros_packages extra_ros_env_vars : string) :
  exits_within (build_status w)
    (RosBaseBuild.make_items_to_use w a ros_distro ros_version use_environment
       ros_packages extra_ros_env_vars).
Proof. unfold RosBaseBuild.make_items_to_use. cbv zeta. exits_one. Qed.

(** The status with which [ros_base_imgs/build.py] leaves through
    [sys.exit] is 1 or the return code of the engine; so it is 0 only
    when the engine ran and returned 0. *)
Theorem exit_status_reports_the_build
    (engine : string → dict → string + exn) (root_path : path) (w : world)
    (a : RosBaseBuild.args) (st : state) (c : Z) :
  fst (RosBaseBuild.main engine root_path w a st) = Exit c →
  (c = 1%Z ∨ ∃ output, build_run w = Exited output c)
  ∧ (c = 0%Z → ∃ output, build_run w = Exited output 0).
Proof.
  intros Hexit.
  assert (build_status w c) as Hc.
  { revert st c Hexit. change (exits_within (build_status w)
                                 (RosBaseBuild.main engine root_path w a)).
    unfold RosBaseBuild.main. cbv zeta.
    destruct (RosBaseBuild.distro _) as [[ros_version ubuntu_version]|].
    2:{ exits_one. }
    apply exits_bind; [exits_one|intros base_img].
    apply exits_bind; [exits_one|intros _].
    apply exits_bind; [exits_one|intros _].
    apply exits_bind; [apply exits_read_required|intros ros_packages].
    apply exits_bind; [apply exits_read_required|intros extra_ros_env_vars].
    apply exits_bind; [apply exits_make_items_to_use|intros items].
    apply exits_try_finally_exit; [by left|].
    apply keeps_with_TemporaryDirectory. intros d. apply keeps_pipeline. }
  split; [exact Hc|]. intros ->. destruct Hc as [|Hc]; [done|exact Hc].
Qed.

Lemma exit_status_reports_the_build_witness :
  (0 = 1 ∨ ∃ output, build_run Sample.world_success = Exited output 0)%Z
  ∧ (0 = 0 → ∃ output, build_run Sample.world_success = Exited output 0)%Z.
Proof.
  apply (exit_status_reports_the_build Script.engine ["repo"] Sample.world_success
           Sample.base_args Sample.repo_state 0).
  vm_compute. reflexivity.
Defined.

Example exit_status_samples :
  fst (RosBaseBuild.main Script.engine ["repo"] Sample.world_failure
         Sample.base_args Sample.repo_state) = Exit 1
  ∧ fst (RosBaseBuild.main Script.engine ["repo"] Sample.world_interrupt
           Sample.base_args Sample.repo_state) = Exit 1
  ∧ fst (RosBaseBuild.main Script.engine ["repo"] Sample.world_no_engine
           Sample.base_args Sample.repo_state) = Exit 1.
Proof. repeat split; vm_compute; reflexivity. Qed.

End ExitFacts.

(* ===================================================================== *)
(** * Command lines that are turned down                                 *)
(* ===================================================================== *)

Module RejectFacts.
Import Py Fs Eff World Stager ScriptSpec.
Local Open Scope eff_scope.

Lemma distro_cases (d ros_version ubuntu_version : string) :
  RosBaseBuild.distro d = Some (ros_version, ubuntu_version) →
  ImageName.is_valid_docker_img_name ("ubuntu:" +:+ ubuntu_version) = true.
Proof.
  unfold RosBaseBuild.distro. intros H.
  destruct (List.find _ _) as [[k [v u]]|] eqn:E; simpl in H; [|done].
  injection H as -> ->. apply find_some in E as [Hin _].
  unfold RosBaseBuild.ROS_DISTROS in Hin.
  repeat (destruct Hin as [[= <- <- <-]|Hin]; [vm_compute; reflexivity|]).
  destruct Hin.
Qed.

(** A command line that is turned down ends the script with status 1
    before anything is written: the file system and the variable
    [exit_code] are as they were, for [build.py] and for
    [create_docker_files.py], which has not made its context directory
    yet. *)
Theorem rejected_input_touches_nothing
    (engine : string → dict → string + exn) (root_path : path) (w : world)
    (a : RosBaseBuild.args) (a' : CreateDockerFiles.args) (st : state) :
  (rejected (RosBaseBuild.ros_distro a) (RosBaseBuild.base_img a)
            (RosBaseBuild.img_id a) (RosBaseBuild.img_user a) = true →
   ∃ st', RosBaseBuild.main engine root_path w a st = (Exit 1, st')
          ∧ fs st' = fs st ∧ exit_code st' = exit_code st)
  ∧ (rejected (CreateDockerFiles.ros_distro a') (CreateDockerFiles.base_img a')
              (CreateDockerFiles.img_id a') (CreateDockerFiles.img_user a') = true →
     ∃ st', CreateDockerFiles.main engine root_path w a' st = (Exit 1, st')
            ∧ fs st' = fs st ∧ exit_code st' = exit_code st).
Proof.
  split.
  - unfold rejected, RosBaseBuild.main. cbv zeta.
    destruct (RosBaseBuild.distro _) as [[ros_version ubuntu_version]|] eqn:Hd.
    2:{ intros _. eexists. by split. }
    apply distro_cases in Hd. rewrite Hd.
    unfold bind, when, eprint, print, sys_exit, ret.
    destruct (String.eqb (match RosBaseBuild.base_img a with
                          | Some s => Str.strip s | None => "" end) "");
      [|destruct (ImageName.is_valid_docker_img_name
                    (match RosBaseBuild.base_img a with
                     | Some s => Str.strip s | None => "" end))];
      simpl;
      try (intros _; eexists; by split);
      (destruct (ImageName.is_valid_docker_img_name
                   (Str.strip (RosBaseBuild.img_id a))); simpl;
       [|intros _; eexists; by split]);
      (destruct (String.eqb (Str.strip (RosBaseBuild.img_user a)) ""); simpl;
       [intros _; eexists; by split|]);
      (destruct (Str.contains " " (Str.strip (RosBaseBuild.img_user a))); simpl;
       [intros _; eexists; by split|done]).
  - unfold rejected, CreateDockerFiles.main. cbv zeta.
    destruct (RosBaseBuild.distro _) as [[ros_version ubuntu_version]|] eqn:Hd.
    2:{ intros _. eexists. by split. }
    apply distro_cases in Hd. rewrite Hd.
    unfold bind, when, eprint, print, sys_exit, ret.
    destruct (String.eqb (match CreateDockerFiles.base_img a' with
                          | Some s => Str.strip s | None => "" end) "");
      [|destruct (ImageName.is_valid_docker_img_name
                    (match CreateDockerFiles.base_img a' with
                     | Some s => Str.strip s | None => "" end))];
      simpl;
      try (intros _; eexists; by split);
      (destruct (ImageName.is_valid_docker_img_name
                   (Str.strip (CreateDockerFiles.img_id a'))); simpl;
       [|intros _; eexists; by split]);
      (destruct (String.eqb (Str.strip (CreateDockerFiles.img_user a')) ""); simpl;
       [intros _; eexists; by split|]);
      (destruct (Str.contains " " (Str.strip (CreateDockerFiles.img_user a'))); simpl;
       [intros _; eexists; by split|done]).
Qed.

Lemma rejected_input_touches_nothing_witness :
  (∃ st', RosBaseBuild.main Script.engine ["repo"] Sample.world_success
            bad_name_args Sample.repo_state = (Exit 1, st')
          ∧ fs st' = fs Sample.repo_state
          ∧ exit_code st' = exit_code Sample.repo_state)
  ∧ (∃ st', CreateDockerFiles.main Script.engine ["repo"] Sample.world_success
              bad_name_files_args Sample.repo_state = (Exit 1, st')
            ∧ fs st' = fs Sample.repo_state
            ∧ exit_code st' = exit_code Sample.repo_state).
Proof.
  destruct (rejected_input_touches_nothing Script.engine ["repo"]
              Sample.world_success bad_name_args bad_name_files_args
              Sample.repo_state) as [H1 H2].
  split; [apply H1|apply H2]; vm_compute; reflexivity.
Defined.

End RejectFacts.

(* ===================================================================== *)
(** * What a script run leaves untouched                                 *)
(* ===================================================================== *)

Module FootprintFacts.
Import Py Fs Eff World Stager Logs StagerFacts StageSpec ScriptSpec.
Local Open Scope eff_scope.

Section Leaves.

Variable q : path.

Lemma leaves_bind {A B : Type} (m : M A) (k : A → M B) :
  leaves q m → (∀ a, leaves q (k a)) → leaves q (bind m k).
Proof.
  intros Hm Hk st. unfold bind. specialize (Hm st).
  destruct (m st) as [[a|c|e] st1]; simpl in *; [|done..].
  by rewrite Hk.
Qed.

(** The same, when the continuation relies on what [m] returns. *)
Lemma leaves_bind_returns {A B : Type} (m : M A) (k : A → M B) (Q : A → Prop) :
  returns m Q → leaves q m → (∀ a, Q a → leaves q (k a)) → leaves q (bind m k).
Proof.
  intros HQ Hm Hk st. unfold bind. specialize (Hm st). specialize (HQ st).
  destruct (m st) as [[a|c|e] st1]; simpl in *; [|done..].
  by rewrite Hk.
Qed.

Lemma leaves_when (b : bool) (m : M unit) : leaves q m → leaves q (when b m).
Proof. intros Hm. destruct b; [done|]. by intros st. Qed.

Lemma leaves_for_each {A : Type} (xs : list A) (f : A → M unit) :
  (∀ x, leaves q (f x)) → leaves q (for_each xs f).
Proof.
  intros Hf. induction xs as [|x xs IH]; simpl.
  - by intros st.
  - apply leaves_bind; [apply Hf|by intros _].
Qed.

(** A statement that keeps every property of the file system. *)
Lemma leaves_preserves {A : Type} (m : M A) :
  (∀ P, preserves P m) → leaves q m.
Proof.
  intros Hm st. by apply (Hm (λ t, lookup t q = lookup (fs st) q) st).
Qed.

Lemma leaves_reads_only {A : Type} (m : M A) : reads_only m → leaves q m.
Proof. intros Hm st. by rewrite Hm. Qed.

Lemma lookup_insert_other' (t : tree) (p : path) (n : node) :
  q ≠ p → lookup (<[p := n]> t) q = lookup t q.
Proof.
  intros Hne. unfold lookup. destruct (decide (q = [])); [done|].
  by rewrite lookup_insert_ne.
Qed.

Lemma lookup_delete_other' (t : tree) (p : path) :
  q ≠ p → lookup (delete p t) q = lookup t q.
Proof.
  intros Hne. unfold lookup. destruct (decide (q = [])); [done|].
  by rewrite lookup_delete_ne.
Qed.

Lemma leaves_write_text (p : path) (text : string) :
  q ≠ p → leaves q (write_text p text).
Proof.
  intros Hne st. unfold write_text.
  destruct (lookup (fs st) (parent p)) as [[?|?]|]; [done| |done].
  destruct (lookup (fs st) p) as [[?|?]|]; simpl; [|done|];
    by apply lookup_insert_other'.
Qed.

Lemma leaves_append_text (p : path) (line : string) :
  q ≠ p → leaves q (append_text p line).
Proof.
  intros Hne st. unfold append_text.
  destruct (lookup (fs st) p) as [[?|?]|]; simpl; [|done..].
  by apply lookup_insert_other'.
Qed.

Lemma leaves_unlink (w : world) (missing_ok : bool) (p : path) :
  q ≠ p → leaves q (unlink w missing_ok p).
Proof.
  intros Hne st. unfold unlink. destruct (unlink_fails w p); [done|].
  destruct (lookup (fs st) p) as [[?|?]|]; simpl; [|done|by destruct missing_ok].
  by apply lookup_delete_other'.
Qed.

Lemma leaves_try_except_OSError (body handler : M unit) :
  leaves q body → leaves q handler → leaves q (try_except_OSError body handler).
Proof.
  intros Hb Hh st. unfold try_except_OSError. specialize (Hb st).
  destruct (body st) as [[[]|c|e] st1]; simpl in *; [done..|].
  destruct (is_OSError e); [by rewrite Hh|done].
Qed.

Lemma leaves_try_finally_exit (body : M unit) :
  leaves q body → leaves q (try_finally_exit body).
Proof.
  intros Hb st. unfold try_finally_exit. specialize (Hb st).
  by destruct (body st) as [[[]|c|[|cls]] st1].
Qed.

Lemma leaves_report_unlink_error : leaves q report_unlink_error.
Proof. by intros st. Qed.

Lemma leaves_copy_matching (ls : list string) (fout : path) (n : nat) :
  q ≠ fout → leaves q (copy_matching ls fout n).
Proof.
  intros Hne. revert n. induction ls as [|l ls IH]; intros n; simpl.
  - by intros st.
  - destruct (LogPattern.selected l); [|apply IH].
    apply leaves_bind; [by apply leaves_append_text|intros _; apply IH].
Qed.

Ltac leave :=
  repeat match goal with
  | |- leaves _ (bind _ _) => apply leaves_bind; [|intros ?]
  | |- leaves _ (when _ _) => apply leaves_when
  | |- leaves _ (for_each _ _) => apply leaves_for_each; intros ?
  | |- leaves _ (try_except_OSError _ _) => apply leaves_try_except_OSError
  | |- leaves _ (try_finally_exit _) => apply leaves_try_finally_exit
  | |- leaves _ report_unlink_error => apply leaves_report_unlink_error
  | |- leaves _ (copy_matching _ _ _) => apply leaves_copy_matching; assumption
  | |- leaves _ (write_text _ _) => apply leaves_write_text; assumption
  | |- leaves _ (append_text _ _) => apply leaves_append_text; assumption
  | |- leaves _ (unlink _ _ _) => apply leaves_unlink; assumption
  | |- leaves _ (if ?b then _ else _) => destruct b
  | |- leaves _ (match ?x with _ => _ end) => destruct x
  | |- leaves _ _ =>
      apply leaves_reads_only;
      first [ apply LifetimeFacts.reads_only_ret
            | apply LifetimeFacts.reads_only_sys_exit
            | apply LifetimeFacts.reads_only_raise
            | apply LifetimeFacts.reads_only_print
            | apply LifetimeFacts.reads_only_eprint
            | apply LifetimeFacts.reads_only_assign_exit_code
            | apply LifetimeFacts.reads_only_read_exit_code
            | apply LifetimeFacts.reads_only_path_exists
            | apply LifetimeFacts.reads_only_path_is_file
            | apply LifetimeFacts.reads_only_path_is_dir
            | apply LifetimeFacts.reads_only_read_text
            | apply LifetimeFacts.reads_only_stat_size ]
  end.

(** Running the engine and keeping the logs writes the two logs only. *)
Lemma leaves_run_and_log (w : world) (img_id_to_build : string)
    (complete specific : path) :
  q ≠ complete → q ≠ specific →
  leaves q (run_and_log w img_id_to_build complete specific).
Proof.
  intros Hc Hs. unfold run_and_log, tee, filter_logs. leave.
Qed.

Lemma leaves_make_cmd (w : world) (a : RosBaseBuild.args) (context_dir : path)
    (base_img requested_user requested_user_home ros_distro ros_version
     img_id_to_build : string) :
  leaves q (RosBaseBuild.make_cmd w a context_dir base_img requested_user
              requested_user_home ros_distro ros_version img_id_to_build).
Proof.
  unfold RosBaseBuild.make_cmd, RosBaseBuild.pull_branch, img_exists_locally.
  cbv zeta. leave.
Qed.

Lemma leaves_sensor_make_cmd (w : world) (a : SensorBuild.args) (dockerfile : path)
    (ubuntu_version ros_distro ros_version img_id_to_build meta_title
     meta_desc meta_authors : string) :
  leaves q (SensorBuild.make_cmd w a dockerfile ubuntu_version ros_distro
              ros_version img_id_to_build meta_title meta_desc meta_authors).
Proof.
  unfold SensorBuild.make_cmd, SensorBuild.pull_branch. cbv zeta. leave.
Qed.

(** A statement confined to [d], then one that leaves [q] alone. *)
Lemma confined_then_leaves {A B : Type} (d : path) (m : M A) (k : A → M B) :
  confined d q m → (∀ a, leaves q (k a)) →
  ∀ st, anchored d (fs st) →
        lookup (fs (snd (bind m k st))) q = lookup (fs st) q.
Proof.
  intros Hm Hk st Ha. unfold bind. destruct (Hm st Ha) as [_ Hl].
  destruct (m st) as [[a|c|e] st1]; simpl in *; [|done..].
  by rewrite Hk.
Qed.

Lemma lookup_rmtree_outside (d : path) (t : tree) :
  ¬ under d q → lookup (rmtree d t) q = lookup t q.
Proof.
  intros Hq. unfold lookup, rmtree. destruct (decide (q = [])) as [|Hne]; [done|].
  destruct (t !! q) as [x|] eqn:E.
  - apply map_lookup_filter_Some. by split.
  - apply map_lookup_filter_None. by left.
Qed.

Lemma anchored_mkdtemp (w : world) (t : tree) (m : Z) :
  lookup t ["tmp"] = Some (Dir m) →
  anchored (context_of w) (<[context_of w := Dir (octal [7; 0; 0]%Z)]> t).
Proof.
  intros Htmp r Hr. unfold stays, exists_.
  assert (r = [] ∨ r = ["tmp"] ∨ r = context_of w) as [->|[->| ->]].
  { unfold context_of in *. destruct Hr as [k Hk].
    destruct r as [|x [|y [|z r]]]; simplify_eq/=; auto. }
  - done.
  - unfold lookup in *. simpl in *. rewrite lookup_insert_ne; [|done].
    by rewrite Htmp.
  - unfold lookup. simpl. by rewrite lookup_insert_eq.
Qed.

(** The block [with tempfile.TemporaryDirectory(...)] leaves [q] alone
    when its body does, given the fresh directory and the directories
    above it. *)
Lemma leaves_with_TemporaryDirectory {A : Type} (w : world) (body : path → M A) :
  ¬ under (context_of w) q →
  (∀ st, anchored (context_of w) (fs st) →
         lookup (fs (snd (body (context_of w) st))) q = lookup (fs st) q) →
  leaves q (with_TemporaryDirectory w body).
Proof.
  intros Hq Hb st. unfold with_TemporaryDirectory, mkdtemp.
  destruct (lookup (fs st) ["tmp"]) as [[?|m]|] eqn:Htmp; [done| |done].
  destruct (lookup (fs st) (context_of w)); [done|].
  specialize (Hb (set_fs (<[context_of w := Dir (octal [7; 0; 0]%Z)]> (fs st)) st)
                (anchored_mkdtemp w (fs st) m Htmp)).
  destruct (body _ _) as [r st2]. simpl in *.
  rewrite lookup_rmtree_outside by done. rewrite Hb.
  apply lookup_insert_other'. intros ->. by apply Hq.
Qed.

Lemma leaves_mkdtemp_bind {B : Type} (w : world) (k : path → M B) :
  ¬ under (context_of w) q →
  (∀ st, anchored (context_of w) (fs st) →
         lookup (fs (snd (k (context_of w) st))) q = lookup (fs st) q) →
  leaves q (bind (mkdtemp w) k).
Proof.
  intros Hq Hk st. unfold bind, mkdtemp.
  destruct (lookup (fs st) ["tmp"]) as [[?|m]|] eqn:Htmp; [done| |done].
  destruct (lookup (fs st) (context_of w)); [done|].
  rewrite Hk by (by eapply anchored_mkdtemp). simpl.
  apply lookup_insert_other'. intros ->. by apply Hq.
Qed.

End Leaves.

Ltac leave :=
  repeat match goal with
  | |- leaves _ (bind _ _) => apply leaves_bind; [|intros ?]
  | |- leaves _ (when _ _) => apply leaves_when
  | |- leaves _ (if ?b then _ else _) => destruct b
  | |- leaves _ (match ?x with _ => _ end) => destruct x
  | |- leaves _ _ =>
      first [ apply leaves_reads_only;
              first [ apply LifetimeFacts.reads_only_ret
                    | apply LifetimeFacts.reads_only_sys_exit
                    | apply LifetimeFacts.reads_only_print
                    | apply LifetimeFacts.reads_only_eprint
                    | apply LifetimeFacts.reads_only_assign_exit_code
                    | apply LifetimeFacts.reads_only_path_is_file
                    | apply LifetimeFacts.reads_only_read_text ]
            | apply leaves_preserves; intros ?;
              first [ apply LifetimeFacts.preserves_read_required
                    | apply LifetimeFacts.preserves_make_items_to_use
                    | apply LifetimeFacts.preserves_create_items_to_install ] ]
  end.

Lemma well_formed_keys (items : manifest) (key : string) :
  well_formed_manifest items → key ∈ sorted_keys items → relative_name key.
Proof.
  intros (_ & _ & Hrel & _) Hk. rewrite sorted_keys_keys in Hk.
  by eapply Forall_forall in Hrel.
Qed.

Lemma pipeline_footprint (engine : string → dict → string + exn)
    (root_path q : path) (w : world) (a : RosBaseBuild.args) (items : manifest)
    (base_img requested_user requested_user_home ros_distro ros_version
     img_id_to_build : string) (st : state) :
  well_formed_manifest items →
  ¬ under (context_of w) q →
  q ≠ complete_log w img_id_to_build →
  q ≠ specific_log w img_id_to_build →
  anchored (context_of w) (fs st) →
  lookup (fs (snd (RosBaseBuild.pipeline engine root_path w a items base_img
                     requested_user requested_user_home ros_distro ros_version
                     img_id_to_build (context_of w) st))) q
  = lookup (fs st) q.
Proof.
  intros Hwf Hq Hc Hs Ha. unfold RosBaseBuild.pipeline. cbv zeta.
  rewrite (bind_Ret (print _) _ st tt
             (add_console (Stdout, "Created temporary context directory "
                                   +:+ quote (context_of w) +:+ ".") st))
    by reflexivity.
  cbn beta.
  rewrite (confined_then_leaves q (context_of w)); [done| | |exact Ha].
  - unfold build_stage. apply StagingFacts.confined_for_each.
    intros key Hk. apply StagingFacts.confined_build_stage_entry; [done|].
    by eapply well_formed_keys.
  - intros _. apply leaves_bind; [apply leaves_make_cmd|intros cmd].
    do 3 (apply leaves_bind;
          [apply leaves_reads_only, LifetimeFacts.reads_only_print|intros _]).
    by apply leaves_run_and_log.
Qed.

(** The two build scripts write their two logs and nothing else: any
    other object on disk (outside the transient context directory of
    [ros_base_imgs/build.py]) is, when the script ends, what it was
    before, however the run ends. *)
Theorem build_scripts_write_only_their_logs
    (engine : string → dict → string + exn) (root_path : path)
    (yaml_safe_load : string → option (list (string * SensorBuild.distro_info)))
    (root_dir : path) (w : world) (a : RosBaseBuild.args)
    (a' : SensorBuild.args) (st : state) (q : path) :
  (¬ under (context_of w) q →
   q ≠ complete_log w (Str.strip (RosBaseBuild.img_id a)) →
   q ≠ specific_log w (Str.strip (RosBaseBuild.img_id a)) →
   lookup (fs (snd (RosBaseBuild.main engine root_path w a st))) q
   = lookup (fs st) q)
  ∧ (q ≠ complete_log w (Str.strip (SensorBuild.img_id a')) →
     q ≠ specific_log w (Str.strip (SensorBuild.img_id a')) →
     lookup (fs (snd (SensorBuild.main yaml_safe_load root_dir w a' st))) q
     = lookup (fs st) q).
Proof.
  split.
  - intros Hq Hc Hs. revert st. change (leaves q (RosBaseBuild.main engine root_path w a)).
    unfold RosBaseBuild.main. cbv zeta.
    destruct (RosBaseBuild.distro _) as [[ros_version ubuntu_version]|];
      [|leave].
    apply leaves_bind; [leave|intros base_img].
    apply leaves_bind; [leave|intros _].
    apply leaves_bind; [leave|intros _].
    apply leaves_bind; [leave|intros ros_packages].
    apply leaves_bind; [leave|intros extra_ros_env_vars].
    eapply leaves_bind_returns;
      [apply ManifestFacts.items_to_use_well_formed|leave|intros items Hwf].
    apply leaves_bind; [leave|intros _].
    apply leaves_try_finally_exit.
    apply leaves_with_TemporaryDirectory; [done|].
    intros st Ha. by apply pipeline_footprint.
  - intros Hc Hs. revert st.
    change (leaves q (SensorBuild.main yaml_safe_load root_dir w a')).
    unfold SensorBuild.main. cbv zeta.
    apply leaves_bind; [leave|intros is_f].
    apply leaves_bind; [leave|intros _].
    apply leaves_bind; [leave|intros text].
    destruct (yaml_safe_load text) as [ros_distros|]; [|leave].
    destruct (snd <$> List.find _ ros_distros) as [info|]; [|leave].
    apply leaves_bind; [leave|intros dockerfile_is_file].
    apply leaves_bind; [leave|intros _].
    apply leaves_bind; [leave|intros _].
    apply leaves_bind; [apply leaves_sensor_make_cmd|intros cmd].
    apply leaves_bind; [leave|intros _].
    apply leaves_bind; [leave|intros _].
    apply leaves_try_finally_exit.
    apply leaves_bind; [leave|intros _].
    apply leaves_bind; [leave|intros _].
    by apply leaves_run_and_log.
Qed.

Lemma build_scripts_write_only_their_logs_witness :
  lookup (fs (snd (RosBaseBuild.main Script.engine ["repo"] Sample.world_success
                     Sample.base_args Sample.repo_state)))
         ["repo"; "Dockerfile.j2"]
  = lookup (fs Sample.repo_state) ["repo"; "Dockerfile.j2"]
  ∧ lookup (fs (snd (SensorBuild.main Sample.yaml_safe_load ["repo"]
                       Sample.world_success Sample.sensor_args
                       Sample.repo_state)))
           ["repo"; "Dockerfile.j2"]
    = lookup (fs Sample.repo_state) ["repo"; "Dockerfile.j2"].
Proof.
  destruct (build_scripts_write_only_their_logs Script.engine ["repo"]
              Sample.yaml_safe_load ["repo"] Sample.world_success
              Sample.base_args Sample.sensor_args Sample.repo_state
              ["repo"; "Dockerfile.j2"]) as [H1 H2].
  split.
  - apply H1.
    + apply (bool_decide_unpack _). vm_compute. exact I.
    + vm_compute. discriminate.
    + vm_compute. discriminate.
  - apply H2; vm_compute; discriminate.
Defined.

(** [create_docker_files.py] writes below its context directory and
    nowhere else: any object outside of it is, when the script ends, what
    it was before. *)
Theorem create_docker_files_writes_only_the_context
    (engine : string → dict → string + exn) (root_path : path) (w : world)
    (a : CreateDockerFiles.args) (st : state) (q : path) :
  ¬ under (context_of w) q →
  lookup (fs (snd (CreateDockerFiles.main engine root_path w a st))) q
  = lookup (fs st) q.
Proof.
  intros Hq. revert st.
  change (leaves q (CreateDockerFiles.main engine root_path w a)).
  unfold CreateDockerFiles.main. cbv zeta.
  destruct (RosBaseBuild.distro _) as [[ros_version ubuntu_version]|];
    [|leave].
  apply leaves_bind; [leave|intros base_img].
  apply leaves_bind; [leave|intros _].
  apply leaves_bind; [leave|intros _].
  apply leaves_mkdtemp_bind; [done|]. intros st Ha.
  rewrite (bind_Ret (print _) _ st tt
             (add_console (Stdout, "Created temporary directory "
                                   +:+ quote (context_of w) +:+ ".") st))
    by reflexivity.
  cbn beta. unfold bind.
  pose proof (ManifestFacts.items_to_install_well_formed w a base_img
                (Str.strip (CreateDockerFiles.img_user a))
                (Str.lower (CreateDockerFiles.ros_distro a)) ros_version
                (Str.strip (CreateDockerFiles.img_id a))
                (CreateDockerFiles.use_base_img_entrypoint a)
                (negb (CreateDockerFiles.no_environment a))
                (CreateDockerFiles.use_host_nvidia_driver a)
                (joinpath root_path ("packages_ros" +:+ ros_version +:+ ".txt"))
                (joinpath root_path ("env_vars_ros" +:+ ros_version +:+ ".txt"))
                (add_console (Stdout, "Created temporary directory "
                                      +:+ quote (context_of w) +:+ ".") st))
    as Hwf.
  pose proof (LifetimeFacts.preserves_create_items_to_install
                (λ t, t = fs st) w a base_img
                (Str.strip (CreateDockerFiles.img_user a))
                (Str.lower (CreateDockerFiles.ros_distro a)) ros_version
                (Str.strip (CreateDockerFiles.img_id a))
                (CreateDockerFiles.use_base_img_entrypoint a)
                (negb (CreateDockerFiles.no_environment a))
                (CreateDockerFiles.use_host_nvidia_driver a)
                (joinpath root_path ("packages_ros" +:+ ros_version +:+ ".txt"))
                (joinpath root_path ("env_vars_ros" +:+ ros_version +:+ ".txt"))
                (add_console (Stdout, "Created temporary directory "
                                      +:+ quote (context_of w) +:+ ".") st)
                eq_refl) as Hfs.
  destruct (CreateDockerFiles.create_items_to_install _ _ _ _ _ _ _ _ _ _ _ _ _)
    as [[items|c|e] st1]; simpl in *; [|by rewrite Hfs..].
  assert (confined (context_of w) q
            (install_items engine root_path items (context_of w))) as Hc.
  { unfold install_items. apply StagingFacts.confined_for_each.
    intros key Hk. apply StagingFacts.confined_install_entry; [done|].
    by eapply well_formed_keys. }
  destruct (Hc st1) as [_ Hl]; [by rewrite Hfs|]. by rewrite Hl, Hfs.
Qed.

Lemma create_docker_files_writes_only_the_context_witness :
  lookup (fs (snd (CreateDockerFiles.main Script.engine ["repo"]
                     Sample.world_success Sample.files_args Sample.repo_state)))
         ["repo"; "Dockerfile.j2"]
  = lookup (fs Sample.repo_state) ["repo"; "Dockerfile.j2"].
Proof.
  apply (create_docker_files_writes_only_the_context Script.engine ["repo"]
           Sample.world_success Sample.files_args Sample.repo_state
           ["repo"; "Dockerfile.j2"]).
  apply (bool_decide_unpack _). vm_compute. exact I.
Defined.

End FootprintFacts.

(* ===================================================================== *)
(** * The names of the two logs                                          *)
(* ===================================================================== *)

Module LogNameFacts.
Import Py Fs Eff World Logs.

Lemma contains_app (c : ascii) (s t : string) :
  Str.contains c (s +:+ t) = Str.contains c s || Str.contains c t.
Proof.
  induction s as [|d s IH]; [done|].
  change (String d s +:+ t) with (String d (s +:+ t)).
  cbn [Str.contains]. rewrite IH. by rewrite orb_assoc.
Qed.

Lemma contains_replace (a b : ascii) (s : string) :
  a ≠ b → Str.contains a (Str.replace a b s) = false.
Proof.
  intros Hab. induction s as [|c s IH]; [done|].
  cbn [Str.replace Str.contains]. rewrite IH, orb_false_r.
  destruct (Ascii.eqb c a) eqn:E.
  - by apply Ascii.eqb_neq.
  - rewrite Ascii.eqb_sym. exact E.
Qed.

Lemma split_slash_plain (s : string) :
  Str.contains "/" s = false → split_slash s = [s].
Proof.
  induction s as [|c s IH]; [done|]. cbn [Str.contains split_slash]. intros H.
  apply orb_false_elim in H as [Hc Hs]. rewrite Ascii.eqb_sym, Hc.
  by rewrite (IH Hs).
Qed.

(** A name without a slash, other than the empty name and [.], is one
    component. *)
Lemma parts_plain (s : string) :
  Str.contains "/" s = false → s ≠ "" → s ≠ "." → parts s = [s].
Proof.
  intros Hs H1 H2. unfold parts. rewrite (split_slash_plain s Hs).
  by rewrite filter_cons_True.
Qed.

Lemma sapp_inj (s t u : string) : s +:+ t = s +:+ u → t = u.
Proof. induction s as [|c s IH]; simpl; [done|]. intros [= H]. by apply IH. Qed.

Lemma log_name_plain (w : world) (img_id_to_build suffix : string) :
  Str.contains "/" (now_stamp w) = false →
  Str.contains "/" suffix = false →
  joinpath log_dir (log_prefix w img_id_to_build +:+ suffix)
  = ["tmp"; log_prefix w img_id_to_build +:+ suffix].
Proof.
  intros Hstamp Hsuffix. unfold joinpath, log_dir, log_prefix. cbv zeta.
  change (is_absolute _) with false. cbv iota.
  change (Path "/tmp") with ["tmp"]. simpl app. f_equal.
  apply parts_plain; [|done..].
  rewrite !contains_app, Hstamp, Hsuffix, contains_replace by done.
  reflexivity.
Qed.

(** Whatever the image name, with its registry, its path and its tag, the
    two logs are two different files that lie directly in [/tmp]: the
    colons and the slashes of the name are replaced, so that no directory
    has to exist below [/tmp]; and neither lies in the context directory,
    which is removed at the end of the run. The time stamp, printed by
    [strftime("%Y-%m-%d_%H-%M-%S")], holds no slash. *)
Theorem logs_lie_directly_in_tmp (w : world) (img_id_to_build : string) :
  Str.contains "/" (now_stamp w) = false →
  parent (complete_log w img_id_to_build) = ["tmp"]
  ∧ parent (specific_log w img_id_to_build) = ["tmp"]
  ∧ complete_log w img_id_to_build ≠ specific_log w img_id_to_build
  ∧ ¬ under (context_of w) (complete_log w img_id_to_build)
  ∧ ¬ under (context_of w) (specific_log w img_id_to_build).
Proof.
  intros Hstamp. unfold complete_log, specific_log.
  rewrite !log_name_plain by done.
  split; [done|]. split; [done|]. split; [|split].
  - intros [= H]. by apply sapp_inj in H.
  - unfold under, context_of, log_prefix. intros [k Hk]. simplify_eq/=.
  - unfold under, context_of, log_prefix. intros [k Hk]. simplify_eq/=.
Qed.

Lemma logs_lie_directly_in_tmp_witness :
  parent (complete_log Sample.world_success "registry:5000/team/ros:1.0") = ["tmp"]
  ∧ parent (specific_log Sample.world_success "registry:5000/team/ros:1.0") = ["tmp"]
  ∧ complete_log Sample.world_success "registry:5000/team/ros:1.0"
    ≠ specific_log Sample.world_success "registry:5000/team/ros:1.0"
  ∧ ¬ under (context_of Sample.world_success)
            (complete_log Sample.world_success "registry:5000/team/ros:1.0")
  ∧ ¬ under (context_of Sample.world_success)
            (specific_log Sample.world_success "registry:5000/team/ros:1.0").
Proof.
  apply (logs_lie_directly_in_tmp Sample.world_success
           "registry:5000/team/ros:1.0").
  reflexivity.
Defined.

Example log_names_sample :
  complete_log Sample.world_success "registry:5000/team/ros:1.0"
  = ["tmp"; "build_img_registry_5000_team_ros_1.0_2024-01-01_00-00-00_complete.log"].
Proof. vm_compute. reflexivity. Qed.

End LogNameFacts.

(* ===================================================================== *)
(** * A successful build and its logs                                    *)
(* ===================================================================== *)

Module BuildLogFacts.
Import Py Fs Eff World Logs StagerFacts LogSample LogFacts.
Local Open Scope eff_scope.

Lemma universal_newlines_bounded (n : nat) (s : string) :
  (String.length s ≤ n)%nat →
  Str.universal_newlines (Str.universal_newlines s) = Str.universal_newlines s.
Proof.
  revert s. induction n as [|n IH]; intros s Hn.
  { destruct s; [done|simpl in Hn; lia]. }
  destruct s as [|c s]; [done|]. cbn [String.length] in Hn.
  assert (∀ t, Str.universal_newlines (String Regex.newline t)
               = String Regex.newline (Str.universal_newlines t)) as Hnl.
  { intros t. reflexivity. }
  destruct (Ascii.eqb c "013") eqn:Ec.
  - destruct s as [|d s]; [by cbn [Str.universal_newlines]; rewrite Ec|].
    cbn [String.length] in Hn. destruct (Ascii.eqb d Regex.newline) eqn:Ed.
    + replace (Str.universal_newlines (String c (String d s)))
        with (String Regex.newline (Str.universal_newlines s))
        by (cbn [Str.universal_newlines]; by rewrite Ec, Ed).
      rewrite Hnl, IH by lia. reflexivity.
    + replace (Str.universal_newlines (String c (String d s)))
        with (String Regex.newline (Str.universal_newlines (String d s)))
        by (cbn [Str.universal_newlines]; by rewrite Ec, Ed).
      rewrite Hnl, (IH (String d s)) by (cbn [String.length]; lia).
      reflexivity.
  - replace (Str.universal_newlines (String c s))
      with (String c (Str.universal_newlines s))
      by (cbn [Str.universal_newlines]; by rewrite Ec).
    cbn [Str.universal_newlines]. rewrite Ec, IH by lia. reflexivity.
Qed.

(** Reading a text with universal newlines a second time changes
    nothing. *)
Lemma universal_newlines_idem (s : string) :
  Str.universal_newlines (Str.universal_newlines s) = Str.universal_newlines s.
Proof. by apply (universal_newlines_bounded (String.length s)). Qed.

Lemma universal_newlines_nonempty (s : string) :
  s ≠ "" → Str.universal_newlines s ≠ "".
Proof.
  destruct s as [|c s]; [done|]. intros _. cbn [Str.universal_newlines].
  destruct (Ascii.eqb c "013"); [|done]. destruct s as [|d s]; [done|].
  by destruct (Ascii.eqb d Regex.newline).
Qed.



Example successful_build_sample :
  lookup (fs (snd (run_and_log Sample.world_success "img" sample_log
                     sample_specific Sample.repo_state))) sample_specific
  = Some (File ("[2024-01-01_00-00-00] start" +:+ Sample.nl
                +:+ "[2024-01-01_00-00-05] done" +:+ Sample.nl)
               (octal [6; 4; 4]%Z)).
Proof. vm_compute. reflexivity. Qed.

End BuildLogFacts.

(* ===================================================================== *)
(** * Facts about the help text of [sensor_imgs/build.py]                *)
(* ===================================================================== *)

Module SensorHelpFacts.
Import Py SensorHelp.

Lemma length_sapp (s t : string) :
  String.length (s +:+ t) = (String.length s + String.length t)%nat.
Proof. induction s as [|c s IH]; simpl; [done|]. by rewrite IH. Qed.

Lemma length_spaces (n : nat) : String.length (spaces n) = n.
Proof.
  unfold spaces. induction n as [|n IH]; [done|].
  cbn [repeat String.concat]. destruct (repeat " " n) eqn:E.
  - destruct n; [done|discriminate].
  - rewrite length_sapp, length_sapp, IH. reflexivity.
Qed.

Lemma length_ljust (width : nat) (s : string) :
  (String.length s ≤ width)%nat → String.length (ljust width s) = width.
Proof. intros H. unfold ljust. rewrite length_sapp, length_spaces. lia. Qed.

Lemma fold_max_ge (xs : list nat) (x : nat) :
  (x ≤ fold_left Nat.max xs x)%nat
  ∧ Forall (λ y, y ≤ fold_left Nat.max xs x)%nat xs.
Proof.
  revert x. induction xs as [|y xs IH]; intros x; simpl; [by split|].
  destruct (IH (Nat.max x y)) as [H1 H2]. split; [lia|].
  constructor; [lia|exact H2].
Qed.

Lemma fold_max_in (xs : list nat) (x : nat) : fold_left Nat.max xs x ∈ x :: xs.
Proof.
  revert x. induction xs as [|y xs IH]; intros x; simpl; [left|].
  specialize (IH (Nat.max x y)). apply elem_of_cons in IH as [IH|IH].
  - rewrite IH. destruct (Nat.max_spec x y) as [[_ ->]|[_ ->]];
      [right; left|left].
  - right. by right.
Qed.

(** On a mapping with no entry the help text cannot be made: [max] raises
    [ValueError]. On any other mapping the text is the header followed by
    one line for each entry, in the order of the mapping, and every name
    is padded to one and the same width, that of the longest name: the
    colons stand in one column, and none stands further right than the
    names need. *)
Theorem help_text_is_aligned (ros_distros : list (string * variant)) :
  ros_distros ≠ [] →
  get_ros_distros_str [] = inr (Exception "ValueError")
  ∧ ∃ width,
      get_ros_distros_str ros_distros
      = inl (Str.join Sample.nl
               (header :: ((λ kv, help_line width (snd kv)) <$> ros_distros)))
      ∧ Forall (λ kv, String.length (ljust width (ros_distro (snd kv))) = width)
               ros_distros
      ∧ ∃ kv, kv ∈ ros_distros ∧ String.length (ros_distro (snd kv)) = width.
Proof.
  intros Hne. split; [reflexivity|].
  destruct ros_distros as [|kv0 rest]; [done|].
  unfold get_ros_distros_str. cbn [fmap list_fmap py_max].
  set (len := λ kv : string * variant, String.length (ros_distro (snd kv))).
  set (width := fold_left Nat.max (len <$> rest) (len kv0)).
  exists width. split; [reflexivity|].
  destruct (fold_max_ge (len <$> rest) (len kv0)) as [H0 Hrest]. fold width in H0, Hrest.
  split.
  - constructor; [by apply length_ljust|].
    apply Forall_fmap in Hrest. eapply Forall_impl; [exact Hrest|].
    intros kv Hkv. by apply length_ljust.
  - pose proof (fold_max_in (len <$> rest) (len kv0)) as Hin. fold width in Hin.
    apply elem_of_cons in Hin as [Hin|Hin].
    + exists kv0. split; [left|done].
    + apply list_elem_of_fmap in Hin as (kv & Hw & Hkv).
      exists kv. split; [by right|done].
Qed.

Lemma help_text_is_aligned_witness :
  get_ros_distros_str [] = inr (Exception "ValueError")
  ∧ ∃ width,
      get_ros_distros_str sample_distros
      = inl (Str.join Sample.nl
               (header :: ((λ kv, help_line width (snd kv)) <$> sample_distros)))
      ∧ Forall (λ kv, String.length (ljust width (ros_distro (snd kv))) = width)
               sample_distros
      ∧ ∃ kv, kv ∈ sample_distros ∧ String.length (ros_distro (snd kv)) = width.
Proof. apply (help_text_is_aligned sample_distros). discriminate. Defined.

Example help_text_sample :
  get_ros_distros_str sample_distros
  = inl ("Available ROS distros:" +:+ Sample.nl
         +:+ "noetic: ros1, ubuntu_20.04" +:+ Sample.nl
         +:+ "humble: ros2, ubuntu_22.04" +:+ Sample.nl
         +:+ "jazzy : ros2, ubuntu_24.04").
Proof. vm_compute. reflexivity. Qed.

End SensorHelpFacts.

(* ===================================================================== *)
(** * Two stagings of one manifest                                       *)
(* ===================================================================== *)

Module ReproFacts.
Import Py Fs Eff World Stager StagerFacts StageSpec ReproSpec.
Local Open Scope eff_scope.

Lemma relative_to_Some (d p rel : path) :
  relative_to d p = Some rel ↔ p = d ++ rel.
Proof.
  revert p. induction d as [|x d IH]; intros p; simpl.
  - split; [by intros [= ->]|by intros ->].
  - destruct p as [|y p]; [done|]. destruct (decide (x = y)) as [->|Hne].
    + rewrite IH. split; [by intros ->|by intros [= ->]].
    + split; [done|]. intros [= ? _]. done.
Qed.

Lemma relative_to_app (d r q : path) :
  relative_to (d ++ r) (d ++ q) = relative_to r q.
Proof. induction d as [|x d IH]; simpl; [done|]. by rewrite decide_True. Qed.

Lemma relative_to_outside (d p : path) : ¬ under d p → relative_to d p = None.
Proof.
  intros Hn. destruct (relative_to d p) as [rel|] eqn:E; [|done].
  apply relative_to_Some in E as ->. destruct Hn. by apply prefix_app_r.
Qed.

(** The object that [graft] leaves at a path: the one found at the same
    place below [src], if there is one, and else the one that was there. *)
Lemma graft_lookup (src dst : path) (t : tree) (q : path) :
  graft src dst t !! q
  = match relative_to dst q with
    | Some rel =>
        match t !! ((src ++ rel) : path) with
        | Some n => Some n
        | None => t !! q
        end
    | None => t !! q
    end.
Proof.
  unfold graft.
  assert (∀ (b m : tree),
            map_fold (λ p n acc,
                        match relative_to src p with
                        | Some rel => <[dst ++ rel := n]> acc
                        | None => acc
                        end) b m !! q
            = match relative_to dst q with
              | Some rel =>
                  match m !! ((src ++ rel) : path) with
                  | Some n => Some n
                  | None => b !! q
                  end
              | None => b !! q
              end) as H; [|apply H].
  intros b.
  apply (map_fold_weak_ind
           (λ (acc : tree) (m : tree),
              acc !! q
              = match relative_to dst q with
                | Some rel =>
                    match m !! ((src ++ rel) : path) with
                    | Some n => Some n
                    | None => b !! q
                    end
                | None => b !! q
                end)).
  - destruct (relative_to dst q); by rewrite ?lookup_empty.
  - intros i x m acc Hi IH.
    destruct (relative_to src i) as [rel'|] eqn:Ei.
    + apply relative_to_Some in Ei as ->.
      destruct (decide (q = dst ++ rel')) as [->|Hq].
      * rewrite lookup_insert_eq.
        rewrite (proj2 (relative_to_Some dst (dst ++ rel') rel') eq_refl).
        by rewrite lookup_insert_eq.
      * rewrite lookup_insert_ne by done. rewrite IH.
        destruct (relative_to dst q) as [rel|] eqn:Eq; [|done].
        apply relative_to_Some in Eq as ->.
        rewrite lookup_insert_ne; [done|].
        intros E%app_inv_head. by subst.
    + rewrite IH. destruct (relative_to dst q) as [rel|] eqn:Eq; [|done].
      rewrite lookup_insert_ne; [done|]. intros ->.
      by rewrite (proj2 (relative_to_Some src (src ++ rel) rel) eq_refl) in Ei.
Qed.

Lemma parent_app (d r : path) : r ≠ [] → parent (d ++ r) = d ++ parent r.
Proof. intros Hr. unfold parent. by apply removelast_app. Qed.

Lemma app_not_prefix (d r q : path) : r ≠ [] → q `prefix_of` d → q ≠ d ++ r.
Proof.
  intros Hr [k ->] E. rewrite <- app_assoc in E.
  rewrite <- (app_nil_r q) in E at 1. apply app_inv_head in E.
  symmetry in E. apply app_eq_nil in E as [_ ?]. done.
Qed.

(** ** Walking down to a directory that is there *)

Lemma mkdir_prefixes_descend (todo : list string) (seen r : path) (um : Z)
    (t : tree) :
  (∀ q, q `prefix_of` (seen ++ todo) → is_dir t q = true) → r ≠ [] →
  mkdir_prefixes seen (todo ++ r) um t = mkdir_prefixes (seen ++ todo) r um t.
Proof.
  revert seen. induction todo as [|c rest IH]; intros seen Hd Hr; simpl.
  - by rewrite app_nil_r.
  - assert (is_dir t (seen ++ [c]) = true) as Hc.
    { apply Hd. replace (seen ++ c :: rest) with ((seen ++ [c]) ++ rest)
        by (by rewrite <- app_assoc). by apply prefix_app_r. }
    unfold is_dir in Hc.
    destruct (lookup t (seen ++ [c])) as [[?|mode]|]; [done| |done].
    replace (seen ++ c :: rest) with ((seen ++ [c]) ++ rest)
      by (by rewrite <- app_assoc).
    rewrite <- IH; [|by rewrite <- app_assoc|done].
    destruct (rest ++ r) as [|x xs] eqn:E; [|done].
    by apply app_eq_nil in E as [_ ?].
Qed.

Lemma mkdir_prefixes_present (todo : list string) (seen : path) (um : Z)
    (t : tree) :
  (∀ q, q `prefix_of` (seen ++ todo) → is_dir t q = true) → todo ≠ [] →
  mkdir_prefixes seen todo um t = inr (Exception "FileExistsError").
Proof.
  revert seen. induction todo as [|c rest IH]; intros seen Hd Hr; [done|].
  simpl.
  assert (is_dir t (seen ++ [c]) = true) as Hc.
  { apply Hd. replace (seen ++ c :: rest) with ((seen ++ [c]) ++ rest)
      by (by rewrite <- app_assoc). by apply prefix_app_r. }
  unfold is_dir in Hc.
  destruct (lookup t (seen ++ [c])) as [[?|mode]|]; [done| |done].
  destruct rest as [|c' rest']; [done|].
  apply IH; [|done]. by rewrite <- app_assoc.
Qed.

Section Twins.

Variable S : path → Prop.
Variables d1 d2 : path.
Hypothesis Hapart : apart S d1 d2.

Lemma twin_source (p : path) : S p → twin_paths S d1 d2 p p.
Proof. intros Hp. by left. Qed.

Lemma twin_destination (rel : path) : twin_paths S d1 d2 (d1 ++ rel) (d2 ++ rel).
Proof. right. by exists rel. Qed.

Lemma twin_lookup (t1 t2 : tree) (p1 p2 : path) :
  twin_trees S d1 d2 t1 t2 → twin_paths S d1 d2 p1 p2 →
  lookup t1 p1 = lookup t2 p2.
Proof.
  intros (Hs & Hb & _ & _) [[<- Hp]|(rel & -> & ->)]; unfold lookup.
  - destruct (decide (p1 = [])); [done|]. by apply Hs.
  - destruct Hapart as [<-|(Hn1 & Hn2 & _)].
    + repeat case_decide; first [done|apply Hb].
    + repeat case_decide;
        try match goal with
            | H : _ ++ _ = [] |- _ => by apply app_eq_nil in H as [? _]
            end.
      apply Hb.
Qed.

Lemma rooted_insert (d r : path) (n : node) (t : tree) :
  r ≠ [] → rooted d t → rooted d (<[d ++ r := n]> t).
Proof.
  intros Hr Hd q Hq. unfold is_dir. rewrite lookup_insert_other.
  - by apply Hd.
  - intros E. by apply (app_not_prefix d r q Hr Hq).
Qed.

(** Writing one object at the same place of the two destinations. *)
Lemma twin_insert (rel : path) (n : node) (t1 t2 : tree) :
  rel ≠ [] → twin_trees S d1 d2 t1 t2 →
  twin_trees S d1 d2 (<[d1 ++ rel := n]> t1) (<[d2 ++ rel := n]> t2).
Proof.
  intros Hr (Hs & Hb & Hr1 & Hr2).
  split; [|split; [|split; by apply rooted_insert]].
  - intros p Hp. destruct Hapart as [<-|(_ & _ & Hout)].
    + destruct (decide (d1 ++ rel = p)) as [<-|Hne].
      * by rewrite !lookup_insert_eq.
      * rewrite !lookup_insert_ne by done. by apply Hs.
    + destruct (Hout p Hp) as [Ho1 Ho2].
      rewrite !lookup_insert_ne; [by apply Hs| |];
        intros <-; [apply Ho2|apply Ho1]; by apply prefix_app_r.
  - intros r. destruct (decide (rel = r)) as [<-|Hne].
    + by rewrite !lookup_insert_eq.
    + rewrite !lookup_insert_ne; [apply Hb| |]; by intros ?%app_inv_head.
Qed.

(** ** Statements that do not touch the file system *)

Lemma alike_bind {A B : Type} (m1 m2 : M A) (k1 k2 : A → M B) :
  alike S d1 d2 m1 m2 → (∀ a, alike S d1 d2 (k1 a) (k2 a)) →
  alike S d1 d2 (bind m1 k1) (bind m2 k2).
Proof.
  intros Hm Hk st1 st2 Hs. unfold bind. destruct (Hm st1 st2 Hs) as [Hr Hs'].
  destruct (m1 st1) as [r1 st1'], (m2 st2) as [r2 st2']. simpl in *. subst r2.
  destruct r1 as [a|c|e]; [by apply Hk|done..].
Qed.

(** The same, when the continuations rely on what [m1] returns. *)
Lemma alike_bind_returns {A B : Type} (m1 m2 : M A) (k1 k2 : A → M B)
    (Q : A → Prop) :
  returns m1 Q → alike S d1 d2 m1 m2 →
  (∀ a, Q a → alike S d1 d2 (k1 a) (k2 a)) →
  alike S d1 d2 (bind m1 k1) (bind m2 k2).
Proof.
  intros HQ Hm Hk st1 st2 Hs. unfold bind.
  destruct (Hm st1 st2 Hs) as [Hr Hs']. specialize (HQ st1).
  destruct (m1 st1) as [r1 st1'], (m2 st2) as [r2 st2']. simpl in *. subst r2.
  destruct r1 as [a|c|e]; [by apply Hk|done..].
Qed.

Lemma alike_bind_ret {A B : Type} (a : A) (k1 k2 : A → M B) :
  alike S d1 d2 (k1 a) (k2 a) → alike S d1 d2 (bind (ret a) k1) (bind (ret a) k2).
Proof. intros Hk st1 st2 Hs. by apply Hk. Qed.

Lemma alike_bind_raise {A B : Type} (e : exn) (k1 k2 : A → M B) :
  alike S d1 d2 (bind (raise e) k1) (bind (raise e) k2).
Proof. by intros st1 st2 Hs. Qed.

Lemma alike_when (b : bool) (m1 m2 : M unit) :
  alike S d1 d2 m1 m2 → alike S d1 d2 (when b m1) (when b m2).
Proof. intros Hm. destruct b; [done|]. by intros st1 st2 Hs. Qed.

Lemma alike_for_each {A : Type} (xs : list A) (f1 f2 : A → M unit) :
  (∀ x, x ∈ xs → alike S d1 d2 (f1 x) (f2 x)) →
  alike S d1 d2 (for_each xs f1) (for_each xs f2).
Proof.
  induction xs as [|x xs IH]; intros Hf; simpl.
  - by intros st1 st2 Hs.
  - apply alike_bind; [apply Hf; left|]. intros _. apply IH.
    intros y Hy. apply Hf. by right.
Qed.

(** Two statements that end in one and the same way and leave the state
    as it is. *)
Lemma alike_const {A : Type} (m1 m2 : M A) (r : res A) :
  (∀ st, m1 st = (r, st)) → (∀ st, m2 st = (r, st)) → alike S d1 d2 m1 m2.
Proof. intros Hm1 Hm2 st1 st2 Hs. by rewrite Hm1, Hm2. Qed.

Lemma alike_ret {A : Type} (a : A) : alike S d1 d2 (ret a) (ret a).
Proof. by apply (alike_const _ _ (Ret a)). Qed.

Lemma alike_raise {A : Type} (e : exn) : alike S d1 d2 (@raise A e) (raise e).
Proof. by apply (alike_const _ _ (Raise e)). Qed.

Lemma alike_sys_exit {A : Type} (c : Z) :
  alike S d1 d2 (@sys_exit A c) (sys_exit c).
Proof. by apply (alike_const _ _ (Exit c)). Qed.

Lemma alike_getitem (items : manifest) (key : string) :
  alike S d1 d2 (getitem items key) (getitem items key).
Proof.
  unfold getitem. destruct (List.find _ _); [apply alike_ret|apply alike_raise].
Qed.

Lemma alike_index (item : list pyval) (i : nat) :
  alike S d1 d2 (index item i) (index item i).
Proof.
  unfold index. destruct (item !! i); [apply alike_ret|apply alike_raise].
Qed.

(** What is printed may name the destination, and so differ. *)
Lemma alike_print (s1 s2 : string) : alike S d1 d2 (print s1) (print s2).
Proof. intros st1 st2 [Hu Hs]. by split. Qed.

(** ** Reading *)

Lemma alike_path_exists (p1 p2 : path) :
  twin_paths S d1 d2 p1 p2 → alike S d1 d2 (path_exists p1) (path_exists p2).
Proof.
  intros Hp st1 st2 [Hu Hs]. unfold path_exists, exists_. simpl.
  by rewrite (twin_lookup _ _ _ _ Hs Hp).
Qed.

Lemma alike_path_is_file (p1 p2 : path) :
  twin_paths S d1 d2 p1 p2 → alike S d1 d2 (path_is_file p1) (path_is_file p2).
Proof.
  intros Hp st1 st2 [Hu Hs]. unfold path_is_file, is_file. simpl.
  by rewrite (twin_lookup _ _ _ _ Hs Hp).
Qed.

Lemma alike_path_is_dir (p1 p2 : path) :
  twin_paths S d1 d2 p1 p2 → alike S d1 d2 (path_is_dir p1) (path_is_dir p2).
Proof.
  intros Hp st1 st2 [Hu Hs]. unfold path_is_dir, is_dir. simpl.
  by rewrite (twin_lookup _ _ _ _ Hs Hp).
Qed.

Lemma alike_read_text (p1 p2 : path) :
  twin_paths S d1 d2 p1 p2 → alike S d1 d2 (read_text p1) (read_text p2).
Proof.
  intros Hp st1 st2 [Hu Hs]. unfold read_text.
  rewrite (twin_lookup _ _ _ _ Hs Hp).
  by destruct (lookup (fs st2) p2) as [[?|?]|].
Qed.

Lemma alike_render_template (engine : string → dict → string + exn)
    (src : path) (context : pyval) :
  S src →
  alike S d1 d2 (render_template engine src context)
                (render_template engine src context).
Proof.
  intros Hsrc. unfold render_template. apply alike_bind.
  - by apply alike_read_text, twin_source.
  - intros source. destruct (py_dict context) as [d|e]; [|apply alike_raise].
    destruct (engine source d); [apply alike_ret|apply alike_raise].
Qed.

(** ** Writing below the destination *)

Lemma alike_write_text (rel : path) (text : string) :
  rel ≠ [] →
  alike S d1 d2 (write_text (d1 ++ rel) text) (write_text (d2 ++ rel) text).
Proof.
  intros Hr st1 st2 [Hu Hs]. unfold write_text.
  rewrite !parent_app by done.
  rewrite (twin_lookup _ _ _ _ Hs (twin_destination (parent rel))).
  rewrite (twin_lookup _ _ _ _ Hs (twin_destination rel)), Hu.
  destruct (lookup (fs st2) (d2 ++ parent rel)) as [[?|?]|]; [done| |done].
  destruct (lookup (fs st2) (d2 ++ rel)) as [[?|?]|]; simpl; [|done|];
    (split; [done|]); (split; [done|]); by apply twin_insert.
Qed.

Lemma alike_chmod (rel : path) (mode : Z) :
  rel ≠ [] → alike S d1 d2 (chmod (d1 ++ rel) mode) (chmod (d2 ++ rel) mode).
Proof.
  intros Hr st1 st2 [Hu Hs]. unfold chmod.
  rewrite (twin_lookup _ _ _ _ Hs (twin_destination rel)).
  destruct (lookup (fs st2) (d2 ++ rel)) as [[?|?]|]; simpl; [| |done].
  - split; [done|]. split; [done|]. by apply twin_insert.
  - destruct (d1 ++ rel) as [|x xs] eqn:E1;
      [by apply app_eq_nil in E1 as [_ ?]|]. rewrite <- E1.
    destruct (d2 ++ rel) as [|y ys] eqn:E2;
      [by apply app_eq_nil in E2 as [_ ?]|]. rewrite <- E2.
    split; [done|]. split; [done|]. by apply twin_insert.
Qed.

Lemma alike_chmod_by_flag (rel : path) (flag : pyval) :
  rel ≠ [] →
  alike S d1 d2 (chmod_by_flag (d1 ++ rel) flag) (chmod_by_flag (d2 ++ rel) flag).
Proof.
  intros Hr. unfold chmod_by_flag. destruct (truthy flag); by apply alike_chmod.
Qed.

Lemma alike_touch (rel : path) :
  rel ≠ [] → alike S d1 d2 (touch (d1 ++ rel)) (touch (d2 ++ rel)).
Proof.
  intros Hr st1 st2 Hs. pose proof Hs as [Hu Hf]. unfold touch.
  rewrite (twin_lookup _ _ _ _ Hf (twin_destination rel)).
  destruct (lookup (fs st2) (d2 ++ rel)); [done|]. by apply alike_write_text.
Qed.

(** A copy writes over its source in both runs or in neither. *)
Lemma destination_is_source (src rel : path) :
  S src → (d1 ++ rel = src ↔ d2 ++ rel = src).
Proof.
  intros Hsrc. destruct Hapart as [<-|(_ & _ & Hout)]; [done|].
  destruct (Hout src Hsrc) as [Ho1 Ho2].
  split; intros <-; [destruct Ho1|destruct Ho2]; by apply prefix_app_r.
Qed.

Lemma alike_copy2 (src rel : path) :
  S src → rel ≠ [] →
  alike S d1 d2 (copy2 src (d1 ++ rel)) (copy2 src (d2 ++ rel)).
Proof.
  intros Hsrc Hr st1 st2 Hs. pose proof Hs as [Hu Hf].
  unfold copy2. rewrite (twin_lookup _ _ _ _ Hf (twin_source src Hsrc)).
  destruct (lookup (fs st2) src) as [[c m|?]|]; [|done..].
  unfold is_dir. rewrite (twin_lookup _ _ _ _ Hf (twin_destination rel)).
  cbv zeta.
  assert (∀ target, target ≠ [] →
            let step (d : path) (st : state) :=
              if decide (d ++ target = src)
              then (Raise (Exception "SameFileError"), st)
              else match write_text (d ++ target) c st with
                   | (Ret _, st') => chmod (d ++ target) m st'
                   | other => other
                   end in
            fst (step d1 st1) = fst (step d2 st2)
            ∧ twins S d1 d2 (snd (step d1 st1)) (snd (step d2 st2))) as Hstep.
  { intros target Ht. cbv beta zeta.
    pose proof (destination_is_source src target Hsrc) as Hiff.
    repeat case_decide; try tauto.
    destruct (alike_write_text target c Ht st1 st2 Hs) as [Hw Hs'].
    destruct (write_text (d1 ++ target) c st1) as [r1 st1'],
             (write_text (d2 ++ target) c st2) as [r2 st2']. simpl in *.
    subst r2. destruct r1 as [[]|?|?]; [|done..]. by apply alike_chmod. }
  destruct (lookup (fs st2) (d2 ++ rel)) as [[?|?]|];
    rewrite <- ?app_assoc; apply Hstep; try done.
  intros [? _]%app_eq_nil. done.
Qed.

Lemma mkdir_prefixes_twin (todo : list string) (seen : path) (um : Z)
    (t1 t2 : tree) :
  twin_trees S d1 d2 t1 t2 →
  match mkdir_prefixes (d1 ++ seen) todo um t1,
        mkdir_prefixes (d2 ++ seen) todo um t2 with
  | inl t1', inl t2' => twin_trees S d1 d2 t1' t2'
  | inr e1, inr e2 => e1 = e2
  | _, _ => False
  end.
Proof.
  revert seen t1 t2. induction todo as [|c rest IH]; intros seen t1 t2 Hs;
    simpl; [done|].
  rewrite <- !app_assoc.
  rewrite (twin_lookup _ _ _ _ Hs (twin_destination (seen ++ [c]))).
  destruct (lookup t2 (d2 ++ seen ++ [c])) as [[?|?]|].
  - by destruct rest.
  - destruct rest as [|c' rest']; [done|]. by apply IH.
  - apply IH. apply twin_insert; [|done]. by intros [_ ?]%app_eq_nil.
Qed.

(** The walk of [mkdir(parents=True)] from the root, once the destination
    directory is known to be there. *)
Lemma mkdir_parents_below (d rel : path) (st : state) :
  rooted d (fs st) →
  mkdir_parents (d ++ rel) st
  = match (if decide (rel = [])
           then inr (Exception "FileExistsError")
           else mkdir_prefixes (d ++ []) rel (umask st) (fs st)) with
    | inl t' => (Ret tt, set_fs t' st)
    | inr e => (Raise e, st)
    end.
Proof.
  intros Hd. unfold mkdir_parents.
  destruct (decide (rel = [])) as [->|Hne].
  - rewrite app_nil_r. destruct d as [|x d']; [done|].
    rewrite (mkdir_prefixes_present (x :: d') [] (umask st) (fs st)); done.
  - destruct (d ++ rel) as [|x xs] eqn:E;
      [by apply app_eq_nil in E as [_ ?]|]. rewrite <- E.
    rewrite (mkdir_prefixes_descend d [] rel (umask st) (fs st)); try done.
    by rewrite app_nil_r.
Qed.

Lemma alike_mkdir_parents (rel : path) :
  alike S d1 d2 (mkdir_parents (d1 ++ rel)) (mkdir_parents (d2 ++ rel)).
Proof.
  intros st1 st2 [Hu Hs]. pose proof Hs as (_ & _ & Hr1 & Hr2).
  rewrite (mkdir_parents_below d1 rel st1 Hr1).
  rewrite (mkdir_parents_below d2 rel st2 Hr2), Hu.
  destruct (decide (rel = [])); [done|].
  pose proof (mkdir_prefixes_twin rel [] (umask st2) _ _ Hs) as H.
  destruct (mkdir_prefixes (d1 ++ []) rel (umask st2) (fs st1)),
           (mkdir_prefixes (d2 ++ []) rel (umask st2) (fs st2));
    simpl; try done. by subst.
Qed.

Lemma alike_mkdir_if_missing (rel : path) :
  alike S d1 d2 (mkdir_if_missing (d1 ++ rel)) (mkdir_if_missing (d2 ++ rel)).
Proof.
  unfold mkdir_if_missing. apply alike_bind.
  - apply alike_path_exists, twin_destination.
  - intros b. apply alike_when, alike_mkdir_parents.
Qed.

Lemma rooted_graft (src d rel : path) (t : tree) :
  rel ≠ [] → rooted d t → rooted d (graft src (d ++ rel) t).
Proof.
  intros Hr Hd q Hq. specialize (Hd q Hq). unfold is_dir, lookup in *.
  case_decide; [done|]. rewrite graft_lookup, relative_to_outside; [done|].
  - intros [k Hk]. rewrite <- app_assoc in Hk.
    apply (app_not_prefix d (rel ++ k) q); [|done..].
    by intros [? _]%app_eq_nil.
Qed.

Lemma alike_copytree (src rel : path) :
  (∀ q, under src q → S q) → rel ≠ [] →
  alike S d1 d2 (copytree src (d1 ++ rel)) (copytree src (d2 ++ rel)).
Proof.
  intros Hsrc Hr st1 st2 [Hu Hs]. unfold copytree, exists_.
  rewrite !parent_app by done.
  rewrite (twin_lookup _ _ _ _ Hs (twin_destination rel)).
  rewrite (twin_lookup _ _ _ _ Hs (twin_destination (parent rel))).
  destruct (lookup (fs st2) (d2 ++ rel)); [done|].
  destruct (lookup (fs st2) (d2 ++ parent rel)) as [[?|?]|]; simpl;
    [done| |done].
  split; [done|]. split; [done|]. simpl.
  destruct Hs as (Hso & Hb & Hr1 & Hr2).
  assert (∀ r : path,
            fs st1 !! ((src ++ r) : path) = fs st2 !! ((src ++ r) : path)) as Hcopy.
  { intros r. apply Hso, Hsrc. by apply prefix_app_r. }
  split; [|split; [|split; by apply rooted_graft]].
  - intros p Hp. rewrite !graft_lookup.
    destruct Hapart as [<-|(_ & _ & Hout)].
    + destruct (relative_to (d1 ++ rel) p) as [r|]; [|by apply Hso].
      rewrite Hcopy. destruct (fs st2 !! ((src ++ r) : path)); [done|by apply Hso].
    + destruct (Hout p Hp) as [Ho1 Ho2].
      rewrite !relative_to_outside; [by apply Hso| |];
        intros Hu'; [apply Ho2|apply Ho1]; unfold under in *;
        (etrans; [|exact Hu']); by apply prefix_app_r.
  - intros r. rewrite !graft_lookup, !relative_to_app.
    destruct (relative_to rel r) as [r'|]; [|apply Hb].
    rewrite Hcopy. destruct (fs st2 !! ((src ++ r') : path)); [done|apply Hb].
Qed.

End Twins.

Ltac alike_auto Hapart :=
  repeat first
    [ apply alike_when
    | apply alike_ret
    | apply alike_raise
    | apply alike_sys_exit
    | apply alike_print
    | apply alike_getitem
    | apply alike_index
    | apply (alike_path_exists _ _ _ Hapart);
        first [apply twin_destination|by apply twin_source]
    | apply (alike_path_is_file _ _ _ Hapart);
        first [apply twin_destination|by apply twin_source]
    | apply (alike_path_is_dir _ _ _ Hapart);
        first [apply twin_destination|by apply twin_source]
    | apply (alike_mkdir_if_missing _ _ _ Hapart)
    | apply (alike_mkdir_parents _ _ _ Hapart)
    | by apply (alike_copy2 _ _ _ Hapart)
    | by apply (alike_copytree _ _ _ Hapart)
    | by apply (alike_touch _ _ _ Hapart)
    | by apply (alike_chmod_by_flag _ _ _ Hapart)
    | by apply (alike_chmod _ _ _ Hapart)
    | by apply (alike_write_text _ _ _ Hapart)
    | by apply (alike_render_template _ _ _ Hapart)
    | match goal with
      | |- alike _ _ _ (if ?b then _ else _) (if ?b then _ else _) => destruct b
      | |- alike _ _ _ (match ?x with Some _ => _ | None => _ end)
                       (match ?x with Some _ => _ | None => _ end) => destruct x
      end
    | apply alike_bind; [|intros ?] ].

Section Entries.

Variable engine : string → dict → string + exn.
Variables root_path d1 d2 : path.
Variable items : manifest.

Let S : path → Prop := in_sources root_path items.

Hypothesis Hapart : apart S d1 d2.

Lemma joinpath_below (d : path) (key : string) :
  is_absolute key = false → joinpath d key = d ++ parts key.
Proof. intros H. unfold joinpath. by rewrite H. Qed.

Lemma getitem_member (key : string) :
  returns (getitem items key) (λ item, ∃ k, (k, item) ∈ items).
Proof.
  intros st. unfold getitem.
  destruct (List.find _ items) as [[k v]|] eqn:E; [|done].
  apply find_key_elem in E as [E _]. by exists k.
Qed.

Lemma index_head (item : list pyval) :
  returns (index item 0) (λ v, ∃ rest, item = v :: rest).
Proof. intros st. unfold index. destruct item as [|v rest]; [done|]. by exists rest. Qed.

Lemma source_region (key s : string) (rest : list pyval) (q : path) :
  (key, PStr s :: rest) ∈ items → under (joinpath root_path s) q → S q.
Proof.
  intros Hin Hq. exists (joinpath root_path s). split; [|done].
  by exists key, s, rest.
Qed.

Lemma alike_build_stage_entry (key : string) :
  relative_name key →
  alike S d1 d2 (build_stage_entry engine root_path d1 items key)
                (build_stage_entry engine root_path d2 items key).
Proof.
  intros (Habs & Hne & _). unfold build_stage_entry. cbv zeta.
  rewrite !(joinpath_below _ key Habs).
  rewrite !(parent_app _ (parts key) Hne).
  apply (alike_bind_returns _ _ _ _ _ _ _ _ (getitem_member key));
    [apply alike_getitem|]. intros item [k Hin].
  apply (alike_bind_returns _ _ _ _ _ _ _ _ (index_head item));
    [apply alike_index|]. intros item0 [rest ->].
  destruct item0 as [|b|s|d]; try apply alike_bind_raise.
  rewrite StagingFacts.build_source_path.
  assert (∀ q, under (joinpath root_path s) q → S q) as Hsrc
    by (intros q; by apply (source_region k s rest)).
  assert (S (joinpath root_path s)) as Hs0 by (by apply Hsrc).
  apply alike_bind_ret. alike_auto Hapart.
Qed.

(** The source that an entry of [install_items] settles on lies among
    the sources of the manifest. *)
Lemma install_source_member (item0 : pyval) (k : string) (rest : list pyval) :
  (k, item0 :: rest) ∈ items →
  returns
    (if is_None item0 then ret None
     else match item0 with
          | PStr s =>
              let src_path := joinpath root_path s in
              src_exists ← path_exists src_path;
              when (negb src_exists)
                (print ("Required resource " +:+ quote src_path
                        +:+ " does not exist.");;
                 sys_exit 1);;
              ret (Some src_path)
          | _ => raise (Exception "TypeError")
          end)
    (λ src_path, match src_path with
                 | Some src => ∀ q, under src q → S q
                 | None => True
                 end).
Proof.
  intros Hin st. destruct item0 as [|b|s|d]; simpl; try done.
  unfold bind, path_exists. simpl.
  destruct (exists_ (fs st) (joinpath root_path s)); simpl; [|done].
  intros q. by apply (source_region k s rest).
Qed.

Lemma alike_install_entry (key : string) :
  relative_name key →
  alike S d1 d2 (install_entry engine root_path d1 items key)
                (install_entry engine root_path d2 items key).
Proof.
  intros (Habs & Hne & _). unfold install_entry. cbv zeta.
  rewrite !(joinpath_below _ key Habs).
  rewrite !(parent_app _ (parts key) Hne).
  apply (alike_bind_returns _ _ _ _ _ _ _ _ (getitem_member key));
    [apply alike_getitem|]. intros item [k Hin].
  apply (alike_bind_returns _ _ _ _ _ _ _ _ (index_head item));
    [apply alike_index|]. intros item0 [rest ->].
  apply (alike_bind_returns _ _ _ _ _ _ _ _
           (install_source_member item0 k rest Hin)).
  - destruct item0 as [|b|s|d]; simpl;
      try first [apply alike_ret|apply alike_raise].
    assert (S (joinpath root_path s)) as Hs0
      by (by apply (source_region k s rest)).
    alike_auto Hapart.
  - intros [src|] Hsrc.
    + assert (S src) as Hs0 by (by apply Hsrc). alike_auto Hapart.
    + alike_auto Hapart.
Qed.

End Entries.

Lemma in_sources_perm (root_path : path) (m1 m2 : manifest) (p : path) :
  m1 ≡ₚ m2 → in_sources root_path m1 p → in_sources root_path m2 p.
Proof.
  intros Hp (src & (key & s & rest & Hin & ->) & Hu).
  exists (joinpath root_path s). split; [|done].
  exists key, s, rest. split; [|done]. by rewrite <- Hp.
Qed.

Lemma sorted_keys_relative (items : manifest) (key : string) :
  Forall relative_name (keys items) → key ∈ sorted_keys items →
  relative_name key.
Proof.
  intros Hall Hin. rewrite (sorted_keys_keys items) in Hin.
  by apply (proj1 (Forall_forall _ _) Hall).
Qed.


(** ** The sample: two context directories in two file systems *)

Lemma prefix_of_pair (a b : string) (r : path) :
  r `prefix_of` [a; b] → r = [] ∨ r = [a] ∨ r = [a; b].
Proof.
  intros [k Hk]. destruct r as [|x [|y [|z r]]]; simplify_eq/=; auto.
Qed.

Lemma sample_sources (p : path) :
  in_sources Sample.root_path Sample.manifest_za p →
  ∃ c rest, p = "repo" :: c :: rest.
Proof.
  intros (src & (key & s & rest & Hin & ->) & [k ->]).
  unfold Sample.manifest_za in Hin.
  apply elem_of_cons in Hin as [Hin|Hin];
    [|apply elem_of_cons in Hin as [Hin|Hin]];
    [| |by apply elem_of_nil in Hin]; simplify_eq; by eexists _, _.
Qed.

Lemma sample_same_sources :
  same_on (in_sources Sample.root_path Sample.manifest_za)
          Sample.tree0 tree_other.
Proof.
  intros p (c & rest & ->)%sample_sources. unfold tree_other, context_other.
  rewrite !lookup_insert_ne by done. by rewrite lookup_delete_ne.
Qed.

Lemma sample_same_below :
  same_below Sample.context_dir context_other Sample.tree0 tree_other.
Proof.
  intros [|c rel]; [vm_compute; reflexivity|].
  unfold tree_other, Sample.tree0, context_other, Sample.context_dir.
  cbn [app]. rewrite !lookup_insert_ne by done.
  rewrite lookup_delete_ne by done. rewrite !lookup_insert_ne by done.
  done.
Qed.

Lemma sample_rooted :
  rooted Sample.context_dir Sample.tree0 ∧ rooted context_other tree_other.
Proof.
  split; intros r [->|[->| ->]]%prefix_of_pair; vm_compute; reflexivity.
Qed.

Lemma sample_apart :
  apart (in_sources Sample.root_path Sample.manifest_za)
        Sample.context_dir context_other.
Proof.
  right. split; [done|]. split; [done|].
  intros p (c & rest & ->)%sample_sources. split; intros [k Hk]; done.
Qed.

Lemma sample_relative : Forall relative_name (keys Sample.manifest_za).
Proof.
  repeat (constructor;
          [split; [reflexivity|split; [done|]];
           apply (bool_decide_unpack _); vm_compute; exact I|]).
  constructor.
Qed.


(** The two states of the sample differ where the comparison does not
    look, and the staged files are there in both. *)
Example sample_states_differ :
  fs Sample.state0 ≠ fs state_other
  ∧ console Sample.state0 ≠ console state_other
  ∧ fs (snd (build_stage Script.engine Sample.root_path Sample.context_dir
               Sample.manifest_za Sample.state0))
      !! (Sample.context_dir ++ ["a.txt"])
    = Some (File "Hello world!" (octal [6; 6; 4]%Z))
  ∧ fs (snd (build_stage Script.engine Sample.root_path context_other
               Sample.manifest_az state_other))
      !! (context_other ++ ["a.txt"])
    = Some (File "Hello world!" (octal [6; 6; 4]%Z)).
Proof.
  split; [|split; [done|split; vm_compute; reflexivity]].
  intros E. assert (fs Sample.state0 !! context_other
                    = fs state_other !! context_other) as H by (by rewrite E).
  vm_compute in H. done.
Qed.


End ReproFacts.
